(** * CymbalFlix Discover: the data-access layer, embedded and verified

    The Python module [app/utils/queries.py] talks to a PostgreSQL-compatible
    server through parameterised SQL.  The development below embeds

    - the tables the statements read and write, as lists of records;
    - the fragment of SQL the statements use (inner and left joins,
      three-valued [WHERE], [GROUP BY] with aggregates, [HAVING],
      [ORDER BY], [LIMIT]/[OFFSET], [LIKE]/[ILIKE] patterns);
    - every function of [queries.py], statement by statement, in a small
      error-and-state monad over a connection;
    - [is_configured] of [app/utils/database.py] and the order in which the
      Streamlit pages call the data-access functions.

    Numeric columns are exact rationals; a distance, and what is computed
    from one, is a rational or NaN; text is a string of bytes compared
    byte-wise (the "C" collation) and case-folded on ASCII letters. *)

From Stdlib Require Import List ZArith QArith Qround Bool Lia Ascii String.
From Stdlib Require Import Sorting.Sorted Permutation DecimalString.
From Stdlib Require Import Lqa.
Import ListNotations.

Set Implicit Arguments.
Local Open Scope Z_scope.

(* ================================================================== *)
(** * Errors raised by the driver and by Python *)
(* ================================================================== *)

Inductive Err : Type :=
| NegativeLimit        (* LIMIT must not be negative *)
| NegativeOffset       (* OFFSET must not be negative *)
| MissingBind (name : string)  (* a bind parameter without a value *)
| BindType (name : string)     (* a fractional value where an integer is required *)
| BadEscape            (* LIKE pattern must not end with escape character *)
| AttributeOnNone      (* attribute access on a [None] row *)
| FloatOfNone.         (* float(None) *)

Inductive Result (A : Type) : Type :=
| OK (a : A)
| Raise (e : Err).
Arguments OK {A} a.
Arguments Raise {A} e.

Definition rbind {A B} (r : Result A) (k : A -> Result B) : Result B :=
  match r with
  | OK a => k a
  | Raise e => Raise e
  end.

(* ================================================================== *)
(** * Small helpers on options and SQL's three-valued logic *)
(* ================================================================== *)

(** SQL truth values: [None] is NULL/unknown. *)
Definition tv := option bool.

Definition and3 (a b : tv) : tv :=
  match a, b with
  | Some false, _ | _, Some false => Some false
  | Some true, Some true => Some true
  | _, _ => None
  end.

Definition or3 (a b : tv) : tv :=
  match a, b with
  | Some true, _ | _, Some true => Some true
  | Some false, Some false => Some false
  | _, _ => None
  end.

(** A [WHERE], [ON] or [HAVING] condition keeps a row only when TRUE. *)
Definition is_true3 (a : tv) : bool :=
  match a with Some true => true | _ => false end.

Definition option_eqb {A} (eqb : A -> A -> bool) (x y : option A) : bool :=
  match x, y with
  | Some a, Some b => eqb a b
  | None, None => true
  | _, _ => false
  end.

(* ================================================================== *)
(** * Text: byte strings, ASCII case folding, LIKE patterns *)
(* ================================================================== *)

Definition lower_ascii (c : ascii) : ascii :=
  let n := nat_of_ascii c in
  if (Nat.leb 65 n && Nat.leb n 90)%bool then ascii_of_nat (n + 32) else c.

Fixpoint lower (s : string) : string :=
  match s with
  | EmptyString => EmptyString
  | String c s' => String (lower_ascii c) (lower s')
  end.

(** One element of a parsed LIKE pattern. *)
Inductive Tok : Type :=
| TAny               (* % : any run of characters *)
| TOne               (* _ : any one character *)
| TLit (c : ascii).  (* the character itself; also what backslash-c gives *)

(** PostgreSQL's default escape character is the backslash; a pattern
    that ends in a lone backslash is an error. *)
Definition backslash : ascii := ascii_of_nat 92.
Definition percent : ascii := ascii_of_nat 37.
Definition underscore : ascii := ascii_of_nat 95.

Fixpoint parse_like (esc : bool) (p : string) : option (list Tok) :=
  match p with
  | EmptyString => if esc then None else Some []
  | String c p' =>
      if esc then option_map (cons (TLit c)) (parse_like false p')
      else if Ascii.eqb c backslash then parse_like true p'
      else if Ascii.eqb c percent then option_map (cons TAny) (parse_like false p')
      else if Ascii.eqb c underscore then option_map (cons TOne) (parse_like false p')
      else option_map (cons (TLit c)) (parse_like false p')
  end.

(** Matching a token list against a text; [fold] is the per-character
    normalisation ([lower_ascii] for ILIKE, the identity for LIKE). *)
Fixpoint match_toks (fold : ascii -> ascii) (ts : list Tok) (s : string) : bool :=
  match ts with
  | [] => match s with EmptyString => true | _ => false end
  | TLit c :: ts' =>
      match s with
      | String d s' => Ascii.eqb (fold c) (fold d) && match_toks fold ts' s'
      | EmptyString => false
      end
  | TOne :: ts' =>
      match s with
      | String _ s' => match_toks fold ts' s'
      | EmptyString => false
      end
  | TAny :: ts' =>
      (fix any (s : string) : bool :=
         match_toks fold ts' s
         || match s with
            | String _ s' => any s'
            | EmptyString => false
            end) s
  end%bool.

(** Python's [a in s] on strings: [a] occurs in [s] as a substring. *)
Fixpoint prefixb (a s : string) : bool :=
  match a, s with
  | EmptyString, _ => true
  | String c a', String d s' => Ascii.eqb c d && prefixb a' s'
  | String _ _, EmptyString => false
  end.

Fixpoint substringb (a s : string) : bool :=
  prefixb a s
  || match s with
     | String _ s' => substringb a s'
     | EmptyString => false
     end.

(** Case-insensitive containment, as in [q.lower() in s.lower()]. *)
Definition contains_ci (q s : string) : bool := substringb (lower q) (lower s).

(* ================================================================== *)
(** * Relational operators *)
(* ================================================================== *)

Section Relational.
Variables A B K : Type.

(** [l JOIN r ON on] *)
Definition inner_join (on : A -> B -> bool) (l : list A) (r : list B)
  : list (A * B) :=
  flat_map (fun a => map (pair a) (filter (on a) r)) l.

(** [l LEFT JOIN r ON on]: an unmatched left row is kept once, with the
    right side NULL. *)
Definition left_join (on : A -> B -> bool) (l : list A) (r : list B)
  : list (A * option B) :=
  flat_map (fun a =>
              match filter (on a) r with
              | [] => [(a, None)]
              | bs => map (fun b => (a, Some b)) bs
              end) l.

Variable eqb : K -> K -> bool.

Definition memb (k : K) (l : list K) : bool := existsb (eqb k) l.

(** [DISTINCT]: first occurrences, in order. *)
Fixpoint distinct_from (seen l : list K) : list K :=
  match l with
  | [] => []
  | k :: l' =>
      if memb k seen then distinct_from seen l'
      else k :: distinct_from (k :: seen) l'
  end.

Definition distinct (l : list K) : list K := distinct_from [] l.

(** [GROUP BY key]: one group per distinct key, holding its rows. *)
Definition group_by (key : A -> K) (l : list A) : list (K * list A) :=
  map (fun k => (k, filter (fun a => eqb (key a) k) l))
      (distinct (map key l)).

(** [ORDER BY]: a stable insertion sort on a "comes no later" test.  The
    server leaves the order of rows that tie unspecified; what is proved
    about positions holds for every order of the ties, or is proved for
    rows without ties. *)
Variable leb : A -> A -> bool.

Fixpoint insert_sorted (x : A) (l : list A) : list A :=
  match l with
  | [] => [x]
  | y :: l' => if leb x y then x :: l else y :: insert_sorted x l'
  end.

Fixpoint order_by (l : list A) : list A :=
  match l with
  | [] => []
  | x :: l' => insert_sorted x (order_by l')
  end.
End Relational.

(** [LIMIT lim OFFSET off]; the server rejects a negative bound, looking at
    the offset first.  It also rejects a bound, as any bound integer, that
    is beyond its integer types; that error is not modelled, and what is
    proved about errors is proved for integers within range. *)
Definition limit_offset {A} (lim off : Z) (l : list A) : Result (list A) :=
  if off <? 0 then Raise NegativeOffset
  else if lim <? 0 then Raise NegativeLimit
  else OK (firstn (Z.to_nat lim) (skipn (Z.to_nat off) l)).

Definition limit {A} (lim : Z) (l : list A) : Result (list A) :=
  limit_offset lim 0 l.

(** [COUNT(col)] over non-null values is the number of rows; [AVG] is NULL
    on an empty group. *)
Definition count {A} (l : list A) : Z := Z.of_nat (List.length l).

Definition qsum (l : list Q) : Q := fold_right Qplus 0%Q l.

Definition avg (l : list Q) : option Q :=
  match l with
  | [] => None
  | _ => Some (qsum l / inject_Z (count l))%Q
  end.

Definition coalesce {A} (o : option A) (d : A) : A :=
  match o with Some a => a | None => d end.

(** Values of a nullable column over a group, NULLs dropped (what every
    aggregate does with its argument). *)
Definition non_null {A} (l : list (option A)) : list A :=
  flat_map (fun o => match o with Some a => [a] | None => [] end) l.

(** [ROUND(x::numeric, d)]: half away from zero, [d] decimal places. *)
Definition pow10 (d : nat) : positive := Pos.pow 10 (Pos.of_nat d).

Definition scale10 (d : nat) : positive :=
  match d with O => 1%positive | _ => pow10 d end.

Definition round_numeric (d : nat) (x : Q) : Q :=
  let s := scale10 d in
  let y := (x * inject_Z (Zpos s))%Q in
  if Qle_bool 0 y
  then Qmake (Qfloor (y + (1 # 2))) s
  else Qmake (- Qfloor ((- y) + (1 # 2))) s.

(** Python's [round(float(x), 2)], taken on the exact value with ties to
    even; the binary representation of the float is not modelled. *)
Definition py_round (d : nat) (x : Q) : Q :=
  let s := scale10 d in
  let y := (x * inject_Z (Zpos s))%Q in
  let f := Qfloor y in
  let r := (y - inject_Z f)%Q in
  match Qcompare r (1 # 2) with
  | Lt => Qmake f s
  | Gt => Qmake (f + 1) s
  | Eq => if Z.even f then Qmake f s else Qmake (f + 1) s
  end.

(** Python truth of a number: zero is falsy. *)
Definition truthy_Z (z : Z) : bool := negb (z =? 0).
Definition truthy_Q (q : Q) : bool := negb (Qeq_bool q 0).
Definition truthy_string (s : string) : bool :=
  match s with EmptyString => false | _ => true end.
Definition truthy_opt {A} (t : A -> bool) (o : option A) : bool :=
  match o with Some a => t a | None => false end.

(* ================================================================== *)
(** * The schema *)
(* ================================================================== *)

(** The DDL is not part of the repository.  A column is nullable here
    where a statement or a page tests it for NULL or falls back on a
    default ([year], [summary], [summary_embedding], [rated_at], the
    external identifiers); keys, titles and rating values are not. *)

(** The vector type of the embedding column; only the server looks inside. *)
Definition Vector := list Q.

Record Timestamp : Type := mkTimestamp {
  ts_year : Z;          (* EXTRACT(YEAR FROM ...) *)
  ts_in_year : Z        (* position inside the year *)
}.

Record Movie : Type := mkMovie {
  m_movie_id : Z;
  m_title : string;
  m_year : option Z;
  m_summary : option string;
  m_summary_embedding : option Vector
}.

Record Genre : Type := mkGenre {
  g_genre_id : Z;
  g_genre_name : string
}.

Record MovieGenre : Type := mkMovieGenre {
  mg_movie_id : Z;
  mg_genre_id : Z
}.

Record Rating : Type := mkRating {
  r_rating_id : Z;
  r_user_id : Z;
  r_movie_id : Z;
  r_rating : Q;
  r_rated_at : option Timestamp
}.

Record User : Type := mkUser { u_user_id : Z }.

Record Link : Type := mkLink {
  l_movie_id : Z;
  l_imdb_id : option string;
  l_tmdb_id : option string
}.

(** The database: the six tables and the sequence behind
    [ratings.rating_id] (the INSERT of [add_rating] gives no identifier and
    reads the generated one back). *)
Record DB : Type := mkDB {
  movies : list Movie;
  genres : list Genre;
  movie_genres : list MovieGenre;
  ratings : list Rating;
  users : list User;
  links : list Link;
  rating_id_seq : Z
}.

(* ================================================================== *)
(** * Connections: statements, commit, and the [with] block *)
(* ================================================================== *)

(** A connection sees its own uncommitted changes in [working]; what other
    sessions (and later connections) see is [committed]. *)
Record Conn : Type := mkConn {
  committed : DB;
  working : DB
}.

(** A block of Python run against a connection: it may raise, and it
    threads the connection. *)
Definition M (A : Type) : Type := Conn -> Result A * Conn.

Definition ret {A} (a : A) : M A := fun c => (OK a, c).

Definition bind {A B} (m : M A) (k : A -> M B) : M B :=
  fun c =>
    match m c with
    | (OK a, c') => k a c'
    | (Raise e, c') => (Raise e, c')
    end.

Notation "x <- m ;; k" := (bind m (fun x => k))
  (at level 61, m at next level, right associativity).
Notation "m ;;; k" := (bind m (fun _ => k))
  (at level 61, right associativity).

(** A Python-level step that may raise. *)
Definition lift {A} (r : Result A) : M A := fun c => (r, c).

(** [conn.execute] of a SELECT: a function of the tables it reads. *)
Definition execute_select {A} (stmt : DB -> Result A) : M A :=
  fun c => (stmt (working c), c).

(** [conn.execute] of an INSERT or UPDATE with RETURNING: the returned
    rows, and the tables after the statement. *)
Definition execute_dml {A} (stmt : DB -> Result (A * DB)) : M A :=
  fun c =>
    match stmt (working c) with
    | OK (a, db') => (OK a, mkConn (committed c) db')
    | Raise e => (Raise e, c)
    end.

(** [conn.commit()] *)
Definition commit : M unit :=
  fun c => (OK tt, mkConn (working c) (working c)).

(** [with get_db_connection() as conn: body]: the connection starts on the
    committed state; leaving the block closes it, which rolls back whatever
    was not committed. *)
Definition with_db_connection {A} (body : M A) (db : DB) : Result A * DB :=
  let (r, c) := body (mkConn db db) in (r, committed c).

(** [result.fetchone()] and [result.scalar()] *)
Definition fetchone {A} (rows : list A) : option A := hd_error rows.

(** [row.attr] on what [fetchone] gave. *)
Definition attr_of {A} (row : option A) : Result A :=
  match row with
  | Some r => OK r
  | None => Raise AttributeOnNone
  end.

(* ================================================================== *)
(** * Bind parameters (the Python dict [params]) *)
(* ================================================================== *)

Inductive Value : Type :=
| VInt (z : Z)
| VNum (q : Q).

Definition Params := list (string * Value).

(** [params[k] = v] *)
Fixpoint dict_set {V} (k : string) (v : V) (d : list (string * V))
  : list (string * V) :=
  match d with
  | [] => [(k, v)]
  | (k', v') :: d' =>
      if String.eqb k k' then (k, v) :: d' else (k', v') :: dict_set k v d'
  end.

Fixpoint dict_get {V} (k : string) (d : list (string * V)) : option V :=
  match d with
  | [] => None
  | (k', v) :: d' => if String.eqb k k' then Some v else dict_get k d'
  end.

Definition dict_keys {V} (d : list (string * V)) : list string := map fst d.

(** The value bound to [:name] when the statement is executed.  [LIMIT]
    and [OFFSET] take integers (the callers' annotations are [int]);
    comparisons take any number.  The values are taken within the range
    of the server's types. *)
Definition bind_int (p : Params) (name : string) : Result Z :=
  match dict_get name p with
  | Some (VInt z) => OK z
  | Some (VNum _) => Raise (BindType name)
  | None => Raise (MissingBind name)
  end.

Definition bind_num (p : Params) (name : string) : Result Q :=
  match dict_get name p with
  | Some (VInt z) => OK (inject_Z z)
  | Some (VNum q) => OK q
  | None => Raise (MissingBind name)
  end.

(* ================================================================== *)
(** * Shared pieces of the SELECT lists *)
(* ================================================================== *)

(** [GROUP BY m.movie_id, m.title, m.year, m.summary] *)
Definition MovieKey : Type := Z * string * option Z * option string.

Definition movie_key (m : Movie) : MovieKey :=
  (m_movie_id m, m_title m, m_year m, m_summary m).

Definition movie_key_eqb (a b : MovieKey) : bool :=
  let '(i1, t1, y1, s1) := a in
  let '(i2, t2, y2, s2) := b in
  (i1 =? i2) && String.eqb t1 t2 && option_eqb Z.eqb y1 y2
  && option_eqb String.eqb s1 s2.

(** [ORDER BY col] ascending on a nullable text column: NULLs last. *)
Definition opt_string_leb (a b : option string) : bool :=
  match a, b with
  | Some x, Some y => String.leb x y
  | Some _, None => true
  | None, Some _ => false
  | None, None => true
  end.

(** [ARRAY_AGG(DISTINCT g.genre_name ORDER BY g.genre_name)] over the
    genre side of a group's rows. *)
Definition genre_names (gs : list (option Genre)) : list (option string) :=
  order_by opt_string_leb
    (distinct (option_eqb String.eqb) (map (option_map g_genre_name) gs)).

(** [row.genres if row.genres and row.genres[0] else []] *)
Definition py_genres (l : list (option string)) : list (option string) :=
  match l with
  | Some s :: _ => if truthy_string s then l else []
  | _ => []
  end.

(** [LEFT JOIN movie_genres mg ON m.movie_id = mg.movie_id] *)
Definition on_movie_genre (m : Movie) (mg : MovieGenre) : bool :=
  m_movie_id m =? mg_movie_id mg.

(** [LEFT JOIN genres g ON mg.genre_id = g.genre_id], [mg] nullable. *)
Definition on_genre {X} (row : X * option MovieGenre) (g : Genre) : bool :=
  match snd row with
  | Some mg => mg_genre_id mg =? g_genre_id g
  | None => false
  end.

(** [FROM movies m LEFT JOIN movie_genres mg ... LEFT JOIN genres g ...] *)
Definition movies_with_genres (db : DB)
  : list (Movie * option MovieGenre * option Genre) :=
  left_join on_genre
    (left_join on_movie_genre (movies db) (movie_genres db))
    (genres db).

(* ================================================================== *)
(** * QUICK STATS *)
(* ================================================================== *)

Record Stats : Type := mkStats {
  movie_count : Z;
  rating_count : Z;
  user_count : Z;
  genre_count : Z
}.

Definition get_stats : DB -> Result Stats * DB :=
  with_db_connection (
    mc <- execute_select (fun db => OK (count (movies db))) ;;
    rc <- execute_select (fun db => OK (count (ratings db))) ;;
    uc <- execute_select (fun db => OK (count (users db))) ;;
    gc <- execute_select (fun db => OK (count (genres db))) ;;
    ret (mkStats mc rc uc gc)).

(* ================================================================== *)
(** * SEMANTIC SEARCH *)
(* ================================================================== *)

(** What the distance operator gives, and what arithmetic, the cast to
    numeric, ROUND and Python's [float] make of it: a number, or NaN (the
    cosine distance to or from a vector of zeros). *)
Inductive Number : Type :=
| Num (q : Q)
| NaN.

Record SemanticMovie : Type := mkSemanticMovie {
  sm_movie_id : Z;
  sm_title : string;
  sm_year : option Z;
  sm_summary : option string;
  sm_similarity : Number;
  sm_genres : list (option string)
}.

(** [ORDER BY d] ascending on a nullable number: NULLs last. *)
Definition opt_Q_leb (a b : option Q) : bool :=
  match a, b with
  | Some x, Some y => Qle_bool x y
  | Some _, None => true
  | None, Some _ => false
  | None, None => true
  end.

(** The server's order on double precision: NaN is equal to itself and
    greater than every number. *)
Definition number_leb (a b : Number) : bool :=
  match a, b with
  | Num x, Num y => Qle_bool x y
  | _, NaN => true
  | NaN, Num _ => false
  end.

(** [ORDER BY d] ascending on a nullable distance: NaN after the numbers,
    NULLs last. *)
Definition opt_number_leb (a b : option Number) : bool :=
  match a, b with
  | Some x, Some y => number_leb x y
  | Some _, None => true
  | None, Some _ => false
  | None, None => true
  end.

(** [ROUND((1 - d)::numeric, 3)]: NaN stays NaN throughout. *)
Definition similarity_of (d : Number) : Number :=
  match d with
  | Num x => Num (round_numeric 3 (1 - x)%Q)
  | NaN => NaN
  end.

(** Python truth of a [Decimal]: zero is falsy, NaN is not. *)
Definition truthy_number (n : Number) : bool :=
  match n with
  | Num x => truthy_Q x
  | NaN => true
  end.

Definition vector_eqb (a b : Vector) : bool :=
  (Nat.eqb (List.length a) (List.length b))
  && forallb (fun xy => Qeq_bool (fst xy) (snd xy)) (combine a b).

Definition SemanticKey : Type := MovieKey * option Vector.

Definition semantic_key_eqb (a b : SemanticKey) : bool :=
  movie_key_eqb (fst a) (fst b) && option_eqb vector_eqb (snd a) (snd b).

Section Semantic.
(** The server's [embedding(model, text)] function and the pgvector
    operator [<=>] (cosine distance); both live outside the repository. *)
Variable embedding : string -> string -> Vector.
Variable cosine_distance : Vector -> Vector -> Number.

(** [m.summary_embedding <=> q.embedding] *)
Definition distance_to (q : Vector) (e : option Vector) : option Number :=
  option_map (fun v => cosine_distance v q) e.

(** One row of the SELECT, with its sort key. *)
Record SemanticRow : Type := mkSemanticRow {
  sr_movie_id : Z;
  sr_title : string;
  sr_year : option Z;
  sr_summary : option string;
  sr_distance : option Number;   (* the ORDER BY expression *)
  sr_similarity : option Number;
  sr_genres : list (option string)
}.

Definition semantic_select (q : Vector)
           (g : SemanticKey * list (Movie * option MovieGenre * option Genre))
  : SemanticRow :=
  let '((id, title, year, summary), emb) := fst g in
  let d := distance_to q emb in
  mkSemanticRow id title year summary d
    (option_map similarity_of d)
    (genre_names (map snd (snd g))).

Definition semantic_sql (query : string) (lim : Z) (db : DB)
  : Result (list SemanticRow) :=
  let q := embedding "gemini-embedding-001" query in
  let joined := movies_with_genres db in
  let kept :=
    filter (fun row =>
              match m_summary_embedding (fst (fst row)) with
              | Some _ => true
              | None => false
              end) joined in
  let groups :=
    group_by semantic_key_eqb
      (fun row => (movie_key (fst (fst row)),
                   m_summary_embedding (fst (fst row)))) kept in
  let rows := map (semantic_select q) groups in
  limit lim
    (order_by (fun a b => opt_number_leb (sr_distance a) (sr_distance b))
       rows).

(** The loop body of [search_movies_semantic];
    [float(row.similarity) if row.similarity else 0]. *)
Definition semantic_dict (row : SemanticRow) : SemanticMovie :=
  mkSemanticMovie (sr_movie_id row) (sr_title row) (sr_year row)
    (sr_summary row)
    (if truthy_opt truthy_number (sr_similarity row)
     then coalesce (sr_similarity row) (Num 0) else Num 0)
    (py_genres (sr_genres row)).

Definition search_movies_semantic (query : string) (lim : Z)
  : DB -> Result (list SemanticMovie) * DB :=
  with_db_connection (
    result <- execute_select (semantic_sql query lim) ;;
    ret (map semantic_dict result)).
End Semantic.

(* ================================================================== *)
(** * KEYWORD SEARCH *)
(* ================================================================== *)

Record KeywordMovie : Type := mkKeywordMovie {
  km_movie_id : Z;
  km_title : string;
  km_year : option Z;
  km_summary : option string;
  km_genres : list (option string)
}.

(** [f"%{query}%"] *)
Definition keyword_pattern (query : string) : string :=
  ("%" ++ query ++ "%")%string.

(** [m.title ILIKE :pattern OR m.summary ILIKE :pattern] *)
Definition keyword_where (ts : list Tok) (m : Movie) : tv :=
  or3 (Some (match_toks lower_ascii ts (m_title m)))
      (option_map (match_toks lower_ascii ts) (m_summary m)).

(** [CASE WHEN m.title ILIKE :pattern THEN 0 ELSE 1 END] *)
Definition title_rank (ts : list Tok) (title : string) : Z :=
  if match_toks lower_ascii ts title then 0 else 1.

(** [ORDER BY CASE ... END, m.title] *)
Definition keyword_order (ts : list Tok) (a b : KeywordMovie) : bool :=
  let ra := title_rank ts (km_title a) in
  let rb := title_rank ts (km_title b) in
  (ra <? rb) || ((ra =? rb) && String.leb (km_title a) (km_title b)).

Definition keyword_select
           (g : MovieKey * list (Movie * option MovieGenre * option Genre))
  : KeywordMovie :=
  let '(id, title, year, summary) := fst g in
  mkKeywordMovie id title year summary (genre_names (map snd (snd g))).

Definition keyword_sql (pattern : string) (lim : Z) (db : DB)
  : Result (list KeywordMovie) :=
  match parse_like false pattern with
  | None => Raise BadEscape
  | Some ts =>
      let joined := movies_with_genres db in
      let kept :=
        filter (fun row => is_true3 (keyword_where ts (fst (fst row)))) joined in
      let groups :=
        group_by movie_key_eqb (fun row => movie_key (fst (fst row))) kept in
      limit lim (order_by (keyword_order ts) (map keyword_select groups))
  end.

(** The loop body of [search_movies_keyword]. *)
Definition keyword_dict (row : KeywordMovie) : KeywordMovie :=
  mkKeywordMovie (km_movie_id row) (km_title row) (km_year row)
    (km_summary row) (py_genres (km_genres row)).

Definition search_movies_keyword (query : string) (lim : Z)
  : DB -> Result (list KeywordMovie) * DB :=
  let pattern := keyword_pattern query in
  with_db_connection (
    result <- execute_select (keyword_sql pattern lim) ;;
    ret (map keyword_dict result)).

(* ================================================================== *)
(** * BROWSE AND FILTER *)
(* ================================================================== *)

Definition genre_leb (a b : Genre) : bool :=
  String.leb (g_genre_name a) (g_genre_name b).

(** [SELECT genre_id, genre_name FROM genres ORDER BY genre_name] *)
Definition get_genres : DB -> Result (list Genre) * DB :=
  with_db_connection (
    result <- execute_select (fun db => OK (order_by genre_leb (genres db))) ;;
    ret (map (fun row => mkGenre (g_genre_id row) (g_genre_name row)) result)).

(** One entry of the Python list [where_clauses]. *)
Inductive Clause : Type :=
| CAlways      (* "1=1" *)
| CGenreEq     (* "mg.genre_id = :genre_id" *)
| CYearGe      (* "m.year >= :year_min" *)
| CYearLe.     (* "m.year <= :year_max" *)

(** A clause with its bind parameter resolved. *)
Inductive Bound : Type :=
| BAlways
| BGenreEq (v : Q)
| BYearGe (v : Q)
| BYearLe (v : Q).

Definition bind_clause (p : Params) (c : Clause) : Result Bound :=
  match c with
  | CAlways => OK BAlways
  | CGenreEq => rbind (bind_num p "genre_id") (fun v => OK (BGenreEq v))
  | CYearGe => rbind (bind_num p "year_min") (fun v => OK (BYearGe v))
  | CYearLe => rbind (bind_num p "year_max") (fun v => OK (BYearLe v))
  end.

Fixpoint bind_where (p : Params) (cs : list Clause) : Result (list Bound) :=
  match cs with
  | [] => OK []
  | c :: cs' =>
      rbind (bind_clause p c) (fun b =>
      rbind (bind_where p cs') (fun bs => OK (b :: bs)))
  end.

(** The clauses only mention the aliases [m] and [mg]. *)
Definition eval_bound (m : Movie) (mg : option MovieGenre) (b : Bound) : tv :=
  match b with
  | BAlways => Some true
  | BGenreEq v =>
      option_map (fun x => Qeq_bool (inject_Z (mg_genre_id x)) v) mg
  | BYearGe v => option_map (fun y => Qle_bool v (inject_Z y)) (m_year m)
  | BYearLe v => option_map (fun y => Qle_bool (inject_Z y) v) (m_year m)
  end.

(** [" AND ".join(where_clauses)] *)
Definition eval_where (bs : list Bound) (m : Movie) (mg : option MovieGenre)
  : tv :=
  fold_right (fun b acc => and3 (eval_bound m mg b) acc) (Some true) bs.

Definition where_ok (bs : list Bound) (m : Movie) (mg : option MovieGenre)
  : bool :=
  is_true3 (eval_where bs m mg).

(** A row of either main query, and the dict built from it. *)
Record BrowseMovie : Type := mkBrowseMovie {
  bm_movie_id : Z;
  bm_title : string;
  bm_year : option Z;
  bm_summary : option string;
  bm_avg_rating : Q;
  bm_rating_count : Z;
  bm_genres : list (option string)
}.

Record BrowseResult : Type := mkBrowseResult {
  res_movies : list BrowseMovie;
  res_total_count : Z
}.

(** [ORDER BY avg_rating DESC, rating_count DESC] *)
Definition browse_order (a b : BrowseMovie) : bool :=
  negb (Qle_bool (bm_avg_rating a) (bm_avg_rating b))
  || (Qeq_bool (bm_avg_rating a) (bm_avg_rating b)
      && (bm_rating_count b <=? bm_rating_count a)).

(** [LEFT JOIN ratings r ON m.movie_id = r.movie_id] *)
Definition on_rating_of (id : Z) (r : Rating) : bool := id =? r_movie_id r.

Definition group_avg (rs : list (option Rating)) : Q :=
  coalesce (avg (map r_rating (non_null rs))) 0%Q.

Definition group_count (rs : list (option Rating)) : Z :=
  count (map r_rating_id (non_null rs)).

(** The query of the [else] branch (no rating floor): the rows before
    ORDER BY and LIMIT, for resolved clauses. *)
Definition browse_plain_rows (bs : list Bound) (db : DB) : list BrowseMovie :=
  let joined :=
    left_join (fun row r => on_rating_of (m_movie_id (fst (fst row))) r)
      (movies_with_genres db) (ratings db) in
  let kept :=
    filter (fun row => where_ok bs (fst (fst (fst row)))
                                   (snd (fst (fst row)))) joined in
  let groups :=
    group_by movie_key_eqb
      (fun row => movie_key (fst (fst (fst row)))) kept in
  map (fun g =>
         let '(id, title, year, summary) := fst g in
         mkBrowseMovie id title year summary
           (group_avg (map snd (snd g)))
           (group_count (map snd (snd g)))
           (genre_names (map (fun row => snd (fst row)) (snd g))))
      groups.

Definition browse_plain_sql (cs : list Clause) (p : Params) (db : DB)
  : Result (list BrowseMovie) :=
  rbind (bind_where p cs) (fun bs =>
  rbind (bind_int p "limit") (fun lim =>
  rbind (bind_int p "offset") (fun off =>
    limit_offset lim off (order_by browse_order (browse_plain_rows bs db))))).

(** A row of the CTE [movie_ratings]. *)
Record MovieRating : Type := mkMovieRating {
  mr_movie_id : Z;
  mr_title : string;
  mr_year : option Z;
  mr_summary : option string;
  mr_avg_rating : Q;
  mr_rating_count : Z
}.

Definition movie_rating_eqb (a b : MovieRating) : bool :=
  movie_key_eqb (mr_movie_id a, mr_title a, mr_year a, mr_summary a)
                (mr_movie_id b, mr_title b, mr_year b, mr_summary b)
  && Qeq_bool (mr_avg_rating a) (mr_avg_rating b)
  && (mr_rating_count a =? mr_rating_count b).

(** [WITH movie_ratings AS (...)] *)
Definition movie_ratings_cte (bs : list Bound) (rating_min : Q) (db : DB)
  : list MovieRating :=
  let joined :=
    left_join (fun row r => on_rating_of (m_movie_id (fst row)) r)
      (left_join on_movie_genre (movies db) (movie_genres db))
      (ratings db) in
  let kept :=
    filter (fun row => where_ok bs (fst (fst row)) (snd (fst row))) joined in
  let groups :=
    group_by movie_key_eqb (fun row => movie_key (fst (fst row))) kept in
  let having :=
    filter (fun g => Qle_bool rating_min (group_avg (map snd (snd g))))
           groups in
  map (fun g =>
         let '(id, title, year, summary) := fst g in
         mkMovieRating id title year summary
           (group_avg (map snd (snd g)))
           (group_count (map snd (snd g))))
      having.

(** The query of the [if rating_min:] branch: the rows before ORDER BY
    and LIMIT. *)
Definition browse_rated_rows (bs : list Bound) (rating_min : Q) (db : DB)
  : list BrowseMovie :=
  let joined :=
    left_join on_genre
      (left_join (fun mr mg => mr_movie_id mr =? mg_movie_id mg)
         (movie_ratings_cte bs rating_min db) (movie_genres db))
      (genres db) in
  let groups :=
    group_by movie_rating_eqb (fun row => fst (fst row)) joined in
  map (fun g =>
         let mr := fst g in
         mkBrowseMovie (mr_movie_id mr) (mr_title mr) (mr_year mr)
           (mr_summary mr) (mr_avg_rating mr) (mr_rating_count mr)
           (genre_names (map snd (snd g))))
      groups.

Definition browse_rated_sql (cs : list Clause) (p : Params) (db : DB)
  : Result (list BrowseMovie) :=
  rbind (bind_where p cs) (fun bs =>
  rbind (bind_num p "rating_min") (fun rating_min =>
  rbind (bind_int p "limit") (fun lim =>
  rbind (bind_int p "offset") (fun off =>
    limit_offset lim off
      (order_by browse_order (browse_rated_rows bs rating_min db)))))).

(** [SELECT COUNT(DISTINCT m.movie_id) FROM movies m LEFT JOIN
    movie_genres mg ... WHERE {where_sql}] *)
Definition count_rows (bs : list Bound) (db : DB) : Z :=
  let joined := left_join on_movie_genre (movies db) (movie_genres db) in
  let kept := filter (fun row => where_ok bs (fst row) (snd row)) joined in
  count (distinct Z.eqb (map (fun row => m_movie_id (fst row)) kept)).

Definition count_sql (cs : list Clause) (p : Params) (db : DB) : Result Z :=
  rbind (bind_where p cs) (fun bs => OK (count_rows bs db)).

(** The loop body of [browse_movies]. *)
Definition browse_dict (row : BrowseMovie) : BrowseMovie :=
  mkBrowseMovie (bm_movie_id row) (bm_title row) (bm_year row)
    (bm_summary row)
    (if truthy_Q (bm_avg_rating row) then py_round 2 (bm_avg_rating row)
     else 0%Q)
    (bm_rating_count row)
    (py_genres (bm_genres row)).

(** [if x: where_clauses.append(c); params[k] = x] *)
Definition add_filter (x : option Z) (c : Clause) (k : string)
           (st : list Clause * Params) : list Clause * Params :=
  if truthy_opt truthy_Z x
  then (fst st ++ [c], dict_set k (VInt (coalesce x 0)) (snd st))
  else st.

(** [{k: v for k, v in params.items() if k not in [...]}] *)
Definition without_keys {V} (ks : list string) (d : list (string * V))
  : list (string * V) :=
  filter (fun kv => negb (memb String.eqb (fst kv) ks)) d.

(** The first part of [browse_movies]: [where_clauses] and [params] after
    the three [if] statements. *)
Definition browse_where (genre_id year_min year_max : option Z) (lim off : Z)
  : list Clause * Params :=
  let where_clauses := [CAlways] in
  let params : Params := [("limit", VInt lim); ("offset", VInt off)]%string in
  let st := (where_clauses, params) in
  let st := add_filter genre_id CGenreEq "genre_id" st in
  let st := add_filter year_min CYearGe "year_min" st in
  let st := add_filter year_max CYearLe "year_max" st in
  st.

Definition browse_movies (genre_id year_min year_max : option Z)
           (rating_min : option Q) (lim off : Z)
  : DB -> Result BrowseResult * DB :=
  let st := browse_where genre_id year_min year_max lim off in
  let where_sql := fst st in
  let params := snd st in
  let '(sql, params) :=
    if truthy_opt truthy_Q rating_min
    then (browse_rated_sql where_sql,
          dict_set "rating_min" (VNum (coalesce rating_min 0%Q)) params)
    else (browse_plain_sql where_sql, params) in
  with_db_connection (
    result <- execute_select (sql params) ;;
    let movies := map browse_dict result in
    let count_params :=
      without_keys ["limit"; "offset"; "rating_min"]%string params in
    total_count <- execute_select (count_sql where_sql count_params) ;;
    ret (mkBrowseResult movies total_count)).

(* ================================================================== *)
(** * MOVIE DETAILS *)
(* ================================================================== *)

Record MovieDetails : Type := mkMovieDetails {
  md_movie_id : Z;
  md_title : string;
  md_year : option Z;
  md_summary : option string;
  md_avg_rating : Q;
  md_rating_count : Z;
  md_genres : list (option string);
  md_imdb_id : option string;
  md_tmdb_id : option string;
  md_imdb_url : option string;
  md_tmdb_url : option string
}.

Definition DetailsKey : Type := MovieKey * option string * option string.

Definition details_key_eqb (a b : DetailsKey) : bool :=
  let '(k1, i1, t1) := a in
  let '(k2, i2, t2) := b in
  movie_key_eqb k1 k2 && option_eqb String.eqb i1 i2
  && option_eqb String.eqb t1 t2.

Definition opt_bind {A B} (o : option A) (f : A -> option B) : option B :=
  match o with Some a => f a | None => None end.

(** The statement of [get_movie_details], for an identifier within the
    server's integer range. *)
Definition details_sql (movie_id : Z) (db : DB) : Result (list MovieDetails) :=
  let joined :=
    left_join (fun row l =>
                 m_movie_id (fst (fst (fst row))) =? l_movie_id l)
      (left_join (fun row r => on_rating_of (m_movie_id (fst (fst row))) r)
         (movies_with_genres db) (ratings db))
      (links db) in
  let m_of (row : Movie * option MovieGenre * option Genre * option Rating
                  * option Link) := fst (fst (fst (fst row))) in
  let kept := filter (fun row => m_movie_id (m_of row) =? movie_id) joined in
  let groups :=
    group_by details_key_eqb
      (fun row => (movie_key (m_of row),
                   opt_bind (snd row) l_imdb_id,
                   opt_bind (snd row) l_tmdb_id)) kept in
  OK (map (fun g =>
             let '(id, title, year, summary, imdb, tmdb) := fst g in
             mkMovieDetails id title year summary
               (group_avg (map (fun row => snd (fst row)) (snd g)))
               (group_count (map (fun row => snd (fst row)) (snd g)))
               (genre_names (map (fun row => snd (fst (fst row))) (snd g)))
               imdb tmdb None None)
          groups).

Definition get_movie_details (movie_id : Z)
  : DB -> Result (option MovieDetails) * DB :=
  with_db_connection (
    result <- execute_select (details_sql movie_id) ;;
    match fetchone result with
    | None => ret None
    | Some row =>
        ret (Some
          (mkMovieDetails (md_movie_id row) (md_title row) (md_year row)
             (md_summary row)
             (if truthy_Q (md_avg_rating row)
              then py_round 2 (md_avg_rating row) else 0%Q)
             (md_rating_count row)
             (py_genres (md_genres row))
             (md_imdb_id row) (md_tmdb_id row)
             (if truthy_opt truthy_string (md_imdb_id row)
              then option_map
                     (fun i => ("https://www.imdb.com/title/" ++ i ++ "/")%string)
                     (md_imdb_id row)
              else None)
             (if truthy_opt truthy_string (md_tmdb_id row)
              then option_map
                     (fun i => ("https://www.themoviedb.org/movie/" ++ i)%string)
                     (md_tmdb_id row)
              else None)))
    end).

(* ================================================================== *)
(** * RATINGS *)
(* ================================================================== *)

Inductive Action : Type :=
| created
| updated.

Record RatingResult : Type := mkRatingResult {
  rr_success : bool;
  rr_action : Action;
  rr_rating_id : Z;
  rr_user_id : Z;
  rr_movie_id : Z;
  rr_rating : Q;
  rr_rated_at : option Timestamp
}.

(** [WHERE user_id = :user_id AND movie_id = :movie_id] *)
Definition rating_of (user_id movie_id : Z) (r : Rating) : bool :=
  (r_user_id r =? user_id) && (r_movie_id r =? movie_id).

(** [RETURNING rating_id, rating, rated_at] *)
Definition Returned : Type := Z * Q * option Timestamp.

Definition returning (r : Rating) : Returned :=
  (r_rating_id r, r_rating r, r_rated_at r).

(** [SELECT rating_id FROM ratings WHERE ...] *)
Definition check_sql (user_id movie_id : Z) (db : DB) : Result (list Z) :=
  OK (map r_rating_id (filter (rating_of user_id movie_id) (ratings db))).

Definition set_ratings (db : DB) (rs : list Rating) (seq : Z) : DB :=
  mkDB (movies db) (genres db) (movie_genres db) rs (users db) (links db) seq.

(** [UPDATE ratings SET rating = :rating, rated_at = CURRENT_TIMESTAMP
    WHERE ... RETURNING ...] *)
Definition set_clause (now : Timestamp) (user_id movie_id : Z) (rating : Q)
           (r : Rating) : Rating :=
  if rating_of user_id movie_id r
  then mkRating (r_rating_id r) (r_user_id r) (r_movie_id r) rating (Some now)
  else r.

Definition update_sql (now : Timestamp) (user_id movie_id : Z) (rating : Q)
           (db : DB) : Result (list Returned * DB) :=
  let rs := map (set_clause now user_id movie_id rating) (ratings db) in
  OK (map returning (filter (rating_of user_id movie_id) rs),
      set_ratings db rs (rating_id_seq db)).

(** [INSERT INTO ratings (user_id, movie_id, rating, rated_at)
    VALUES (...) RETURNING ...]: the identifier comes from the sequence. *)
Definition insert_sql (now : Timestamp) (user_id movie_id : Z) (rating : Q)
           (db : DB) : Result (list Returned * DB) :=
  let r := mkRating (rating_id_seq db) user_id movie_id rating (Some now) in
  OK ([returning r],
      set_ratings db (ratings db ++ [r]) (rating_id_seq db + 1)).

(** [now] is the server's CURRENT_TIMESTAMP for the call. *)
Definition add_rating (now : Timestamp) (user_id movie_id : Z) (rating : Q)
  : DB -> Result RatingResult * DB :=
  with_db_connection (
    existing <- execute_select (check_sql user_id movie_id) ;;
    ra <- match fetchone existing with
          | Some _ =>
              result <- execute_dml (update_sql now user_id movie_id rating) ;;
              commit ;;;
              ret (fetchone result, updated)
          | None =>
              result <- execute_dml (insert_sql now user_id movie_id rating) ;;
              commit ;;;
              ret (fetchone result, created)
          end ;;
    row <- lift (attr_of (fst ra)) ;;
    let '(rating_id, rating', rated_at) := row in
    ret (mkRatingResult true (snd ra) rating_id user_id movie_id rating'
           rated_at)).

(* ================================================================== *)
(** * ANALYTICS *)
(* ================================================================== *)

Record TopMovie : Type := mkTopMovie {
  tm_title : string;
  tm_year : option Z;
  tm_avg_rating : Q;
  tm_rating_count : Z
}.

Record GenreCount : Type := mkGenreCount {
  gc_genre : string;
  gc_count : Z
}.

Record YearStat : Type := mkYearStat {
  ys_year : Z;
  ys_count : Z;
  ys_avg_rating : Q
}.

Record GenreRating : Type := mkGenreRating {
  gr_genre : string;
  gr_avg_rating : Q;
  gr_rating_count : Z
}.

Record DecadeCount : Type := mkDecadeCount {
  dc_decade : string;
  dc_count : Z
}.

(** The values stored in the dict [analytics]. *)
Inductive AnalyticsRows : Type :=
| TopMovies (l : list TopMovie)
| GenreDistribution (l : list GenreCount)
| RatingsByYear (l : list YearStat)
| AvgRatingByGenre (l : list GenreRating)
| MoviesByDecade (l : list DecadeCount).

Definition Analytics := list (string * AnalyticsRows).

(** [float(x)] on a nullable numeric. *)
Definition py_float (x : option Q) : Result Q :=
  match x with
  | Some q => OK q
  | None => Raise FloatOfNone
  end.

Fixpoint mapM {A B} (f : A -> Result B) (l : list A) : Result (list B) :=
  match l with
  | [] => OK []
  | a :: l' =>
      rbind (f a) (fun b => rbind (mapM f l') (fun bs => OK (b :: bs)))
  end.

(** [ROUND(AVG(x)::numeric, 2)] *)
Definition round_avg (l : list Q) : option Q :=
  option_map (round_numeric 2) (avg l).

(** Descending order on nullable numbers: NULLs first. *)
Definition opt_Q_geb (a b : option Q) : bool := opt_Q_leb b a.

Definition Key3 : Type := Z * string * option Z.

Definition key3_eqb (a b : Key3) : bool :=
  let '(i1, t1, y1) := a in
  let '(i2, t2, y2) := b in
  (i1 =? i2) && String.eqb t1 t2 && option_eqb Z.eqb y1 y2.

(** A row of [top_movies_sql]; [tr_order] is the ORDER BY expression. *)
Record TopRow : Type := mkTopRow {
  tr_title : string;
  tr_year : option Z;
  tr_avg_rating : option Q;
  tr_rating_count : Z;
  tr_order : option Q
}.

Definition top_movies_sql (db : DB) : Result (list TopRow) :=
  let joined :=
    inner_join (fun m r => m_movie_id m =? r_movie_id r)
      (movies db) (ratings db) in
  let groups :=
    group_by key3_eqb
      (fun row => (m_movie_id (fst row), m_title (fst row), m_year (fst row)))
      joined in
  let having :=
    filter (fun g => 50 <=? count (map (fun row => r_rating_id (snd row)) (snd g)))
           groups in
  let rows :=
    map (fun g =>
           let '(_, title, year) := fst g in
           let rs := map (fun row => r_rating (snd row)) (snd g) in
           mkTopRow title year (round_avg rs)
             (count (map (fun row => r_rating_id (snd row)) (snd g)))
             (avg rs))
        having in
  limit 10 (order_by (fun a b => opt_Q_geb (tr_order a) (tr_order b)) rows).

Definition GenreKey : Type := Z * string.

Definition genre_key_eqb (a b : GenreKey) : bool :=
  (fst a =? fst b) && String.eqb (snd a) (snd b).

Definition genre_key (g : Genre) : GenreKey := (g_genre_id g, g_genre_name g).

Definition genres_with_movies (db : DB) : list (Genre * MovieGenre) :=
  inner_join (fun g mg => g_genre_id g =? mg_genre_id mg)
    (genres db) (movie_genres db).

Definition genre_dist_sql (db : DB) : Result (list GenreCount) :=
  let groups :=
    group_by genre_key_eqb (fun row => genre_key (fst row))
      (genres_with_movies db) in
  let rows :=
    map (fun g =>
           mkGenreCount (snd (fst g))
             (count (distinct Z.eqb
                       (map (fun row => mg_movie_id (snd row)) (snd g)))))
        groups in
  OK (order_by (fun a b => gc_count b <=? gc_count a) rows).

(** A row of [ratings_time_sql]. *)
Record YearRow : Type := mkYearRow {
  yr_year : Z;
  yr_rating_count : Z;
  yr_avg_rating : option Q
}.

Definition ratings_time_sql (db : DB) : Result (list YearRow) :=
  let dated :=
    flat_map (fun r =>
                match r_rated_at r with
                | Some t => [(ts_year t, r)]
                | None => []
                end) (ratings db) in
  let groups := group_by Z.eqb fst dated in
  let rows :=
    map (fun g =>
           mkYearRow (fst g) (count (snd g))
             (round_avg (map (fun row => r_rating (snd row)) (snd g))))
        groups in
  OK (order_by (fun a b => yr_year a <=? yr_year b) rows).

(** A row of [genre_ratings_sql]. *)
Record GenreRatingRow : Type := mkGenreRatingRow {
  grr_genre_name : string;
  grr_avg_rating : option Q;
  grr_rating_count : Z
}.

Definition genre_ratings_sql (db : DB) : Result (list GenreRatingRow) :=
  let joined :=
    inner_join (fun row r => mg_movie_id (snd row) =? r_movie_id r)
      (genres_with_movies db) (ratings db) in
  let groups :=
    group_by genre_key_eqb (fun row => genre_key (fst (fst row))) joined in
  let rows :=
    map (fun g =>
           mkGenreRatingRow (snd (fst g))
             (round_avg (map (fun row => r_rating (snd row)) (snd g)))
             (count (map (fun row => r_rating_id (snd row)) (snd g))))
        groups in
  OK (order_by (fun a b => opt_Q_geb (grr_avg_rating a) (grr_avg_rating b))
        rows).

(** [(year / 10) * 10] on integers: the division truncates. *)
Definition decade_of (year : Z) : Z := Z.quot year 10 * 10.

Definition decade_sql (db : DB) : Result (list (Z * Z)) :=
  let years := non_null (map m_year (movies db)) in
  let groups := group_by Z.eqb decade_of years in
  let rows := map (fun g => (fst g, count (snd g))) groups in
  OK (order_by (fun a b => fst a <=? fst b) rows).

(** [f"{n}"] on an integer. *)
Definition str_Z (n : Z) : string := NilZero.string_of_int (Z.to_int n).

Definition get_analytics_data : DB -> Result Analytics * DB :=
  let analytics : Analytics := [] in
  fun db =>
  with_db_connection (
    result <- execute_select top_movies_sql ;;
    top <- lift (mapM (fun row =>
                   rbind (py_float (tr_avg_rating row)) (fun a =>
                     OK (mkTopMovie (tr_title row) (tr_year row) a
                           (tr_rating_count row)))) result) ;;
    let analytics := dict_set "top_movies" (TopMovies top) analytics in
    result <- execute_select genre_dist_sql ;;
    let analytics :=
      dict_set "genre_distribution"
        (GenreDistribution
           (map (fun row => mkGenreCount (gc_genre row) (gc_count row)) result))
        analytics in
    result <- execute_select ratings_time_sql ;;
    by_year <- lift (mapM (fun row =>
                   rbind (py_float (yr_avg_rating row)) (fun a =>
                     OK (mkYearStat (yr_year row) (yr_rating_count row) a)))
                 result) ;;
    let analytics := dict_set "ratings_by_year" (RatingsByYear by_year) analytics in
    result <- execute_select genre_ratings_sql ;;
    by_genre <- lift (mapM (fun row =>
                   rbind (py_float (grr_avg_rating row)) (fun a =>
                     OK (mkGenreRating (grr_genre_name row) a
                           (grr_rating_count row)))) result) ;;
    let analytics :=
      dict_set "avg_rating_by_genre" (AvgRatingByGenre by_genre) analytics in
    result <- execute_select decade_sql ;;
    let analytics :=
      dict_set "movies_by_decade"
        (MoviesByDecade
           (map (fun row => mkDecadeCount (str_Z (fst row) ++ "s")%string
                              (snd row)) result))
        analytics in
    ret analytics) db.

(* ================================================================== *)
(** * Configuration ([app/utils/database.py]) *)
(* ================================================================== *)

(** [os.environ] *)
Definition Environ := list (string * string).

(** [os.environ.get(k, default)] *)
Definition environ_get (env : Environ) (k default : string) : string :=
  coalesce (dict_get k env) default.

Definition PROJECT_ID (env : Environ) : string := environ_get env "PROJECT_ID" "".
Definition DB_USER (env : Environ) : string := environ_get env "DB_USER" "".

(** [all(required)] *)
Definition is_configured (env : Environ) : bool :=
  let required := [PROJECT_ID env; DB_USER env] in
  forallb truthy_string required.

(* ================================================================== *)
(** * The pages: which data-access functions a run of a page calls *)
(* ================================================================== *)

Inductive Call : Type :=
| call_test_connection
| call_get_stats
| call_get_genres
| call_browse_movies (genre_id year_min year_max : option Z)
                     (rating_min : option Q) (lim off : Z)
| call_search_movies_semantic (query : string) (lim : Z)
| call_search_movies_keyword (query : string) (lim : Z)
| call_get_movie_details (movie_id : Z)
| call_add_rating (user_id movie_id : Z) (rating : Q)
| call_get_analytics_data.

(** What a run of a page did: the calls in order, and the database after. *)
Definition Run : Type := list Call * DB.

Definition result_of {A} (r : Result A) : option A :=
  match r with OK a => Some a | Raise _ => None end.

Section Pages.
Variable embedding : string -> string -> Vector.
Variable cosine_distance : Vector -> Vector -> Number.
Variable env : Environ.

(** [Home.py]: the sidebar offers the connection test only when
    configured; the statistics block is a bare [try]. *)
Definition page_home (test_clicked : bool) (db : DB) : Run :=
  let sidebar :=
    if is_configured env
    then if test_clicked then [call_test_connection] else []
    else [] in
  let '(_, db) := get_stats db in
  (sidebar ++ [call_get_stats], db).

(** The search box logic shared by the Discover and Search pages. *)
Definition search_query_of (stored : option string) (query : string)
           (search_clicked : bool) (last_query : string) : option string :=
  if truthy_opt truthy_string stored then stored
  else if truthy_string query
          && (search_clicked || negb (String.eqb query last_query))
       then Some query
       else None.

(** [pages/1_Discover.py] *)
Definition page_discover (example_search : option string) (query : string)
           (search_clicked : bool) (last_query : string) (db : DB) : Run :=
  let search_query :=
    search_query_of example_search query search_clicked last_query in
  if truthy_opt truthy_string search_query then
    if negb (is_configured env) then ([], db)
    else
      let q := coalesce search_query ""%string in
      let '(_, db) :=
        search_movies_semantic embedding cosine_distance q 12 db in
      ([call_search_movies_semantic q 12], db)
  else ([], db).

(** [pages/3_Search.py] *)
Definition page_search (quick_search : option string) (query : string)
           (search_clicked : bool) (last_query : string) (db : DB) : Run :=
  let search_query :=
    search_query_of quick_search query search_clicked last_query in
  if truthy_opt truthy_string search_query then
    if negb (is_configured env) then ([], db)
    else
      let q := coalesce search_query ""%string in
      let '(_, db) := search_movies_keyword q 20 db in
      ([call_search_movies_keyword q 20], db)
  else ([], db).

(** [pages/2_Browse.py]: the sidebar loads the genres before the
    configuration is looked at; a click on "Clear Filters" ends the run
    there ([st.rerun()]), before the movies are asked for. *)
Definition genre_options (gs : list Genre) : list (string * option Z) :=
  fold_left (fun d g => dict_set (g_genre_name g) (Some (g_genre_id g)) d)
            gs [("All Genres"%string, None)].

Definition page_browse (clear_filters_clicked : bool)
           (selected_genre_name : string) (year_range : Z * Z)
           (rating_slider : Q) (results_per_page page : Z) (db : DB) : Run :=
  let '(r, db) := get_genres db in
  let selected_genre_id :=
    match result_of r with
    | Some gs => coalesce (dict_get selected_genre_name (genre_options gs)) None
    | None => None
    end in
  let '(year_min, year_max) := year_range in
  let rating_min :=
    if Qeq_bool rating_slider 0 then None else Some rating_slider in
  if clear_filters_clicked then ([call_get_genres], db)
  else if negb (is_configured env) then ([call_get_genres], db)
  else
    let off := page * results_per_page in
    let '(_, db) :=
      browse_movies selected_genre_id (Some year_min) (Some year_max)
        rating_min results_per_page off db in
    ([call_get_genres;
      call_browse_movies selected_genre_id (Some year_min) (Some year_max)
        rating_min results_per_page off], db).

(** [pages/4_Analytics.py] *)
Definition page_analytics (db : DB) : Run :=
  if negb (is_configured env) then ([], db)
  else
    let '(_, db) := get_analytics_data db in
    ([call_get_analytics_data], db).

(** [pages/5_Movie.py] *)
Definition page_movie (now : Timestamp) (selected_movie_id : option Z)
           (submitted : bool) (user_id : Z) (rating : Q) (db : DB) : Run :=
  if negb (truthy_opt truthy_Z selected_movie_id) then ([], db)
  else if negb (is_configured env) then ([], db)
  else
    let movie_id := coalesce selected_movie_id 0 in
    let '(r, db) := get_movie_details movie_id db in
    match result_of r with
    | Some (Some _) =>
        if submitted then
          let '(_, db) := add_rating now user_id movie_id rating db in
          ([call_get_movie_details movie_id;
            call_add_rating user_id movie_id rating], db)
        else ([call_get_movie_details movie_id], db)
    | _ => ([call_get_movie_details movie_id], db)
    end.
End Pages.

(** The inputs of one page run. *)
Inductive Page : Type :=
| HomePage (test_clicked : bool)
| DiscoverPage (example_search : option string) (query : string)
           (search_clicked : bool) (last_query : string)
| BrowsePage (clear_filters_clicked : bool)
         (selected_genre_name : string) (year_range : Z * Z)
         (rating_slider : Q) (results_per_page page : Z)
| SearchPage (quick_search : option string) (query : string)
         (search_clicked : bool) (last_query : string)
| AnalyticsPage
| MoviePage (now : Timestamp) (selected_movie_id : option Z)
            (submitted : bool) (user_id : Z) (rating : Q).

Definition run_page (embedding : string -> string -> Vector)
           (cosine_distance : Vector -> Vector -> Number)
           (env : Environ) (pg : Page) (db : DB) : Run :=
  match pg with
  | HomePage t => page_home env t db
  | DiscoverPage e q c l => page_discover embedding cosine_distance env e q c l db
  | BrowsePage c g y r n p => page_browse env c g y r n p db
  | SearchPage s q c l => page_search env s q c l db
  | AnalyticsPage => page_analytics env db
  | MoviePage now m s u r => page_movie env now m s u r db
  end.

(* ================================================================== *)
(** * More of [app/utils/database.py] *)
(* ================================================================== *)

Definition REGION (env : Environ) : string :=
  environ_get env "REGION" "us-central1".
Definition CLUSTER_ID (env : Environ) : string :=
  environ_get env "CLUSTER_ID" "cymbalflix-cluster".
Definition INSTANCE_ID (env : Environ) : string :=
  environ_get env "INSTANCE_ID" "cymbalflix-primary".
Definition DB_NAME (env : Environ) : string :=
  environ_get env "DB_NAME" "cymbalflix".

(** The instance URI is still the empty placeholder in this version of the
    file. *)
Definition INSTANCE_URI : string := "".

(** The values of the dict [get_config_status] returns. *)
Inductive ConfigValue : Type :=
| CStr (s : string)
| CBool (b : bool).

(** [s[:n]] *)
Definition py_prefix (n : nat) (s : string) : string := substring 0 n s.

(** [DB_USER[:20] + "..." if DB_USER and len(DB_USER) > 20
     else DB_USER if DB_USER else "(not set)"] *)
Definition masked_user (u : string) : string :=
  if truthy_string u && Nat.ltb 20 (String.length u)
  then (py_prefix 20 u ++ "...")%string
  else if truthy_string u then u else "(not set)"%string.

Definition get_config_status (env : Environ) : list (string * ConfigValue) :=
  [("project_id",
    CStr (if truthy_string (PROJECT_ID env) then PROJECT_ID env
          else "(not set)"));
   ("region", CStr (REGION env));
   ("cluster_id", CStr (CLUSTER_ID env));
   ("instance_id", CStr (INSTANCE_ID env));
   ("db_name", CStr (DB_NAME env));
   ("db_user", CStr (masked_user (DB_USER env)));
   ("instance_uri",
    CStr (if truthy_string (PROJECT_ID env) then INSTANCE_URI
          else "(incomplete)"));
   ("is_configured", CBool (is_configured env))]%string.

(** [value == "(not set)"] in Python: a bool never equals a string. *)
Definition is_not_set (v : ConfigValue) : bool :=
  match v with
  | CStr s => String.eqb s "(not set)"
  | CBool _ => false
  end.

(** [Home.py], the "Missing Configuration" expander: the keys listed. *)
Definition missing_configuration (config : list (string * ConfigValue))
  : list string :=
  map fst (filter (fun kv => is_not_set (snd kv)) config).

(** ** The connector and the engine: module-level singletons *)

(** A connector or an engine, known by the order of its creation. *)
Definition Handle := nat.

Record Runtime : Type := mkRuntime {
  connector : option Handle;        (* the global [connector] *)
  engine : option Handle;           (* the global [engine] *)
  next_handle : Handle;             (* what the next constructor returns *)
  closed_connectors : list Handle;  (* [connector.close()] was called *)
  disposed_engines : list Handle    (* [engine.dispose()] was called *)
}.

Definition get_connector (rt : Runtime) : Handle * Runtime :=
  match connector rt with
  | None =>
      let h := next_handle rt in
      (h, mkRuntime (Some h) (engine rt) (S h)
            (closed_connectors rt) (disposed_engines rt))
  | Some h => (h, rt)
  end.

(** [create_engine] only records [getconn] as the creator: no connection
    is opened, and no connector made, until the pool needs one. *)
Definition get_engine (rt : Runtime) : Handle * Runtime :=
  match engine rt with
  | None =>
      let h := next_handle rt in
      (h, mkRuntime (connector rt) (Some h) (S h)
            (closed_connectors rt) (disposed_engines rt))
  | Some h => (h, rt)
  end.

Definition cleanup (rt : Runtime) : Runtime :=
  let rt :=
    match engine rt with
    | Some e =>
        mkRuntime (connector rt) None (next_handle rt)
          (closed_connectors rt) (e :: disposed_engines rt)
    | None => rt
    end in
  match connector rt with
  | Some c =>
      mkRuntime None (engine rt) (next_handle rt)
        (c :: closed_connectors rt) (disposed_engines rt)
  | None => rt
  end.

(* ================================================================== *)
(** * More of the pages *)
(* ================================================================== *)

(** ** [pages/2_Browse.py]: pagination *)

(** [(total_count + results_per_page - 1) // results_per_page] *)
Definition total_pages (total_count results_per_page : Z) : Z :=
  (total_count + results_per_page - 1) / results_per_page.

(** [st.session_state.page * results_per_page] *)
Definition page_offset (page results_per_page : Z) : Z :=
  page * results_per_page.

(** "Showing {offset + 1}-{min(offset + results_per_page, total_count)}" *)
Definition showing (offset results_per_page total_count : Z) : Z * Z :=
  (offset + 1, Z.min (offset + results_per_page) total_count).

(** The pagination controls sit in the [else] of [if not movies:]; there,
    [if st.session_state.page > 0:] offers the Previous button. *)
Definition shows_previous {A} (movies : list A) (page : Z) : bool :=
  match movies with
  | [] => false
  | _ => 0 <? page
  end.

(** [if st.session_state.page < total_pages - 1:] the Next button, in the
    same [else]. *)
Definition shows_next {A} (movies : list A)
           (page total_count results_per_page : Z) : bool :=
  match movies with
  | [] => false
  | _ => page <? total_pages total_count results_per_page - 1
  end.

(** ** [pages/4_Analytics.py]: the reference line *)

(** [sum(g["avg_rating"] * g["rating_count"] for g in genre_ratings)
     / sum(g["rating_count"] for g in genre_ratings)];
    [None] stands for Python's ZeroDivisionError. *)
Definition overall_avg (genre_ratings : list GenreRating) : option Q :=
  let weighted :=
    qsum (map (fun g => (gr_avg_rating g * inject_Z (gr_rating_count g))%Q)
              genre_ratings) in
  let ratings := fold_right Z.add 0 (map gr_rating_count genre_ratings) in
  if ratings =? 0 then None else Some (weighted / inject_Z ratings)%Q.

(** ** [pages/1_Discover.py]: the similarity badge *)





(* ================================================================== *)
(** * Notions used in the statements *)
(* ================================================================== *)

(** The relation a sort test stands for. *)
Definition comes_no_later {A} (leb : A -> A -> bool) (x y : A) : Prop :=
  leb x y = true.

(** A block that runs no INSERT/UPDATE and no commit leaves the connection
    as it found it. *)
Definition read_only {A} (m : M A) : Prop := forall c, snd (m c) = c.


(** The tables the application only reads. *)
Definition same_catalog (db db' : DB) : Prop :=
  movies db' = movies db /\ genres db' = genres db
  /\ movie_genres db' = movie_genres db /\ users db' = users db
  /\ links db' = links db.

(** What identifies a rating row: its key and the pair it is about. *)
Definition rating_identity (r : Rating) : Z * Z * Z :=
  (r_rating_id r, r_user_id r, r_movie_id r).

(** Every rating row is still there, in place; at most [n] rows were
    appended. *)
Definition ratings_kept (n : nat) (db db' : DB) : Prop :=
  exists added,
    map rating_identity (ratings db') =
    map rating_identity (ratings db) ++ added
    /\ (List.length added <= n)%nat.

(** The row [add_rating] inserts. *)
Definition inserted_row (now : Timestamp) (user_id movie_id : Z) (rating : Q)
           (db : DB) : Rating :=
  mkRating (rating_id_seq db) user_id movie_id rating (Some now).





(** The movie is tagged with the genre: [movie_genres] holds the pair. *)
Definition tagged (db : DB) (movie_id genre_id : Z) : bool :=
  existsb (fun mg => (mg_movie_id mg =? movie_id) && (mg_genre_id mg =? genre_id))
          (movie_genres db).

(** The three stored-column filters of the Browse page, read as the page
    describes them; a filter that is [None] or 0 is not set. *)
Definition genre_ok (db : DB) (genre_id : option Z) (movie_id : Z) : bool :=
  match genre_id with
  | Some g => if truthy_Z g then tagged db movie_id g else true
  | None => true
  end.

Definition year_min_ok (year_min : option Z) (year : option Z) : bool :=
  match year_min with
  | Some lo =>
      if truthy_Z lo
      then match year with Some y => lo <=? y | None => false end
      else true
  | None => true
  end.

Definition year_max_ok (year_max : option Z) (year : option Z) : bool :=
  match year_max with
  | Some hi =>
      if truthy_Z hi
      then match year with Some y => y <=? hi | None => false end
      else true
  | None => true
  end.

Definition genre_year_ok (db : DB) (genre_id year_min year_max : option Z)
           (m : Movie) : bool :=
  genre_ok db genre_id (m_movie_id m)
  && year_min_ok year_min (m_year m)
  && year_max_ok year_max (m_year m).

(** The number of movies that pass the genre and year filters. *)
Definition count_genre_year (db : DB) (genre_id year_min year_max : option Z)
  : Z :=
  count (distinct Z.eqb
           (map m_movie_id
              (filter (genre_year_ok db genre_id year_min year_max)
                      (movies db)))).

(** A movie's average rating, 0 when it has none. *)
Definition movie_avg (db : DB) (m : Movie) : Q :=
  coalesce
    (avg (map r_rating
            (filter (fun r => r_movie_id r =? m_movie_id m) (ratings db))))
    0%Q.

Definition rating_ok (db : DB) (rating_min : option Q) (m : Movie) : bool :=
  match rating_min with
  | Some q => if truthy_Q q then Qle_bool q (movie_avg db m) else true
  | None => true
  end.

(** The number of movies that pass every filter, the rating floor too. *)
Definition count_all_filters (db : DB) (genre_id year_min year_max : option Z)
           (rating_min : option Q) : Z :=
  count (distinct Z.eqb
           (map m_movie_id
              (filter (fun m => genre_year_ok db genre_id year_min year_max m
                                && rating_ok db rating_min m)
                      (movies db)))).

(** No two rows tie in the sort key of the browse statements, the pair
    of average and count. *)
Fixpoint no_ties (rows : list BrowseMovie) : bool :=
  match rows with
  | [] => true
  | a :: l =>
      forallb (fun b => negb (Qeq_bool (bm_avg_rating a) (bm_avg_rating b)
                              && (bm_rating_count a =? bm_rating_count b))) l
      && no_ties l
  end.

(** The resolved WHERE clauses of a call of [browse_movies]. *)
Definition browse_bounds (genre_id year_min year_max : option Z) : list Bound :=
  [BAlways]
  ++ (if truthy_opt truthy_Z genre_id
      then [BGenreEq (inject_Z (coalesce genre_id 0))] else [])
  ++ (if truthy_opt truthy_Z year_min
      then [BYearGe (inject_Z (coalesce year_min 0))] else [])
  ++ (if truthy_opt truthy_Z year_max
      then [BYearLe (inject_Z (coalesce year_max 0))] else []).

(** The rows the main statement of a call selects, before ORDER BY and
    LIMIT. *)
Definition browse_rows (genre_id year_min year_max : option Z)
           (rating_min : option Q) (db : DB) : list BrowseMovie :=
  if truthy_opt truthy_Q rating_min
  then browse_rated_rows (browse_bounds genre_id year_min year_max)
         (coalesce rating_min 0%Q) db
  else browse_plain_rows (browse_bounds genre_id year_min year_max) db.

(** Sample data: a genre with the identifier 0, one film tagged with it
    (and rated, so that the two films do not tie) and one with no genre. *)
Definition genre_zero_db : DB :=
  mkDB [mkMovie 1 "Heat"%string (Some 1995) None None;
        mkMovie 2 "Alien"%string (Some 1979) None None]
       [mkGenre 0 "Misc"%string]
       [mkMovieGenre 1 0]
       [mkRating 1 7 1 (4 # 1) None]
       [mkUser 7] [] 2.

(** Sample data: a genre whose name is the empty text, and a film tagged
    with it. *)
Definition unnamed_genre_db : DB :=
  mkDB [mkMovie 1 "Heat"%string (Some 1995) None None]
       [mkGenre 5 ""%string]
       [mkMovieGenre 1 5]
       [] [] [] 1.

(** Sample data: one film nobody has rated. *)
Definition unrated_db : DB :=
  mkDB [mkMovie 1 "Heat"%string (Some 1995) None None] [] [] [] [] [] 1.

(** Sample data: three films, two genres, three ratings. *)
Definition sample_db : DB :=
  mkDB [mkMovie 1 "Heat"%string (Some 1995) (Some "A crew of thieves"%string) None;
        mkMovie 2 "Alien"%string (Some 1979) (Some "A ship, a creature"%string) None;
        mkMovie 3 "Clue"%string (Some 1985) None None]
       [mkGenre 1 "Crime"%string; mkGenre 2 "Horror"%string]
       [mkMovieGenre 1 1; mkMovieGenre 2 2; mkMovieGenre 3 1]
       [mkRating 1 7 1 (9 # 2) None; mkRating 2 8 1 (7 # 2) None;
        mkRating 3 7 2 (5 # 1) None]
       [mkUser 7; mkUser 8] [] 4.

(** The genre filter on one row of [movies LEFT JOIN movie_genres]. *)
Definition genre_row_ok (genre_id : option Z) (mg : option MovieGenre) : bool :=
  match genre_id with
  | Some g =>
      if truthy_Z g
      then match mg with Some x => mg_genre_id x =? g | None => false end
      else true
  | None => true
  end.

(** A returned row stems from a row of [movies LEFT JOIN movie_genres]
    that passed the WHERE clause. *)
Definition from_kept_row (bs : list Bound) (db : DB) (id : Z) (year : option Z)
  : Prop :=
  exists m omg,
    In (m, omg) (left_join on_movie_genre (movies db) (movie_genres db))
    /\ where_ok bs m omg = true
    /\ id = m_movie_id m /\ year = m_year m.


(** Text of ASCII characters other than NUL.  The server refuses NUL in
    a text, and it folds the case of letters beyond ASCII, which the
    byte-wise folding here does not follow. *)
Definition ascii_char (c : ascii) : bool :=
  Nat.ltb 0 (nat_of_ascii c) && Nat.ltb (nat_of_ascii c) 128.

Fixpoint ascii_text (s : string) : bool :=
  match s with
  | EmptyString => true
  | String c s' => ascii_char c && ascii_text s'
  end.

(** Every title and summary of the table is such text. *)
Definition ascii_catalog (db : DB) : bool :=
  forallb (fun m => ascii_text (m_title m)
                    && match m_summary m with
                       | Some s => ascii_text s
                       | None => true
                       end) (movies db).

(** A text without NUL. *)
Fixpoint no_nul (s : string) : bool :=
  match s with
  | EmptyString => true
  | String c s' => negb (Nat.eqb (nat_of_ascii c) 0) && no_nul s'
  end.

(** The integer fits a 32-bit column or parameter, the narrowest integer
    type the server can have for an identifier, a year or a bound. *)
Definition fits_int4 (z : Z) : Prop := - 2 ^ 31 <= z < 2 ^ 31.

Definition opt_fits_int4 (o : option Z) : Prop :=
  match o with
  | Some z => fits_int4 z
  | None => True
  end.

(** A query with none of the characters LIKE reads specially. *)
Definition plain_char (c : ascii) : bool :=
  negb (Ascii.eqb c backslash || Ascii.eqb c percent || Ascii.eqb c underscore).

Fixpoint plain_query (q : string) : bool :=
  match q with
  | EmptyString => true
  | String c q' => plain_char c && plain_query q'
  end.

(** The pattern that stands for a text taken literally. *)
Fixpoint literal_toks (q : string) : list Tok :=
  match q with
  | EmptyString => []
  | String c q' => TLit c :: literal_toks q'
  end.

(** The query occurs in the title, or in the summary, whatever the case
    of the letters. *)
Definition mentions (q : string) (m : KeywordMovie) : bool :=
  contains_ci q (km_title m)
  || match km_summary m with
     | Some s => contains_ci q s
     | None => false
     end.

(** The two kinds of hit the ranking tells apart. *)
Definition exact_title (q : string) (m : KeywordMovie) : Prop :=
  km_title m = q.

Definition summary_only (q : string) (m : KeywordMovie) : Prop :=
  contains_ci q (km_title m) = false
  /\ exists s, km_summary m = Some s /\ contains_ci q s = true.

(** [a] stands before [b] in [l]. *)
Definition precedes {A} (a b : A) (l : list A) : Prop :=
  exists l1 l2 l3, l = l1 ++ a :: l2 ++ b :: l3.

(** Sample data: a title that an underscore in the query matches. *)
Definition underscore_db : DB :=
  mkDB [mkMovie 1 "abc"%string (Some 1990) (Some "nothing here"%string) None]
       [] [] [] [] [] 1.

(** Sample data: a title with a backslash in it. *)
Definition backslash_db : DB :=
  mkDB [mkMovie 1 "a\b"%string (Some 1995) (Some "ab"%string) None;
        mkMovie 2 "A"%string (Some 1990) (Some "ab a\b"%string) None]
       [] [] [] [] [] 1.

(** Sample data: a film called "Alien" and one that mentions an alien. *)
Definition keyword_db : DB :=
  mkDB [mkMovie 1 "Aaa"%string (Some 2001) (Some "An alien lands"%string) None;
        mkMovie 2 "Alien"%string (Some 1979) (Some "A ship, a creature"%string)
          None]
       [] [] [] [] [] 1.

Definition keyword_hit_title : KeywordMovie :=
  mkKeywordMovie 2 "Alien" (Some 1979) (Some "A ship, a creature"%string) [].

Definition keyword_hit_summary : KeywordMovie :=
  mkKeywordMovie 1 "Aaa" (Some 2001) (Some "An alien lands"%string) [].

(** The rows of the semantic statement are compared by their distance. *)
Definition by_distance (a b : SemanticRow) : Prop :=
  opt_number_leb (sr_distance a) (sr_distance b) = true.

(** The same value: the same number, or NaN both. *)
Definition number_eq (a b : Number) : Prop :=
  match a, b with
  | Num x, Num y => (x == y)%Q
  | NaN, NaN => True
  | _, _ => False
  end.

(** Python's [a <= b] on floats: false as soon as one side is NaN. *)
Definition py_leb (a b : Number) : bool :=
  match a, b with
  | Num x, Num y => Qle_bool x y
  | _, _ => false
  end.

(** A list of movies in non-increasing order of similarity, as Python
    compares the values: no later one exceeds, or fails to compare with, an
    earlier one. *)
Definition non_increasing_similarity (ms : list SemanticMovie) : Prop :=
  StronglySorted
    (fun a b => py_leb (sm_similarity b) (sm_similarity a) = true) ms.

(** [a] ranks no lower than [b] when NaN counts as the lowest similarity
    of all. *)
Definition no_lower (a b : Number) : Prop :=
  match a, b with
  | Num x, Num y => (y <= x)%Q
  | _, NaN => True
  | NaN, Num _ => False
  end.

(** Non-increasing similarity with the NaN entries last. *)
Definition non_increasing_nan_last (ms : list SemanticMovie) : Prop :=
  StronglySorted (fun a b => no_lower (sm_similarity a) (sm_similarity b)) ms.

(** Stand-ins for a run with a vector of zeros in the table.  The text is
    embedded as a unit vector; the distance is NaN as soon as one vector
    is all zeros and 0 between a vector and itself, as the server's
    operator gives; every other pair is put at distance 1 here. *)
Definition unit_embedding (model text : string) : Vector := [1%Q].

Definition is_zero_vector (v : Vector) : bool :=
  forallb (fun x => Qeq_bool x 0) v.

Definition nan_on_zero_distance (a b : Vector) : Number :=
  if is_zero_vector a || is_zero_vector b then NaN
  else if vector_eqb a b then Num 0
  else Num 1.

(** Sample data: a summary embedded as the unit vector, and one embedded
    as a vector of zeros. *)
Definition zero_vector_db : DB :=
  mkDB [mkMovie 1 "Heat"%string (Some 1995) (Some "A crew of thieves"%string)
          (Some [1%Q]);
        mkMovie 2 "Void"%string (Some 2001) (Some ""%string) (Some [0%Q])]
       [] [] [] [] [] 1.

(** A row of the semantic statement stands for a movie with an embedding:
    its distance is the cosine distance of that embedding to the query's,
    its similarity the complement of it rounded to three places. *)
Definition has_distance (cosine_distance : Vector -> Vector -> Number)
           (q : Vector) (db : DB) (row : SemanticRow) : Prop :=
  exists m v,
    In m (movies db) /\ m_summary_embedding m = Some v
    /\ sr_movie_id row = m_movie_id m
    /\ sr_distance row = Some (cosine_distance v q)
    /\ sr_similarity row = Some (similarity_of (cosine_distance v q)).

(** The ratings table has sound keys: no identifier twice, and every one
    below the next value of the sequence. *)
Definition keys_in_order (db : DB) : Prop :=
  NoDup (map r_rating_id (ratings db))
  /\ Forall (fun r => r_rating_id r < rating_id_seq db) (ratings db).

(** Nobody has two ratings for one movie. *)
Definition rating_pair (r : Rating) : Z * Z := (r_user_id r, r_movie_id r).

Definition one_rating_per_pair (db : DB) : Prop :=
  NoDup (map rating_pair (ratings db)).


Definition zsum (l : list Z) : Z := fold_right Z.add 0 l.

(** The loop bodies of [get_analytics_data] that call [float]. *)
Definition top_movie_dict (row : TopRow) : Result TopMovie :=
  rbind (py_float (tr_avg_rating row)) (fun a =>
    OK (mkTopMovie (tr_title row) (tr_year row) a (tr_rating_count row))).

Definition year_stat_dict (row : YearRow) : Result YearStat :=
  rbind (py_float (yr_avg_rating row)) (fun a =>
    OK (mkYearStat (yr_year row) (yr_rating_count row) a)).

Definition genre_rating_dict (row : GenreRatingRow) : Result GenreRating :=
  rbind (py_float (grr_avg_rating row)) (fun a =>
    OK (mkGenreRating (grr_genre_name row) a (grr_rating_count row))).

Definition decade_dict (row : Z * Z) : DecadeCount :=
  mkDecadeCount (str_Z (fst row) ++ "s")%string (snd row).

(** The ratings that carry a date, and the movies that carry a year. *)
Definition dated_ratings (db : DB) : list Rating :=
  filter (fun r => match r_rated_at r with Some _ => true | None => false end)
         (ratings db).

Definition dated_movies (db : DB) : list Movie :=
  filter (fun m => match m_year m with Some _ => true | None => false end)
         (movies db).

(** The test decides equality. *)
Definition decides_eq {K} (eqb : K -> K -> bool) : Prop :=
  forall a b, eqb a b = true <-> a = b.


(** The Browse page hands [browse_movies] this genre: none, or the
    identifier of a genre of the table that bears the selected name. *)
Definition selects_genre (db : DB) (name : string) (g : option Z) : Prop :=
  g = None
  \/ exists genre, In genre (genres db)
                   /\ g_genre_name genre = name
                   /\ g = Some (g_genre_id genre).

(** ** The five aggregations of the Analytics page, read off the tables *)

(** The mean of a list of values. *)
Definition mean (l : list Q) : Q :=
  (qsum l / inject_Z (Z.of_nat (List.length l)))%Q.

(** What tells one entry of the top list from another: the movie's
    identifier, title and year. *)
Definition key3_of (m : Movie) : Key3 := (m_movie_id m, m_title m, m_year m).

(** The ratings joined to the movies rows of a key: the ratings of the
    movie, taken once for every row of movies that has the key. *)
Definition ratings_joined (db : DB) (k : Key3) : list Rating :=
  flat_map (fun m =>
              if key3_eqb (key3_of m) k
              then filter (fun r => m_movie_id m =? r_movie_id r) (ratings db)
              else [])
           (movies db).

(** The entry of the top list that stands for a movie: its title and
    year, the number of its joined ratings and their mean rounded to two
    places. *)
Definition top_entry_of (db : DB) (m : Movie) (t : TopMovie) : Prop :=
  tm_title t = m_title m
  /\ tm_year t = m_year m
  /\ tm_rating_count t = count (ratings_joined db (key3_of m))
  /\ tm_avg_rating t
     = round_numeric 2 (mean (map r_rating (ratings_joined db (key3_of m)))).

(** The movies tagged with a genre, each once. *)
Definition movies_of_genre (db : DB) (genre_id : Z) : list Z :=
  distinct Z.eqb
    (map mg_movie_id
       (filter (fun mg => mg_genre_id mg =? genre_id) (movie_genres db))).

(** The entry of the genre distribution that stands for a genre. *)
Definition genre_count_of (db : DB) (g : Genre) (e : GenreCount) : Prop :=
  gc_genre e = g_genre_name g
  /\ gc_count e = count (movies_of_genre db (g_genre_id g)).

(** The ratings given in a year. *)
Definition ratings_in_year (db : DB) (y : Z) : list Rating :=
  filter (fun r => match r_rated_at r with
                   | Some t => ts_year t =? y
                   | None => false
                   end) (ratings db).

(** The entry of the yearly figures for its year: the number of ratings
    given in the year and their mean rounded to two places. *)
Definition year_entry (db : DB) (e : YearStat) : Prop :=
  ys_count e = count (ratings_in_year db (ys_year e))
  /\ ys_avg_rating e
     = round_numeric 2 (mean (map r_rating (ratings_in_year db (ys_year e)))).

(** The ratings joined to the genres rows of a key: for every row of
    genres with the key and every tag of that genre, the ratings of the
    tagged movie. *)
Definition genre_ratings_joined (db : DB) (k : GenreKey) : list Rating :=
  flat_map (fun g =>
              if genre_key_eqb (genre_key g) k
              then flat_map
                     (fun mg =>
                        if g_genre_id g =? mg_genre_id mg
                        then filter (fun r => mg_movie_id mg =? r_movie_id r)
                                    (ratings db)
                        else [])
                     (movie_genres db)
              else [])
           (genres db).

(** The entry of the per-genre averages that stands for a genre. *)
Definition genre_rating_of (db : DB) (g : Genre) (e : GenreRating) : Prop :=
  gr_genre e = g_genre_name g
  /\ gr_rating_count e = count (genre_ratings_joined db (genre_key g))
  /\ gr_avg_rating e
     = round_numeric 2
         (mean (map r_rating (genre_ratings_joined db (genre_key g)))).

(** The movies of a decade. *)
Definition movies_in_decade (db : DB) (d : Z) : list Movie :=
  filter (fun m => match m_year m with
                   | Some y => Z.quot y 10 * 10 =? d
                   | None => false
                   end) (movies db).

(** A row of the top statement for a movie. *)
Definition top_row_of (db : DB) (m : Movie) (row : TopRow) : Prop :=
  tr_title row = m_title m
  /\ tr_year row = m_year m
  /\ tr_rating_count row = count (ratings_joined db (key3_of m))
  /\ tr_avg_rating row
     = Some (round_numeric 2
               (mean (map r_rating (ratings_joined db (key3_of m)))))
  /\ tr_order row
     = Some (mean (map r_rating (ratings_joined db (key3_of m)))).

(** A row of the yearly statement for its year. *)
Definition year_row_of (db : DB) (row : YearRow) : Prop :=
  yr_rating_count row = count (ratings_in_year db (yr_year row))
  /\ yr_avg_rating row
     = Some (round_numeric 2
               (mean (map r_rating (ratings_in_year db (yr_year row))))).

(** A row of the per-genre statement for a genre. *)
Definition genre_row_of (db : DB) (g : Genre) (row : GenreRatingRow) : Prop :=
  grr_genre_name row = g_genre_name g
  /\ grr_rating_count row = count (genre_ratings_joined db (genre_key g))
  /\ grr_avg_rating row
     = Some (round_numeric 2
               (mean (map r_rating (genre_ratings_joined db (genre_key g))))).

(** What the five result sets are. *)

(** The top list: at most ten entries in non-increasing order of the
    average; every entry stands for a movie with at least 50 joined
    ratings; and a movie with at least 50 is listed, unless ten movies
    are listed whose averages are all at least its own. *)
Definition top_movies_spec (db : DB) (top : list TopMovie) : Prop :=
  Forall (fun t => 50 <= tm_rating_count t
                   /\ exists m, In m (movies db) /\ top_entry_of db m t) top
  /\ (List.length top <= 10)%nat
  /\ StronglySorted (fun a b => (tm_avg_rating b <= tm_avg_rating a)%Q) top
  /\ (forall m, In m (movies db) ->
        50 <= count (ratings_joined db (key3_of m)) ->
        (exists t, In t top /\ top_entry_of db m t)
        \/ (List.length top = 10%nat
            /\ Forall (fun t =>
                         (round_numeric 2
                            (mean (map r_rating
                                     (ratings_joined db (key3_of m))))
                          <= tm_avg_rating t)%Q) top)).

(** The genre distribution: every entry stands for a genre of the table,
    every genre with a tagged movie has its entry, and the entries come in
    non-increasing order of the count. *)
Definition genre_distribution_spec (db : DB) (dist : list GenreCount) : Prop :=
  Forall (fun e => exists g, In g (genres db) /\ genre_count_of db g e) dist
  /\ (forall g, In g (genres db) ->
                movies_of_genre db (g_genre_id g) <> [] ->
                exists e, In e dist /\ genre_count_of db g e)
  /\ StronglySorted (fun a b => gc_count b <= gc_count a) dist.

(** The yearly figures: every entry gives the count and mean of its year,
    every year in which a rating was given has its entry, and the years
    come in increasing order, each once. *)
Definition ratings_by_year_spec (db : DB) (by_year : list YearStat) : Prop :=
  Forall (year_entry db) by_year
  /\ (forall r t, In r (ratings db) -> r_rated_at r = Some t ->
                  exists e, In e by_year /\ ys_year e = ts_year t)
  /\ StronglySorted (fun a b => ys_year a < ys_year b) by_year.

(** The averages by genre: every entry stands for a genre of the table,
    every genre with a joined rating has its entry, and the entries come
    in non-increasing order of the average. *)
Definition avg_rating_by_genre_spec (db : DB) (by_genre : list GenreRating)
  : Prop :=
  Forall (fun e => exists g, In g (genres db) /\ genre_rating_of db g e)
         by_genre
  /\ (forall g, In g (genres db) ->
                genre_ratings_joined db (genre_key g) <> [] ->
                exists e, In e by_genre /\ genre_rating_of db g e)
  /\ StronglySorted (fun a b => (gr_avg_rating b <= gr_avg_rating a)%Q)
                    by_genre.

(** The movies by decade: the entries are the decades in increasing
    order, each once, labelled with the decade and an "s"; every entry
    counts the movies of its decade, and the decade of every movie that
    has a year has its entry. *)
Definition movies_by_decade_spec (db : DB) (by_decade : list DecadeCount)
  : Prop :=
  exists decades,
    by_decade
    = map (fun d => mkDecadeCount (str_Z (fst d) ++ "s")%string (snd d))
          decades
    /\ Forall (fun d => snd d = count (movies_in_decade db (fst d))) decades
    /\ (forall m y, In m (movies db) -> m_year m = Some y ->
                    exists d, In d decades /\ fst d = Z.quot y 10 * 10)
    /\ StronglySorted (fun a b => fst a < fst b) decades.

(* ================================================================== *)
(** * Facts about the relational operators *)
(* ================================================================== *)

Section RelationalFacts.
Variables A B K : Type.

Lemma in_inner_join (on : A -> B -> bool) l r a b :
  In (a, b) (inner_join on l r) <-> In a l /\ In b r /\ on a b = true.
Proof.
  unfold inner_join. rewrite in_flat_map. split.
  - intros (a' & Ha & Hin). apply in_map_iff in Hin.
    destruct Hin as (b' & Heq & Hb). inversion Heq; subst.
    apply filter_In in Hb. tauto.
  - intros (Ha & Hb & Hon). exists a. split; [assumption|].
    apply in_map. apply filter_In. tauto.
Qed.

Lemma in_left_join_left (on : A -> B -> bool) l r a ob :
  In (a, ob) (left_join on l r) -> In a l.
Proof.
  unfold left_join. rewrite in_flat_map. intros (a' & Ha & Hin).
  destruct (filter (on a') r) as [|b0 bs] eqn:E.
  - destruct Hin as [Heq|[]]. inversion Heq; subst. assumption.
  - apply in_map_iff in Hin. destruct Hin as (b' & Heq & _).
    inversion Heq; subst. assumption.
Qed.

Lemma in_left_join_right (on : A -> B -> bool) l r a b :
  In (a, Some b) (left_join on l r) <-> In a l /\ In b r /\ on a b = true.
Proof.
  unfold left_join. rewrite in_flat_map. split.
  - intros (a' & Ha & Hin).
    destruct (filter (on a') r) as [|b0 bs] eqn:E.
    + destruct Hin as [Heq|[]]. discriminate.
    + apply in_map_iff in Hin. destruct Hin as (b' & Heq & Hb).
      inversion Heq; subst. rewrite <- E in Hb.
      apply filter_In in Hb. tauto.
  - intros (Ha & Hb & Hon). exists a. split; [assumption|].
    assert (Hf : In b (filter (on a) r)) by (apply filter_In; tauto).
    destruct (filter (on a) r) as [|b0 bs]; [destruct Hf|].
    apply in_map_iff. exists b. tauto.
Qed.

Lemma in_left_join_null (on : A -> B -> bool) l r a :
  In (a, None) (left_join on l r) <-> In a l /\ filter (on a) r = [].
Proof.
  unfold left_join. rewrite in_flat_map. split.
  - intros (a' & Ha & Hin).
    destruct (filter (on a') r) as [|b0 bs] eqn:E.
    + destruct Hin as [Heq|[]]. inversion Heq; subst. tauto.
    + apply in_map_iff in Hin. destruct Hin as (b' & Heq & _). discriminate.
  - intros (Ha & E). exists a. split; [assumption|]. rewrite E. now left.
Qed.

(** ** DISTINCT and GROUP BY *)

Variable eqb : K -> K -> bool.

Lemma in_distinct_from seen l k :
  In k (distinct_from eqb seen l) -> In k l.
Proof.
  revert seen. induction l as [|x l IH]; intros seen H; simpl in *.
  - assumption.
  - destruct (memb eqb x seen).
    + right. eauto.
    + destruct H as [H|H]; [now left | right; eauto].
Qed.

Lemma in_distinct l k : In k (distinct eqb l) -> In k l.
Proof. apply in_distinct_from. Qed.

Lemma in_group_by (key : A -> K) l k rows :
  In (k, rows) (group_by eqb key l) ->
  (exists a, In a l /\ key a = k)
  /\ rows = filter (fun a => eqb (key a) k) l.
Proof.
  unfold group_by. intros H. apply in_map_iff in H.
  destruct H as (k' & Heq & Hk). inversion Heq; subst. split; [|reflexivity].
  apply in_distinct in Hk. apply in_map_iff in Hk.
  destruct Hk as (a & Ha & Hin). eauto.
Qed.

(** With a reflexive key test no group is empty. *)
Lemma group_by_nonempty (key : A -> K) l k rows :
  (forall x, eqb x x = true) ->
  In (k, rows) (group_by eqb key l) -> rows <> [].
Proof.
  intros Hrefl H. apply in_group_by in H.
  destruct H as ((a & Ha & Hk) & ->). intros E.
  assert (Hin : In a (filter (fun a0 => eqb (key a0) k) l)).
  { apply filter_In. split; [assumption|]. subst k. apply Hrefl. }
  rewrite E in Hin. destruct Hin.
Qed.

(** ** ORDER BY *)

Variable leb : A -> A -> bool.

Lemma in_insert_sorted x y l :
  In y (insert_sorted leb x l) <-> y = x \/ In y l.
Proof.
  induction l as [|z l IH]; simpl.
  - intuition congruence.
  - destruct (leb x z); simpl; [intuition congruence|].
    rewrite IH. intuition congruence.
Qed.

Lemma in_order_by y l : In y (order_by leb l) <-> In y l.
Proof.
  induction l as [|x l IH]; simpl; [tauto|].
  rewrite in_insert_sorted, IH. intuition congruence.
Qed.

Lemma order_by_length l : List.length (order_by leb l) = List.length l.
Proof.
  induction l as [|x l IH]; simpl; [reflexivity|].
  rewrite <- IH. generalize (order_by leb l). intros s.
  induction s as [|z s IHs]; simpl; [reflexivity|].
  destruct (leb x z); simpl; congruence.
Qed.

Hypothesis leb_total : forall x y, leb x y = true \/ leb y x = true.

Lemma insert_sorted_Sorted x l :
  Sorted (comes_no_later leb) l -> Sorted (comes_no_later leb) (insert_sorted leb x l).
Proof.
  induction 1 as [|z l Hs IH Hhd]; simpl.
  - repeat constructor.
  - destruct (leb x z) eqn:E.
    + constructor; [constructor; assumption|]. constructor. exact E.
    + constructor; [assumption|].
      assert (Hzx : comes_no_later leb z x) by (destruct (leb_total x z); [congruence|assumption]).
      destruct l as [|w l]; simpl.
      * constructor. exact Hzx.
      * destruct (leb x w); constructor; [exact Hzx|].
        inversion Hhd; assumption.
Qed.

Lemma order_by_Sorted l : Sorted (comes_no_later leb) (order_by leb l).
Proof.
  induction l as [|x l IH]; simpl; [constructor|].
  now apply insert_sorted_Sorted.
Qed.

(** A transitive relation that the sort test implies holds between any
    earlier and any later row. *)
Lemma order_by_StronglySorted (P : A -> A -> Prop) l :
  (forall x y, leb x y = true -> P x y) ->
  (forall x y z, P x y -> P y z -> P x z) ->
  StronglySorted P (order_by leb l).
Proof.
  intros Himp Htrans. apply Sorted_StronglySorted.
  - exact Htrans.
  - generalize (order_by_Sorted l). induction 1 as [|z s Hs IH Hhd].
    + constructor.
    + constructor; [assumption|]. destruct Hhd; constructor. now apply Himp.
Qed.
End RelationalFacts.

(** ** LIMIT and OFFSET *)

Lemma StronglySorted_firstn {A} (P : A -> A -> Prop) n l :
  StronglySorted P l -> StronglySorted P (firstn n l).
Proof.
  revert n. induction l as [|x l IH]; intros [|n] H; simpl; try constructor.
  - apply IH. now inversion H.
  - inversion H as [|? ? _ Hall]; subst.
    rewrite Forall_forall in *. intros y Hy. apply Hall.
    rewrite <- (firstn_skipn n l). apply in_or_app. now left.
Qed.

Lemma StronglySorted_skipn {A} (P : A -> A -> Prop) n l :
  StronglySorted P l -> StronglySorted P (skipn n l).
Proof.
  revert l. induction n as [|n IH]; intros [|x l] H; simpl; try assumption.
  apply IH. now inversion H.
Qed.

Lemma in_firstn_skipn {A} n k (l : list A) x :
  In x (firstn n (skipn k l)) -> In x l.
Proof.
  intros H. rewrite <- (firstn_skipn k l). apply in_or_app. right.
  rewrite <- (firstn_skipn n (skipn k l)). apply in_or_app. now left.
Qed.

Lemma limit_offset_OK {A} lim off (l l' : list A) :
  limit_offset lim off l = OK l' ->
  0 <= lim /\ 0 <= off
  /\ l' = firstn (Z.to_nat lim) (skipn (Z.to_nat off) l).
Proof.
  unfold limit_offset.
  destruct (Z.ltb_spec off 0); [discriminate|].
  destruct (Z.ltb_spec lim 0); [discriminate|].
  intros E. inversion E. auto.
Qed.

Lemma limit_offset_Raise {A} lim off (l : list A) e :
  limit_offset lim off l = Raise e -> lim < 0 \/ off < 0.
Proof.
  unfold limit_offset.
  destruct (Z.ltb_spec off 0); [auto|].
  destruct (Z.ltb_spec lim 0); [auto|]. discriminate.
Qed.

Lemma limit_offset_total {A} lim off (l : list A) :
  0 <= lim -> 0 <= off ->
  limit_offset lim off l = OK (firstn (Z.to_nat lim) (skipn (Z.to_nat off) l)).
Proof.
  intros Hl Ho. unfold limit_offset.
  destruct (Z.ltb_spec off 0); [lia|].
  destruct (Z.ltb_spec lim 0); [lia|]. reflexivity.
Qed.

(** ** Connections *)

Lemma read_only_ret {A} (a : A) : read_only (ret a).
Proof. intros c. reflexivity. Qed.

Lemma read_only_lift {A} (r : Result A) : read_only (lift r).
Proof. intros c. reflexivity. Qed.

Lemma read_only_select {A} (stmt : DB -> Result A) :
  read_only (execute_select stmt).
Proof. intros c. reflexivity. Qed.

Lemma read_only_bind {A B} (m : M A) (k : A -> M B) :
  read_only m -> (forall a, read_only (k a)) -> read_only (bind m k).
Proof.
  intros Hm Hk c. unfold bind. specialize (Hm c).
  destruct (m c) as [[a|e] c']; simpl in *; subst.
  - apply Hk.
  - reflexivity.
Qed.

Lemma with_read_only {A} (body : M A) db :
  read_only body -> snd (with_db_connection body db) = db.
Proof.
  intros H. unfold with_db_connection. specialize (H (mkConn db db)).
  destruct (body (mkConn db db)) as [r c]. simpl in *. now subst.
Qed.

Ltac read_only_tac :=
  repeat first
    [ apply read_only_ret | apply read_only_lift | apply read_only_select
    | apply read_only_bind; [|intros ?]
    | match goal with |- read_only (match ?x with _ => _ end) => destruct x end
    | match goal with |- read_only (let '(_, _) := ?x in _) => destruct x end ].

(* ================================================================== *)
(** * The write path and the frame of every operation *)
(* ================================================================== *)

Lemma rating_of_set_clause now u m q r :
  rating_of u m (set_clause now u m q r) = rating_of u m r.
Proof.
  unfold set_clause. destruct (rating_of u m r) eqn:E; [|exact E].
  unfold rating_of in *. simpl. exact E.
Qed.

Lemma filter_set_clause now u m q rs :
  filter (rating_of u m) (map (set_clause now u m q) rs)
  = map (set_clause now u m q) (filter (rating_of u m) rs).
Proof.
  induction rs as [|r rs IH]; simpl; [reflexivity|].
  rewrite rating_of_set_clause. destruct (rating_of u m r); simpl; congruence.
Qed.

Lemma identity_set_clause now u m q r :
  rating_identity (set_clause now u m q r) = rating_identity r.
Proof. unfold set_clause. destruct (rating_of u m r); reflexivity. Qed.

(** [add_rating], statement by statement, comes to this. *)
Lemma add_rating_unfold now u m q db :
  add_rating now u m q db =
  match filter (rating_of u m) (ratings db) with
  | [] =>
      (OK (mkRatingResult true created (rating_id_seq db) u m q (Some now)),
       set_ratings db (ratings db ++ [inserted_row now u m q db])
         (rating_id_seq db + 1))
  | prior :: _ =>
      (OK (mkRatingResult true updated (r_rating_id prior) u m q (Some now)),
       set_ratings db (map (set_clause now u m q) (ratings db))
         (rating_id_seq db))
  end.
Proof.
  unfold add_rating, with_db_connection, bind, execute_select, check_sql.
  simpl. destruct (filter (rating_of u m) (ratings db)) as [|prior rest] eqn:E.
  - reflexivity.
  - simpl. unfold execute_dml, update_sql. simpl.
    rewrite filter_set_clause, E. simpl.
    unfold set_clause.
    assert (Hp : rating_of u m prior = true).
    { assert (Hin : In prior (filter (rating_of u m) (ratings db)))
        by (rewrite E; now left).
      apply filter_In in Hin. tauto. }
    rewrite Hp. reflexivity.
Qed.

Lemma ratings_kept_refl db : ratings_kept 0 db db.
Proof. exists []. rewrite app_nil_r. split; [reflexivity | simpl; lia]. Qed.

Lemma ratings_kept_weaken n db db' :
  ratings_kept 0 db db' -> ratings_kept n db db'.
Proof. intros (a & E & L). exists a. split; [assumption | lia]. Qed.

Lemma same_catalog_refl db : same_catalog db db.
Proof. repeat split. Qed.

Lemma add_rating_frame now u m q db :
  same_catalog db (snd (add_rating now u m q db))
  /\ ratings_kept 1 db (snd (add_rating now u m q db)).
Proof.
  rewrite add_rating_unfold.
  destruct (filter (rating_of u m) (ratings db)) as [|prior rest]; simpl.
  - split; [repeat split|]. exists [rating_identity (inserted_row now u m q db)].
    simpl. rewrite map_app. split; [reflexivity | simpl; lia].
  - split; [repeat split|]. exists []. simpl. rewrite app_nil_r, map_map. split.
    + apply map_ext. intros r. apply identity_set_clause.
    + simpl; lia.
Qed.

(** ** The read functions *)

Lemma get_stats_reads db : snd (get_stats db) = db.
Proof. apply with_read_only. read_only_tac. Qed.

Lemma search_movies_semantic_reads emb cd q l db :
  snd (search_movies_semantic emb cd q l db) = db.
Proof. apply with_read_only. read_only_tac. Qed.

Lemma search_movies_keyword_reads q l db :
  snd (search_movies_keyword q l db) = db.
Proof. apply with_read_only. read_only_tac. Qed.

Lemma get_genres_reads db : snd (get_genres db) = db.
Proof. apply with_read_only. read_only_tac. Qed.

Lemma browse_movies_reads g y1 y2 r l o db :
  snd (browse_movies g y1 y2 r l o db) = db.
Proof.
  unfold browse_movies. destruct (truthy_opt truthy_Q r);
    apply with_read_only; read_only_tac.
Qed.

Lemma get_movie_details_reads id db : snd (get_movie_details id db) = db.
Proof. apply with_read_only. read_only_tac. Qed.

Lemma get_analytics_data_reads db : snd (get_analytics_data db) = db.
Proof. apply with_read_only. read_only_tac. Qed.

Lemma run_page_frame emb cd env pg db :
  same_catalog db (snd (run_page emb cd env pg db))
  /\ ratings_kept 1 db (snd (run_page emb cd env pg db)).
Proof.
  assert (Hsame : same_catalog db db /\ ratings_kept 1 db db)
    by (split; [apply same_catalog_refl
               | apply ratings_kept_weaken, ratings_kept_refl]).
  destruct pg; simpl.
  - unfold page_home. pose proof (get_stats_reads db) as H.
    destruct (get_stats db) as [r d]; simpl in *. now subst.
  - unfold page_discover.
    destruct (truthy_opt truthy_string _); [|exact Hsame].
    destruct (negb (is_configured env)); [exact Hsame|].
    match goal with |- context [search_movies_semantic ?a ?b ?c ?d ?e] =>
      pose proof (search_movies_semantic_reads a b c d e) as H;
      destruct (search_movies_semantic a b c d e) as [r d'] end.
    simpl in *. now subst.
  - unfold page_browse. pose proof (get_genres_reads db) as H.
    destruct (get_genres db) as [r d]; simpl in H; subst d.
    destruct year_range as [y1 y2].
    destruct clear_filters_clicked; [exact Hsame|].
    destruct (negb (is_configured env)); [exact Hsame|].
    match goal with |- context [browse_movies ?a ?b ?c ?d ?e ?f ?g] =>
      pose proof (browse_movies_reads a b c d e f g) as H;
      destruct (browse_movies a b c d e f g) as [r' d'] end.
    simpl in *. now subst.
  - unfold page_search.
    destruct (truthy_opt truthy_string _); [|exact Hsame].
    destruct (negb (is_configured env)); [exact Hsame|].
    match goal with |- context [search_movies_keyword ?c ?d ?e] =>
      pose proof (search_movies_keyword_reads c d e) as H;
      destruct (search_movies_keyword c d e) as [r d'] end.
    simpl in *. now subst.
  - unfold page_analytics.
    destruct (negb (is_configured env)); [exact Hsame|].
    pose proof (get_analytics_data_reads db) as H.
    destruct (get_analytics_data db) as [r d]; simpl in *. now subst.
  - unfold page_movie.
    destruct (negb (truthy_opt truthy_Z selected_movie_id)); [exact Hsame|].
    destruct (negb (is_configured env)); [exact Hsame|].
    match goal with |- context [get_movie_details ?c ?e] =>
      pose proof (get_movie_details_reads c e) as H;
      destruct (get_movie_details c e) as [r d] end.
    simpl in H; subst d.
    destruct (result_of r) as [[md|]|]; try exact Hsame.
    destruct submitted; [|exact Hsame].
    match goal with |- context [add_rating ?a ?b ?c ?d ?e] =>
      pose proof (add_rating_frame a b c d e) as H;
      destruct (add_rating a b c d e) as [r' d'] end.
    exact H.
Qed.

(** C8.  Every query function other than [add_rating] hands the database
    back unchanged.  [add_rating] leaves the movies, genres, movie_genres,
    users and links tables alone and, in ratings, keeps every row in place
    (same key, user and movie) while appending at most one.  The same
    holds for a run of any page, so nothing the application does removes a
    row. *)
Theorem reads_leave_db_and_only_add_rating_writes
        (emb : string -> string -> Vector) (cd : Vector -> Vector -> Number)
        (db : DB) :
  snd (get_stats db) = db
  /\ (forall q l, snd (search_movies_semantic emb cd q l db) = db)
  /\ (forall q l, snd (search_movies_keyword q l db) = db)
  /\ snd (get_genres db) = db
  /\ (forall g y1 y2 r l o, snd (browse_movies g y1 y2 r l o db) = db)
  /\ (forall id, snd (get_movie_details id db) = db)
  /\ snd (get_analytics_data db) = db
  /\ (forall now u m q,
         same_catalog db (snd (add_rating now u m q db))
         /\ ratings_kept 1 db (snd (add_rating now u m q db)))
  /\ (forall env pg,
         same_catalog db (snd (run_page emb cd env pg db))
         /\ ratings_kept 1 db (snd (run_page emb cd env pg db))).
Proof.
  repeat split;
    auto using get_stats_reads, search_movies_semantic_reads,
      search_movies_keyword_reads, get_genres_reads, browse_movies_reads,
      get_movie_details_reads, get_analytics_data_reads;
    try (apply add_rating_frame); try (apply run_page_frame).
Qed.




(* ================================================================== *)
(** * Configuration and the pages' guards *)
(* ================================================================== *)






(* ================================================================== *)
(** * Filters that are falsy *)
(* ================================================================== *)

(** C7.  [browse_movies] reads a filter argument by its truth value: the
    integer 0 for the genre or either year bound, and a zero rating floor
    (in any representation), give the very call that [None] gives, and no
    clause or parameter is added for them. *)
Theorem browse_movies_falsy_is_unset
        (genre_id year_min year_max : option Z) (rating_min : option Q)
        (lim off : Z) (db : DB) :
  browse_movies (Some 0) year_min year_max rating_min lim off db
  = browse_movies None year_min year_max rating_min lim off db
  /\ browse_movies genre_id (Some 0) year_max rating_min lim off db
     = browse_movies genre_id None year_max rating_min lim off db
  /\ browse_movies genre_id year_min (Some 0) rating_min lim off db
     = browse_movies genre_id year_min None rating_min lim off db
  /\ (forall q : Q,
         browse_movies genre_id year_min year_max
           (if Qeq_bool q 0 then Some q else None) lim off db
         = browse_movies genre_id year_min year_max None lim off db)
  /\ browse_where (Some 0) (Some 0) (Some 0) lim off
     = ([CAlways], [("limit", VInt lim); ("offset", VInt off)]%string).
Proof.
  split; [reflexivity|]. split; [reflexivity|]. split; [reflexivity|].
  split; [|reflexivity].
  intros q. destruct (Qeq_bool q 0) eqn:E; [|reflexivity].
  unfold browse_movies.
  change (truthy_opt truthy_Q (Some q)) with (negb (Qeq_bool q 0)).
  rewrite E. reflexivity.
Qed.

(* ================================================================== *)
(** * Analytics *)
(* ================================================================== *)

Lemma mapM_total {A B} (f : A -> Result B) (P : A -> Prop) l :
  (forall a, P a -> exists b, f a = OK b) ->
  Forall P l ->
  exists l', mapM f l = OK l' /\ Forall2 (fun a b => f a = OK b) l l'.
Proof.
  intros Hf. induction 1 as [|a l Ha Hl IH]; simpl.
  - exists []. split; [reflexivity | constructor].
  - destruct (Hf a Ha) as (b & Eb). destruct IH as (l' & El & F).
    exists (b :: l'). rewrite Eb, El. simpl. split; [reflexivity|].
    constructor; assumption.
Qed.

Lemma avg_nonempty (l : list Q) : l <> [] -> exists q, avg l = Some q.
Proof. destruct l; [congruence|]. intros _. eexists. reflexivity. Qed.

Lemma round_avg_nonempty {A} (f : A -> Q) (rows : list A) :
  rows <> [] -> exists q, round_avg (map f rows) = Some q.
Proof.
  intros H. unfold round_avg.
  destruct (avg_nonempty (l := map f rows)) as (q & E).
  - destruct rows; [congruence | discriminate].
  - rewrite E. eexists. reflexivity.
Qed.

Lemma option_eqb_refl {A} (eqb : A -> A -> bool) :
  (forall a, eqb a a = true) -> forall o, option_eqb eqb o o = true.
Proof. intros H [a|]; simpl; auto. Qed.

Lemma key3_eqb_refl k : key3_eqb k k = true.
Proof.
  destruct k as [[i t] y]. unfold key3_eqb.
  rewrite Z.eqb_refl, String.eqb_refl, (option_eqb_refl _ Z.eqb_refl).
  reflexivity.
Qed.

Lemma genre_key_eqb_refl k : genre_key_eqb k k = true.
Proof.
  unfold genre_key_eqb. now rewrite Z.eqb_refl, String.eqb_refl.
Qed.

Lemma limit_OK {A} n (l l' : list A) :
  limit n l = OK l' -> forall x, In x l' -> In x l.
Proof.
  unfold limit. intros H x Hx. apply limit_offset_OK in H.
  destruct H as (_ & _ & ->). eapply in_firstn_skipn; eassumption.
Qed.

(** Each row of the top-movies statement has an average and at least 50
    ratings. *)
Lemma top_movies_sql_rows db :
  exists rows,
    top_movies_sql db = OK rows
    /\ Forall (fun row => (exists a, tr_avg_rating row = Some a)
                          /\ 50 <= tr_rating_count row) rows.
Proof.
  unfold top_movies_sql.
  match goal with |- context [limit 10 ?l] =>
    destruct (limit 10 l) as [rows|e] eqn:E
  end.
  2:{ unfold limit in E. apply limit_offset_Raise in E. lia. }
  exists rows. split; [reflexivity|].
  apply Forall_forall. intros row Hrow.
  eapply limit_OK in Hrow; [|exact E].
  apply in_order_by in Hrow. apply in_map_iff in Hrow.
  destruct Hrow as ([k grp] & <- & Hg).
  apply filter_In in Hg. destruct Hg as [Hg Hcount].
  apply group_by_nonempty in Hg; [|apply key3_eqb_refl].
  destruct k as [[i t] y]. simpl in *. split.
  - now apply round_avg_nonempty.
  - now apply Z.leb_le.
Qed.

Lemma ratings_time_sql_rows db :
  exists rows,
    ratings_time_sql db = OK rows
    /\ Forall (fun row => exists a, yr_avg_rating row = Some a) rows.
Proof.
  unfold ratings_time_sql. eexists. split; [reflexivity|].
  apply Forall_forall. intros row Hrow.
  apply in_order_by in Hrow. apply in_map_iff in Hrow.
  destruct Hrow as ([k grp] & <- & Hg).
  apply group_by_nonempty in Hg; [|apply Z.eqb_refl].
  simpl. now apply round_avg_nonempty.
Qed.

Lemma genre_ratings_sql_rows db :
  exists rows,
    genre_ratings_sql db = OK rows
    /\ Forall (fun row => exists a, grr_avg_rating row = Some a) rows.
Proof.
  unfold genre_ratings_sql. eexists. split; [reflexivity|].
  apply Forall_forall. intros row Hrow.
  apply in_order_by in Hrow. apply in_map_iff in Hrow.
  destruct Hrow as ([k grp] & <- & Hg).
  apply group_by_nonempty in Hg; [|apply genre_key_eqb_refl].
  simpl. now apply round_avg_nonempty.
Qed.

(* ================================================================== *)
(** * Semantic search: the order of the result *)
(* ================================================================== *)

Local Open Scope Q_scope.

Lemma Qmake_le_same (a b : Z) (s : positive) :
  (a <= b)%Z -> a # s <= b # s.
Proof.
  intros H. unfold Qle. simpl. apply Z.mul_le_mono_nonneg_r; [lia | exact H].
Qed.

Lemma Qfloor_half_nonneg (y : Q) : 0 <= y -> (0 <= Qfloor (y + (1 # 2)))%Z.
Proof.
  intros H. change 0%Z with (Qfloor 0). apply Qfloor_resp_le.
  apply Qle_trans with y; [exact H|].
  rewrite <- (Qplus_0_r y) at 1. apply Qplus_le_r. discriminate.
Qed.

(** Rounding keeps the order. *)
Lemma round_numeric_mono (d : nat) (x y : Q) :
  x <= y -> round_numeric d x <= round_numeric d y.
Proof.
  intros Hxy. unfold round_numeric.
  set (s := scale10 d).
  assert (Hs : 0 <= inject_Z (Zpos s)) by (unfold Qle; simpl; lia).
  assert (HXY : x * inject_Z (Zpos s) <= y * inject_Z (Zpos s))
    by (apply Qmult_le_compat_r; assumption).
  set (X := x * inject_Z (Zpos s)) in *.
  set (Y := y * inject_Z (Zpos s)) in *.
  destruct (Qle_bool 0 X) eqn:EX; destruct (Qle_bool 0 Y) eqn:EY.
  - apply Qmake_le_same. apply Qfloor_resp_le. now apply Qplus_le_l.
  - apply Qle_bool_iff in EX.
    assert (H : 0 <= Y) by (eapply Qle_trans; eassumption).
    apply Qle_bool_iff in H. congruence.
  - apply Qle_bool_iff in EY.
    assert (HX : 0 <= - X).
    { apply Qlt_le_weak. apply Qnot_le_lt. intros H.
      assert (H0 : 0 <= X).
      { apply Qopp_le_compat in H. rewrite Qopp_involutive in H. exact H. }
      apply Qle_bool_iff in H0. congruence. }
    apply Qmake_le_same.
    pose proof (Qfloor_half_nonneg HX). pose proof (Qfloor_half_nonneg EY).
    lia.
  - apply Qmake_le_same.
    assert (H : (Qfloor (- Y + (1 # 2)) <= Qfloor (- X + (1 # 2)))%Z).
    { apply Qfloor_resp_le. apply Qplus_le_l. now apply Qopp_le_compat. }
    lia.
Qed.

Lemma opt_Q_leb_total (a b : option Q) :
  opt_Q_leb a b = true \/ opt_Q_leb b a = true.
Proof.
  destruct a as [x|], b as [y|]; simpl; auto.
  destruct (Qle_bool x y) eqn:E; [now left | right].
  apply Qle_bool_iff. apply Qlt_le_weak. apply Qnot_le_lt.
  intros H. apply Qle_bool_iff in H. congruence.
Qed.

Lemma opt_Q_leb_trans (a b c : option Q) :
  opt_Q_leb a b = true -> opt_Q_leb b c = true -> opt_Q_leb a c = true.
Proof.
  destruct a as [x|], b as [y|], c as [z|]; simpl; try congruence.
  rewrite !Qle_bool_iff. apply Qle_trans.
Qed.

Lemma truthy_or_zero (s : Q) : (if truthy_Q s then s else 0) == s.
Proof.
  unfold truthy_Q. destruct (Qeq_bool s 0) eqn:E; simpl.
  - apply Qeq_bool_iff in E. now symmetry.
  - reflexivity.
Qed.

Lemma StronglySorted_map_on {A B} (P : A -> A -> Prop) (S : B -> B -> Prop)
      (G : A -> Prop) (f : A -> B) (l : list A) :
  (forall a b, G a -> G b -> P a b -> S (f a) (f b)) ->
  Forall G l -> StronglySorted P l -> StronglySorted S (map f l).
Proof.
  intros H HG Hs. induction Hs as [|a l Hs IH Hall]; simpl; constructor.
  - apply IH. now inversion HG.
  - inversion HG as [|? ? Ga Gl]; subst.
    rewrite Forall_forall in *. intros b Hb. apply in_map_iff in Hb.
    destruct Hb as (x & <- & Hx). apply H; auto.
Qed.

Lemma Forall_firstn_skipn {A} (P : A -> Prop) n k (l : list A) :
  Forall P l -> Forall P (firstn n (skipn k l)).
Proof.
  rewrite !Forall_forall. intros H x Hx. apply H.
  eapply in_firstn_skipn; eassumption.
Qed.

Lemma number_leb_total (a b : Number) :
  number_leb a b = true \/ number_leb b a = true.
Proof.
  destruct a as [x|], b as [y|]; simpl; auto.
  apply (opt_Q_leb_total (Some x) (Some y)).
Qed.

Lemma number_leb_trans (a b c : Number) :
  number_leb a b = true -> number_leb b c = true -> number_leb a c = true.
Proof.
  destruct a as [x|], b as [y|], c as [z|]; simpl; try congruence.
  apply (@opt_Q_leb_trans (Some x) (Some y) (Some z)).
Qed.

Lemma opt_number_leb_total (a b : option Number) :
  opt_number_leb a b = true \/ opt_number_leb b a = true.
Proof.
  destruct a as [x|], b as [y|]; simpl; auto. apply number_leb_total.
Qed.

Lemma opt_number_leb_trans (a b c : option Number) :
  opt_number_leb a b = true -> opt_number_leb b c = true ->
  opt_number_leb a c = true.
Proof.
  destruct a as [x|], b as [y|], c as [z|]; simpl; try congruence.
  apply number_leb_trans.
Qed.

(** What the loop body makes of a similarity is the similarity. *)
Lemma truthy_or_zero_number (s : Number) :
  number_eq (if truthy_number s then s else Num 0) s.
Proof.
  destruct s as [x|]; simpl; [|exact I].
  pose proof (truthy_or_zero x) as H. destruct (truthy_Q x); exact H.
Qed.

(** A smaller distance gives a similarity that ranks no lower. *)
Lemma similarity_of_no_lower (da db sa sb : Number) :
  number_leb da db = true ->
  number_eq sa (similarity_of da) -> number_eq sb (similarity_of db) ->
  no_lower sa sb.
Proof.
  destruct da as [x|], db as [y|], sa as [a|], sb as [b|]; simpl;
    try tauto; try discriminate.
  intros H Ea Eb. rewrite Ea, Eb. apply round_numeric_mono.
  apply Qle_bool_iff in H. lra.
Qed.

Lemma no_lower_py_leb (a b : Number) :
  a <> NaN -> b <> NaN -> no_lower a b -> py_leb b a = true.
Proof.
  destruct a as [x|], b as [y|]; simpl; try congruence.
  intros _ _ H. now apply Qle_bool_iff.
Qed.

Lemma StronglySorted_on {A} (P S : A -> A -> Prop) (G : A -> Prop) l :
  (forall a b, G a -> G b -> P a b -> S a b) ->
  Forall G l -> StronglySorted P l -> StronglySorted S l.
Proof.
  intros H HG Hs. rewrite <- (map_id l).
  eapply StronglySorted_map_on with (f := fun x => x); eassumption.
Qed.

Section SemanticFacts.
Variable embedding : string -> string -> Vector.
Variable cosine_distance : Vector -> Vector -> Number.

Lemma semantic_sql_rows query lim db :
  match semantic_sql embedding cosine_distance query lim db with
  | OK rows =>
      StronglySorted by_distance rows
      /\ Forall (has_distance cosine_distance
                   (embedding "gemini-embedding-001" query) db) rows
  | Raise _ => (lim < 0)%Z
  end.
Proof.
  unfold semantic_sql.
  match goal with |- context [limit lim ?l] =>
    set (sorted := l); destruct (limit lim sorted) as [rows|e] eqn:E
  end.
  2:{ unfold limit in E. apply limit_offset_Raise in E. lia. }
  unfold limit in E. apply limit_offset_OK in E. destruct E as (_ & _ & ->).
  split.
  - apply StronglySorted_firstn, StronglySorted_skipn.
    apply order_by_StronglySorted.
    + intros x y. apply opt_number_leb_total.
    + intros x y H. exact H.
    + intros x y z. apply opt_number_leb_trans.
  - apply Forall_firstn_skipn. apply Forall_forall. intros row Hrow.
    apply in_order_by in Hrow. apply in_map_iff in Hrow.
    destruct Hrow as ([k grp] & <- & Hg).
    apply in_group_by in Hg. destruct Hg as ((r & Hr & Hk) & _).
    apply filter_In in Hr. destruct Hr as [Hin Hemb].
    destruct r as [[m omg] og]. cbn [fst snd] in *.
    apply in_left_join_left in Hin. apply in_left_join_left in Hin.
    destruct (m_summary_embedding m) as [v|] eqn:Ev; [|discriminate].
    subst k. unfold semantic_select, movie_key. cbn.
    exists m, v. repeat split; assumption || reflexivity.
Qed.

Lemma search_movies_semantic_rows query lim db ms :
  fst (search_movies_semantic embedding cosine_distance query lim db) = OK ms ->
  exists rows,
    semantic_sql embedding cosine_distance query lim db = OK rows
    /\ ms = map semantic_dict rows.
Proof.
  unfold search_movies_semantic, with_db_connection, bind, execute_select.
  simpl. destruct (semantic_sql embedding cosine_distance query lim db)
    as [rows|e]; simpl; [|discriminate].
  intros H. inversion H. eauto.
Qed.

Lemma has_distance_similarity q db row :
  has_distance cosine_distance q db row ->
  exists d, sr_distance row = Some d
            /\ number_eq (sm_similarity (semantic_dict row)) (similarity_of d).
Proof.
  intros (m & v & _ & _ & _ & Hdist & Hsim).
  exists (cosine_distance v q). split; [exact Hdist|].
  unfold semantic_dict. simpl. rewrite Hsim. simpl.
  apply truthy_or_zero_number.
Qed.

(** The returned list runs from the highest similarity to the lowest, with
    the NaN entries last. *)
Lemma semantic_similarity_falls query lim db ms :
  fst (search_movies_semantic embedding cosine_distance query lim db) = OK ms ->
  non_increasing_nan_last ms.
Proof.
  intros H. apply search_movies_semantic_rows in H.
  destruct H as (rows & E & ->).
  pose proof (semantic_sql_rows query lim db) as H. rewrite E in H.
  destruct H as [Hs Hd].
  set (q := embedding "gemini-embedding-001"%string query) in *.
  unfold non_increasing_nan_last.
  eapply StronglySorted_map_on
    with (G := has_distance cosine_distance q db); [|exact Hd|exact Hs].
  intros a b Ga Gb Hab.
  destruct (has_distance_similarity Ga) as (da & Ea & Sa).
  destruct (has_distance_similarity Gb) as (db' & Eb & Sb).
  unfold by_distance in Hab. rewrite Ea, Eb in Hab. simpl in Hab.
  eapply similarity_of_no_lower; eassumption.
Qed.

(** C5, amended.  Whenever [search_movies_semantic] returns, its list is
    in non-increasing order of the similarity field with the NaN entries
    last, and so in non-increasing order outright when no similarity is
    NaN.  The rows come from the statement in non-decreasing order of the
    cosine distance between the movie's embedding and the query's (NaN
    greatest), every row is a movie with an embedding, and its similarity
    is one minus that distance rounded to three decimal places, which keeps
    the order. *)
Theorem search_movies_semantic_sorted
        (query : string) (lim : Z) (db : DB) (ms : list SemanticMovie) :
  fst (search_movies_semantic embedding cosine_distance query lim db) = OK ms ->
  non_increasing_nan_last ms
  /\ (Forall (fun m => sm_similarity m <> NaN) ms ->
      non_increasing_similarity ms)
  /\ exists rows,
       semantic_sql embedding cosine_distance query lim db = OK rows
       /\ ms = map semantic_dict rows
       /\ StronglySorted
            (fun a b => opt_number_leb (sr_distance a) (sr_distance b) = true)
            rows
       /\ Forall (fun row =>
                    exists m v,
                      In m (movies db)
                      /\ m_summary_embedding m = Some v
                      /\ sm_movie_id (semantic_dict row) = m_movie_id m
                      /\ sr_distance row
                         = Some (cosine_distance v
                                   (embedding "gemini-embedding-001" query))
                      /\ number_eq
                           (sm_similarity (semantic_dict row))
                           (similarity_of
                              (cosine_distance v
                                 (embedding "gemini-embedding-001" query))))
                 rows.
Proof.
  intros H. pose proof (semantic_similarity_falls _ _ _ H) as Hfalls.
  split; [exact Hfalls|]. split.
  - intros Hnum. unfold non_increasing_similarity.
    eapply StronglySorted_on
      with (G := fun m => sm_similarity m <> NaN); [|exact Hnum|exact Hfalls].
    intros a b Ha Hb Hab. now apply no_lower_py_leb.
  - apply search_movies_semantic_rows in H. destruct H as (rows & E & ->).
    pose proof (semantic_sql_rows query lim db) as H. rewrite E in H.
    destruct H as [Hs Hd].
    exists rows. repeat split; try assumption; try reflexivity.
    apply Forall_forall. intros row Hrow.
    rewrite Forall_forall in Hd. specialize (Hd row Hrow).
    destruct Hd as (m & v & Hm & Hv & Hid & Hdist & Hsim').
    exists m, v. repeat split; try assumption.
    unfold semantic_dict. simpl. rewrite Hsim'. simpl.
    apply truthy_or_zero_number.
Qed.
End SemanticFacts.

(** The amended C5 at work, on a table with a vector of zeros: the movie
    with a number for similarity first, the NaN one last. *)
Lemma search_movies_semantic_sorted_witness :
  exists ms,
    fst (search_movies_semantic unit_embedding nan_on_zero_distance
           "heist" 10 zero_vector_db) = OK ms
    /\ map sm_movie_id ms = [1; 2]%Z
    /\ non_increasing_nan_last ms.
Proof.
  eexists. split; [vm_compute; reflexivity|]. split; [reflexivity|].
  apply (@search_movies_semantic_sorted unit_embedding nan_on_zero_distance
           "heist" 10 zero_vector_db).
  vm_compute; reflexivity.
Defined.

(** C5 as stated fails: a movie whose summary embedding is a vector of
    zeros gets the distance NaN, is listed (last) with the similarity nan,
    and nan is not lower than or equal to the similarity before it. *)
Lemma semantic_nan_similarity_not_ordered :
  exists a b,
    fst (search_movies_semantic unit_embedding nan_on_zero_distance
           "heist" 10 zero_vector_db) = OK [a; b]
    /\ sm_movie_id a = 1%Z /\ number_eq (sm_similarity a) (Num 1)
    /\ sm_movie_id b = 2%Z /\ sm_similarity b = NaN
    /\ py_leb (sm_similarity b) (sm_similarity a) = false
    /\ ~ non_increasing_similarity [a; b].
Proof.
  do 2 eexists. split; [vm_compute; reflexivity|].
  repeat split.
  intros H. inversion H as [|? ? _ Hall]; subst.
  inversion Hall as [|? ? Hab _]; subst. discriminate.
Qed.

Local Close Scope Q_scope.

(* ================================================================== *)
(** * Filtered browse *)
(* ================================================================== *)

Lemma Qeq_bool_inject (a b : Z) :
  Qeq_bool (inject_Z a) (inject_Z b) = (a =? b).
Proof. unfold Qeq_bool. simpl. now rewrite !Z.mul_1_r. Qed.

Lemma Qle_bool_inject (a b : Z) :
  Qle_bool (inject_Z a) (inject_Z b) = (a <=? b).
Proof. unfold Qle_bool. simpl. now rewrite !Z.mul_1_r. Qed.

(** What the binding and the Python around the two statements come to. *)
Lemma browse_movies_unfold g y1 y2 r lim off db :
  fst (browse_movies g y1 y2 r lim off db) =
  let bs := browse_bounds g y1 y2 in
  rbind (limit_offset lim off
           (order_by browse_order
              (if truthy_opt truthy_Q r
               then browse_rated_rows bs (coalesce r 0%Q) db
               else browse_plain_rows bs db)))
        (fun rows =>
           OK (mkBrowseResult (map browse_dict rows) (count_rows bs db))).
Proof.
  unfold browse_movies, browse_where, add_filter, browse_bounds.
  generalize (coalesce g 0) (coalesce y1 0) (coalesce y2 0).
  generalize (truthy_opt truthy_Z g) (truthy_opt truthy_Z y1)
             (truthy_opt truthy_Z y2).
  intros tg t1 t2 vg v1 v2.
  destruct tg, t1, t2, (truthy_opt truthy_Q r);
    cbv beta iota zeta delta [fst snd];
    unfold with_db_connection, bind, execute_select,
      browse_plain_sql, browse_rated_sql, count_sql;
    repeat match goal with
      | |- context [bind_where ?p ?c] =>
          let v := eval cbv in (bind_where p c) in
          change (bind_where p c) with v
      | |- context [bind_int ?p ?c] =>
          let v := eval cbv in (bind_int p c) in
          change (bind_int p c) with v
      end;
    try match goal with
      | |- context [bind_num ?p ?c] =>
          change (bind_num p c) with (OK (coalesce r 0%Q))
      end;
    cbv beta iota zeta delta [rbind working committed fst snd app inject_Z ret];
    match goal with
    | |- context [limit_offset lim off ?l] =>
        destruct (limit_offset lim off l)
    end; reflexivity.
Qed.

(** The WHERE clause of a call, row by row. *)
Lemma where_ok_browse_bounds g y1 y2 m omg :
  where_ok (browse_bounds g y1 y2) m omg =
  genre_row_ok g omg && year_min_ok y1 (m_year m) && year_max_ok y2 (m_year m).
Proof.
  unfold where_ok, browse_bounds, genre_row_ok, year_min_ok, year_max_ok.
  destruct g as [g|]; [destruct (truthy_Z g) eqn:Eg|];
    (destruct y1 as [lo|]; [destruct (truthy_Z lo) eqn:E1|]);
    (destruct y2 as [hi|]; [destruct (truthy_Z hi) eqn:E2|]);
    cbn [truthy_opt coalesce]; rewrite ?Eg, ?E1, ?E2;
    cbn [app eval_where fold_right eval_bound];
    destruct omg as [mg|]; destruct (m_year m) as [y|];
    cbn [option_map and3 is_true3];
    rewrite ?Qeq_bool_inject, ?Qle_bool_inject;
    repeat match goal with
      | |- context [?a =? ?b] => destruct (a =? b)
      | |- context [?a <=? ?b] => destruct (a <=? b)
      end; reflexivity.
Qed.

(** ** The total count *)

Lemma distinct_from_block seen c (blk rest : list Z) :
  (forall x, In x blk -> x = c) ->
  distinct_from Z.eqb seen (blk ++ rest) =
  match blk with
  | [] => distinct_from Z.eqb seen rest
  | _ => distinct_from Z.eqb seen (c :: rest)
  end.
Proof.
  revert seen. induction blk as [|x blk IH]; intros seen H; [reflexivity|].
  assert (x = c) by (apply H; now left). subst x.
  assert (Hblk : forall x, In x blk -> x = c) by (intros; apply H; now right).
  simpl. destruct (memb Z.eqb c seen) eqn:E.
  - rewrite IH by assumption. destruct blk; [reflexivity|]. simpl. now rewrite E.
  - rewrite IH by assumption. destruct blk; [reflexivity|].
    simpl. rewrite Z.eqb_refl. reflexivity.
Qed.

Lemma filter_nil_existsb {A} (f : A -> bool) l :
  filter f l = [] <-> existsb f l = false.
Proof.
  induction l as [|a l IH]; simpl; [tauto|].
  destruct (f a); simpl; [split; discriminate | exact IH].
Qed.

Lemma existsb_map_ext {A B} (f : B -> bool) (h : A -> B) (g : A -> bool) l :
  (forall a, f (h a) = g a) -> existsb f (map h l) = existsb g l.
Proof.
  intros H. induction l as [|a l IH]; simpl; [reflexivity|].
  now rewrite H, IH.
Qed.

Lemma existsb_const {A} (c : bool) (b : A) bs :
  existsb (fun _ => true && c) (b :: bs) = true && c.
Proof.
  destruct c; simpl; [reflexivity|]. induction bs; simpl; auto.
Qed.

(** The rows of one movie in [movies LEFT JOIN movie_genres]. *)
Lemma movie_rows_pass db g y1 y2 m :
  existsb (fun row => where_ok (browse_bounds g y1 y2) (fst row) (snd row))
    (match filter (on_movie_genre m) (movie_genres db) with
     | [] => [(m, None)]
     | bs => map (fun b => (m, Some b)) bs
     end)
  = genre_year_ok db g y1 y2 m.
Proof.
  unfold genre_year_ok.
  set (yy := year_min_ok y1 (m_year m) && year_max_ok y2 (m_year m)).
  assert (Hrow : forall omg,
             where_ok (browse_bounds g y1 y2) m omg = genre_row_ok g omg && yy).
  { intros. rewrite where_ok_browse_bounds. unfold yy. now rewrite andb_assoc. }
  rewrite <- andb_assoc. fold yy. clearbody yy.
  assert (Htag : forall gid,
             existsb (fun b => mg_genre_id b =? gid)
                     (filter (on_movie_genre m) (movie_genres db))
             = tagged db (m_movie_id m) gid).
  { intros gid. unfold tagged. induction (movie_genres db) as [|b l IH];
      [reflexivity|]. simpl. unfold on_movie_genre at 1.
    rewrite (Z.eqb_sym (mg_movie_id b)).
    destruct (m_movie_id m =? mg_movie_id b); simpl; rewrite IH; reflexivity. }
  destruct (filter (on_movie_genre m) (movie_genres db)) as [|b bs] eqn:E.
  - simpl. rewrite Hrow, orb_false_r. f_equal.
    unfold genre_row_ok, genre_ok. destruct g as [gid|]; [|reflexivity].
    destruct (truthy_Z gid); [|reflexivity].
    rewrite <- Htag. reflexivity.
  - rewrite (existsb_map_ext _ _ (fun b0 => genre_row_ok g (Some b0) && yy))
      by (intros; apply Hrow).
    unfold genre_row_ok, genre_ok. destruct g as [gid|].
    + destruct (truthy_Z gid).
      * rewrite <- Htag. generalize (b :: bs). intros l.
        induction l as [|x l IH]; simpl; [reflexivity|].
        rewrite IH. destruct (mg_genre_id x =? gid), yy; simpl;
          rewrite ?orb_true_r, ?andb_false_r, ?andb_true_r; reflexivity.
      * apply existsb_const.
    + apply existsb_const.
Qed.

Lemma count_rows_spec db g y1 y2 :
  count_rows (browse_bounds g y1 y2) db = count_genre_year db g y1 y2.
Proof.
  unfold count_rows, count_genre_year. f_equal. unfold distinct, left_join.
  generalize (@nil Z) as seen.
  induction (movies db) as [|m ms IH]; intros seen; [reflexivity|].
  cbn [flat_map]. rewrite filter_app, map_app.
  rewrite (@distinct_from_block seen (m_movie_id m)).
  2:{ intros x Hx. apply in_map_iff in Hx. destruct Hx as ([m' omg] & <- & Hin).
      apply filter_In in Hin. destruct Hin as [Hin _]. simpl.
      destruct (filter (on_movie_genre m) (movie_genres db)).
      - destruct Hin as [H|[]]. now inversion H.
      - apply in_map_iff in Hin. destruct Hin as (b & H & _). now inversion H. }
  pose proof (movie_rows_pass db g y1 y2 m) as Hpass.
  cbn [filter]. destruct (genre_year_ok db g y1 y2 m).
  - match goal with |- context [map _ (filter ?f ?l)] =>
      destruct (filter f l) as [|row rows] eqn:E end.
    + apply filter_nil_existsb in E. congruence.
    + cbn [map distinct_from]. destruct (memb Z.eqb (m_movie_id m) seen);
        [apply IH | f_equal; apply IH].
  - apply filter_nil_existsb in Hpass. rewrite Hpass. cbn [map]. apply IH.
Qed.

(** ** Where the returned rows come from *)

Lemma plain_rows_origin bs db row :
  In row (browse_plain_rows bs db) ->
  from_kept_row bs db (bm_movie_id row) (bm_year row).
Proof.
  unfold browse_plain_rows. intros H. apply in_map_iff in H.
  destruct H as ([k grp] & <- & Hg). apply in_group_by in Hg.
  destruct Hg as ((r & Hr & Hk) & _). apply filter_In in Hr.
  destruct Hr as [Hin Hw]. destruct r as [[[m omg] og] orr].
  apply in_left_join_left in Hin. unfold movies_with_genres in Hin.
  apply in_left_join_left in Hin. simpl in *. subst k.
  exists m, omg. unfold movie_key. simpl. auto.
Qed.

Lemma cte_rows_origin bs q db mr :
  In mr (movie_ratings_cte bs q db) ->
  from_kept_row bs db (mr_movie_id mr) (mr_year mr).
Proof.
  unfold movie_ratings_cte. intros H. apply in_map_iff in H.
  destruct H as ([k grp] & <- & Hg). apply filter_In in Hg.
  destruct Hg as [Hg _]. apply in_group_by in Hg.
  destruct Hg as ((r & Hr & Hk) & _). apply filter_In in Hr.
  destruct Hr as [Hin Hw]. destruct r as [[m omg] orr].
  apply in_left_join_left in Hin. simpl in *. subst k.
  exists m, omg. unfold movie_key. simpl. auto.
Qed.

Lemma rated_rows_origin bs q db row :
  In row (browse_rated_rows bs q db) ->
  from_kept_row bs db (bm_movie_id row) (bm_year row).
Proof.
  unfold browse_rated_rows. intros H. apply in_map_iff in H.
  destruct H as ([k grp] & <- & Hg). apply in_group_by in Hg.
  destruct Hg as ((r & Hr & Hk) & _). destruct r as [[mr omg] og].
  apply in_left_join_left in Hr. apply in_left_join_left in Hr.
  simpl in *. subst k. now apply cte_rows_origin in Hr.
Qed.

Lemma kept_row_passes db g y1 y2 id year :
  from_kept_row (browse_bounds g y1 y2) db id year ->
  genre_ok db g id = true /\ year_min_ok y1 year = true
  /\ year_max_ok y2 year = true.
Proof.
  intros (m & omg & Hin & Hw & -> & ->).
  rewrite where_ok_browse_bounds in Hw.
  apply andb_true_iff in Hw. destruct Hw as [Hw H2].
  apply andb_true_iff in Hw. destruct Hw as [Hg H1].
  repeat split; try assumption.
  unfold genre_row_ok in Hg. unfold genre_ok.
  destruct g as [gid|]; [|reflexivity].
  destruct (truthy_Z gid); [|reflexivity].
  destruct omg as [mg|]; [|discriminate].
  apply in_left_join_right in Hin. destruct Hin as (_ & Hmg & Hon).
  unfold tagged. apply existsb_exists. exists mg. split; [assumption|].
  unfold on_movie_genre in Hon. rewrite Z.eqb_sym in Hon.
  now rewrite Hon, Hg.
Qed.

(** Every movie [browse_movies] returns passes the genre and year filters
    that are set. *)
Lemma browse_movies_rows_pass g y1 y2 r lim off db res :
  fst (browse_movies g y1 y2 r lim off db) = OK res ->
  Forall (fun m => genre_ok db g (bm_movie_id m) = true
                   /\ year_min_ok y1 (bm_year m) = true
                   /\ year_max_ok y2 (bm_year m) = true)
         (res_movies res).
Proof.
  rewrite browse_movies_unfold. cbv zeta.
  match goal with |- context [limit_offset lim off ?l] =>
    destruct (limit_offset lim off l) as [rows|e] eqn:E
  end; simpl; [|discriminate].
  intros H. inversion H; subst; clear H. simpl.
  apply limit_offset_OK in E. destruct E as (_ & _ & ->).
  apply Forall_forall. intros m Hm. apply in_map_iff in Hm.
  destruct Hm as (row & <- & Hrow). apply in_firstn_skipn in Hrow.
  apply in_order_by in Hrow.
  change (bm_movie_id (browse_dict row)) with (bm_movie_id row).
  change (bm_year (browse_dict row)) with (bm_year row).
  apply kept_row_passes.
  destruct (truthy_opt truthy_Q r);
    [now apply rated_rows_origin in Hrow | now apply plain_rows_origin].
Qed.

(** C1.  Whenever [browse_movies] returns (it raises only on a negative
    limit or offset), [total_count] is the number of movies that pass the
    genre and year filters, whatever the rating floor: the count statement
    runs on the same clauses with [rating_min] dropped from its parameters.
    So with a rating floor the count can exceed the number of movies that
    pass every filter: for one unrated film and a floor of 4 the page list
    is empty, no movie passes, and the count is 1. *)
Theorem browse_total_count_ignores_rating_floor :
  (forall genre_id year_min year_max rating_min lim off db,
      match fst (browse_movies genre_id year_min year_max rating_min
                   lim off db) with
      | OK res =>
          res_total_count res = count_genre_year db genre_id year_min year_max
          /\ OK (res_total_count res)
             = count_sql (fst (browse_where genre_id year_min year_max lim off))
                 (without_keys ["limit"; "offset"; "rating_min"]%string
                    (snd (browse_where genre_id year_min year_max lim off)))
                 db
      | Raise _ => lim < 0 \/ off < 0
      end)
  /\ fst (browse_movies None None None (Some (4 # 1)%Q) 20 0 unrated_db)
     = OK (mkBrowseResult [] 1)
  /\ count_all_filters unrated_db None None None (Some (4 # 1)%Q) = 0.
Proof.
  split; [|split; vm_compute; reflexivity].
  intros g y1 y2 r lim off db. rewrite browse_movies_unfold. cbv zeta.
  match goal with |- context [limit_offset lim off ?l] =>
    destruct (limit_offset lim off l) as [rows|e] eqn:E
  end; simpl.
  - split; [apply count_rows_spec|].
    unfold browse_where, add_filter, browse_bounds, count_sql.
    generalize (coalesce g 0) (coalesce y1 0) (coalesce y2 0).
    generalize (truthy_opt truthy_Z g) (truthy_opt truthy_Z y1)
               (truthy_opt truthy_Z y2).
    intros tg t1 t2 vg v1 v2. destruct tg, t1, t2; reflexivity.
  - eapply limit_offset_Raise; eassumption.
Qed.

(* ================================================================== *)
(** * Keyword search *)
(* ================================================================== *)

(** C6 fails on a query with a LIKE wildcard in it: the pattern is built
    from the query as it stands, so the underscore of "a_c" matches any
    character, and the film "abc" is returned although neither its title
    nor its summary contains "a_c". *)
Theorem keyword_underscore_matches_any_char :
  exists m,
    fst (search_movies_keyword "a_c" 20 underscore_db) = OK [m]
    /\ km_title m = "abc"%string
    /\ km_summary m = Some "nothing here"%string
    /\ mentions "a_c" m = false.
Proof.
  eexists. split; [vm_compute; reflexivity|]. repeat split.
Qed.

(** C3 fails on a query with a backslash in it: LIKE reads the backslash
    as an escape, so the film whose title is exactly the query is not
    counted as a title match, and a film that has the query in its summary
    only is listed before it. *)
Theorem keyword_backslash_exact_title_not_first :
  exists a b,
    fst (search_movies_keyword "a\b" 20 backslash_db) = OK [b; a]
    /\ exact_title "a\b" a
    /\ summary_only "a\b" b
    /\ precedes b a [b; a].
Proof.
  do 2 eexists. split; [vm_compute; reflexivity|].
  split; [reflexivity|]. split.
  - split; [reflexivity|]. eexists. split; reflexivity.
  - exists [], [], []. reflexivity.
Qed.

(** ** Queries without LIKE's special characters *)

Lemma parse_like_plain q rest :
  plain_query q = true ->
  parse_like false (q ++ rest)
  = option_map (app (literal_toks q)) (parse_like false rest).
Proof.
  induction q as [|c q IH]; simpl; intros H.
  - destruct (parse_like false rest); reflexivity.
  - apply andb_true_iff in H. destruct H as [Hc Hq].
    unfold plain_char in Hc. apply negb_true_iff in Hc.
    apply orb_false_iff in Hc. destruct Hc as [Hc Hu].
    apply orb_false_iff in Hc. destruct Hc as [Hb Hp].
    rewrite Hb, Hp, Hu, (IH Hq).
    destruct (parse_like false rest); reflexivity.
Qed.

Lemma keyword_pattern_plain q :
  plain_query q = true ->
  parse_like false (keyword_pattern q)
  = Some (TAny :: literal_toks q ++ [TAny]).
Proof.
  intros H. unfold keyword_pattern.
  change ("%" ++ q ++ "%")%string with (String percent (q ++ "%")%string).
  cbn [parse_like].
  change (Ascii.eqb percent backslash) with false.
  change (Ascii.eqb percent percent) with true. cbv iota.
  rewrite (@parse_like_plain q "%"%string H). reflexivity.
Qed.

(** Whatever the query, the pattern built from it parses: it ends in a
    percent sign, which a pending backslash turns into a literal. *)
Lemma keyword_pattern_parses q :
  exists ts, parse_like false (keyword_pattern q) = Some ts.
Proof.
  unfold keyword_pattern.
  change ("%" ++ q ++ "%")%string with (String percent (q ++ "%")%string).
  cbn [parse_like].
  change (Ascii.eqb percent backslash) with false.
  change (Ascii.eqb percent percent) with true. cbv iota.
  assert (H : forall esc, exists ts,
               parse_like esc (q ++ "%")%string = Some ts).
  { induction q as [|c q IH]; intros esc.
    - destruct esc; eexists; reflexivity.
    - simpl. destruct esc.
      + destruct (IH false) as (ts & ->). eexists; reflexivity.
      + destruct (Ascii.eqb c backslash); [apply IH|].
        destruct (IH false) as (ts & ->).
        destruct (Ascii.eqb c percent); [eexists; reflexivity|].
        destruct (Ascii.eqb c underscore); eexists; reflexivity. }
  destruct (H false) as (ts & ->). eexists; reflexivity.
Qed.

Lemma match_any_unfold f ts s :
  match_toks f (TAny :: ts) s
  = match_toks f ts s
    || match s with
       | String _ s' => match_toks f (TAny :: ts) s'
       | EmptyString => false
       end.
Proof. destruct s; reflexivity. Qed.

Lemma match_any_alone f s : match_toks f [TAny] s = true.
Proof.
  induction s as [|c s IH]; rewrite match_any_unfold; [reflexivity|].
  rewrite IH. apply orb_true_r.
Qed.

Lemma match_literal_prefix q s :
  match_toks lower_ascii (literal_toks q ++ [TAny]) s
  = prefixb (lower q) (lower s).
Proof.
  revert s. induction q as [|c q IH]; intros s.
  - simpl literal_toks. simpl app. rewrite match_any_alone. reflexivity.
  - destruct s as [|d s]; [reflexivity|]. simpl. now rewrite IH.
Qed.

(** For a plain query, ILIKE on the pattern is case-insensitive
    containment. *)
Lemma match_contains q s :
  match_toks lower_ascii (TAny :: literal_toks q ++ [TAny]) s
  = contains_ci q s.
Proof.
  unfold contains_ci. induction s as [|d s IH]; rewrite match_any_unfold.
  - rewrite match_literal_prefix. reflexivity.
  - rewrite match_literal_prefix, IH. reflexivity.
Qed.

Lemma prefixb_refl s : prefixb s s = true.
Proof. induction s; simpl; [reflexivity|]. now rewrite Ascii.eqb_refl. Qed.

Lemma contains_ci_refl s : contains_ci s s = true.
Proof.
  unfold contains_ci. destruct (lower s) eqn:E; simpl; [reflexivity|].
  now rewrite Ascii.eqb_refl, prefixb_refl.
Qed.

Lemma keyword_order_total ts a b :
  keyword_order ts a b = true \/ keyword_order ts b a = true.
Proof.
  unfold keyword_order.
  set (ra := title_rank ts (km_title a)). set (rb := title_rank ts (km_title b)).
  destruct (Z.ltb_spec ra rb); [now left|].
  destruct (Z.ltb_spec rb ra); [now right|].
  assert (E : ra = rb) by lia. rewrite E, Z.eqb_refl. simpl.
  apply String.leb_total.
Qed.

Lemma keyword_order_rank ts a b :
  keyword_order ts a b = true ->
  title_rank ts (km_title a) <= title_rank ts (km_title b).
Proof.
  unfold keyword_order. intros H. apply orb_true_iff in H.
  destruct H as [H|H].
  - apply Z.ltb_lt in H. lia.
  - apply andb_true_iff in H. destruct H as [H _]. apply Z.eqb_eq in H. lia.
Qed.

Lemma StronglySorted_app_r {A} (R : A -> A -> Prop) l1 l2 :
  StronglySorted R (l1 ++ l2) -> StronglySorted R l2.
Proof.
  induction l1 as [|x l1 IH]; simpl; [auto|].
  intros H. apply IH. now inversion H.
Qed.

Lemma StronglySorted_precedes {A} (R : A -> A -> Prop) a b l :
  StronglySorted R l -> precedes a b l -> R a b.
Proof.
  intros Hs (l1 & l2 & l3 & ->). apply StronglySorted_app_r in Hs.
  inversion Hs as [|? ? _ Hall]; subst. rewrite Forall_forall in Hall.
  apply Hall. apply in_or_app. right. now left.
Qed.

Lemma precedes_or {A} (a b : A) l :
  In a l -> In b l -> a <> b -> precedes a b l \/ precedes b a l.
Proof.
  induction l as [|x l IH]; intros Ha Hb Hne; [destruct Ha|].
  destruct Ha as [->|Ha], Hb as [->|Hb].
  - congruence.
  - left. apply in_split in Hb. destruct Hb as (l2 & l3 & ->).
    exists [], l2, l3. reflexivity.
  - right. apply in_split in Ha. destruct Ha as (l2 & l3 & ->).
    exists [], l2, l3. reflexivity.
  - destruct (IH Ha Hb Hne) as [(l1 & l2 & l3 & ->)|(l1 & l2 & l3 & ->)];
      [left | right]; exists (x :: l1), l2, l3; reflexivity.
Qed.

(** The rows of the statement for a parsed pattern: each stems from a
    movie the WHERE clause kept, and they are in rank order. *)
Lemma keyword_sql_rows q lim db ts rows :
  parse_like false (keyword_pattern q) = Some ts ->
  keyword_sql (keyword_pattern q) lim db = OK rows ->
  StronglySorted (fun a b => title_rank ts (km_title a)
                             <= title_rank ts (km_title b)) rows
  /\ Forall (fun row =>
               match_toks lower_ascii ts (km_title row) = true
               \/ exists s, km_summary row = Some s
                            /\ match_toks lower_ascii ts s = true) rows.
Proof.
  intros Hp H. unfold keyword_sql in H. rewrite Hp in H.
  unfold limit in H. apply limit_offset_OK in H. destruct H as (_ & _ & ->).
  split.
  - apply StronglySorted_firstn, StronglySorted_skipn.
    apply order_by_StronglySorted.
    + apply keyword_order_total.
    + apply keyword_order_rank.
    + intros x y z. apply Z.le_trans.
  - apply Forall_firstn_skipn. apply Forall_forall. intros row Hrow.
    apply in_order_by in Hrow. apply in_map_iff in Hrow.
    destruct Hrow as ([k grp] & <- & Hg). apply in_group_by in Hg.
    destruct Hg as ((r & Hr & Hk) & _). apply filter_In in Hr.
    destruct Hr as [_ Hw]. destruct r as [[m omg] og]. simpl in *.
    subst k. unfold keyword_select, movie_key. simpl.
    unfold keyword_where in Hw.
    destruct (match_toks lower_ascii ts (m_title m)); [now left|].
    destruct (m_summary m) as [s|]; [|discriminate]. simpl in Hw.
    destruct (match_toks lower_ascii ts s) eqn:Es; [|discriminate].
    right. exists s. auto.
Qed.

Lemma search_movies_keyword_rows q lim db ms :
  fst (search_movies_keyword q lim db) = OK ms ->
  exists rows,
    keyword_sql (keyword_pattern q) lim db = OK rows
    /\ ms = map keyword_dict rows.
Proof.
  unfold search_movies_keyword, with_db_connection, bind, execute_select.
  simpl. destruct (keyword_sql (keyword_pattern q) lim db) as [rows|e];
    simpl; [|discriminate].
  intros H. inversion H. eauto.
Qed.

(** For ASCII text (the query, the titles and the summaries) and a query
    without percent sign, underscore or backslash, every movie
    [search_movies_keyword] returns has the query in its title or in its
    summary, letter case aside. *)
Theorem keyword_plain_query_hits_mention_query q lim db ms :
  ascii_text q = true -> ascii_catalog db = true ->
  plain_query q = true ->
  fst (search_movies_keyword q lim db) = OK ms ->
  Forall (fun m => mentions q m = true) ms.
Proof.
  intros _ _ Hq H. apply search_movies_keyword_rows in H.
  destruct H as (rows & Hrows & ->).
  apply (@keyword_sql_rows q lim db _ rows (@keyword_pattern_plain q Hq)) in Hrows.
  destruct Hrows as [_ Hall]. apply Forall_forall. intros m Hm.
  apply in_map_iff in Hm. destruct Hm as (row & <- & Hrow).
  rewrite Forall_forall in Hall. specialize (Hall row Hrow).
  unfold mentions. simpl. rewrite !match_contains in Hall.
  destruct Hall as [->|(s & -> & Hs)]; [reflexivity|].
  setoid_rewrite match_contains in Hs. rewrite Hs. apply orb_true_r.
Qed.

Lemma keyword_plain_query_hits_mention_query_witness :
  ascii_text "a" = true /\ ascii_catalog sample_db = true
  /\ exists ms,
       fst (search_movies_keyword "a" 20 sample_db) = OK ms
       /\ List.length ms = 2%nat
       /\ Forall (fun m => mentions "a" m = true) ms.
Proof.
  split; [reflexivity|]. split; [reflexivity|].
  eexists. split; [vm_compute; reflexivity|]. split; [reflexivity|].
  apply (@keyword_plain_query_hits_mention_query "a" 20 sample_db);
    vm_compute; reflexivity.
Defined.

(** For ASCII text (the query, the titles and the summaries) and a query
    without percent sign, underscore or backslash, a returned movie whose
    title is exactly the query stands before every returned movie that has
    the query in its summary only. *)
Theorem keyword_plain_query_exact_title_first q lim db ms a b :
  ascii_text q = true -> ascii_catalog db = true ->
  plain_query q = true ->
  fst (search_movies_keyword q lim db) = OK ms ->
  In a ms -> In b ms ->
  exact_title q a -> summary_only q b ->
  precedes a b ms.
Proof.
  intros _ _ Hq H Ha Hb Hexact (Htitle & _).
  assert (Hne : a <> b).
  { intros ->. unfold exact_title in Hexact. rewrite Hexact in Htitle.
    rewrite contains_ci_refl in Htitle. discriminate. }
  destruct (@precedes_or _ a b ms Ha Hb Hne) as [Hab|Hba]; [exact Hab|exfalso].
  apply search_movies_keyword_rows in H. destruct H as (rows & Hrows & ->).
  apply (@keyword_sql_rows q lim db _ rows (@keyword_pattern_plain q Hq)) in Hrows.
  destruct Hrows as [Hs _].
  set (ts := TAny :: literal_toks q ++ [TAny]) in *.
  assert (Hs' : StronglySorted
                  (fun x y => title_rank ts (km_title x)
                              <= title_rank ts (km_title y))
                  (map keyword_dict rows)).
  { apply StronglySorted_map_on with (P := fun x y =>
        title_rank ts (km_title x) <= title_rank ts (km_title y))
        (G := fun _ => True); [auto | | exact Hs].
    apply Forall_forall. auto. }
  pose proof (@StronglySorted_precedes _ _ b a _ Hs' Hba) as Hrank.
  unfold title_rank, ts in Hrank. rewrite !match_contains in Hrank.
  unfold exact_title in Hexact. rewrite Htitle, Hexact in Hrank.
  rewrite contains_ci_refl in Hrank. lia.
Qed.

(** The ranking at work: "Alien" by title before a film that only
    mentions an alien. *)
Lemma keyword_plain_query_exact_title_first_witness :
  ascii_text "Alien" = true /\ ascii_catalog keyword_db = true
  /\ fst (search_movies_keyword "Alien" 20 keyword_db)
     = OK [keyword_hit_title; keyword_hit_summary]
  /\ precedes keyword_hit_title keyword_hit_summary
       [keyword_hit_title; keyword_hit_summary].
Proof.
  split; [reflexivity|]. split; [reflexivity|].
  split; [vm_compute; reflexivity|].
  apply (@keyword_plain_query_exact_title_first "Alien" 20 keyword_db
           [keyword_hit_title; keyword_hit_summary]
           keyword_hit_title keyword_hit_summary).
  - reflexivity.
  - reflexivity.
  - vm_compute; reflexivity.
  - vm_compute; reflexivity.
  - simpl; auto.
  - simpl; auto.
  - reflexivity.
  - split; [vm_compute; reflexivity|].
    exists "An alien lands"%string. split; vm_compute; reflexivity.
Defined.

(* ================================================================== *)
(** * Worked runs on the sample data *)
(* ================================================================== *)

Example round_numeric_up : round_numeric 3 (2 # 3) = (667 # 1000)%Q.
Proof. reflexivity. Qed.

Example round_numeric_half_away : round_numeric 2 (- (5 # 1000)) = (- (1) # 100)%Q.
Proof. reflexivity. Qed.

Example py_round_half_even : py_round 2 (5 # 1000) = (0 # 100)%Q.
Proof. reflexivity. Qed.

Example like_underscore :
  option_map (fun ts => match_toks lower_ascii ts "ABC")
             (parse_like false "%a_c%")
  = Some true.
Proof. reflexivity. Qed.

Example like_escaped_percent :
  option_map (fun ts => (match_toks lower_ascii ts "100%",
                         match_toks lower_ascii ts "1000"))
             (parse_like false "%100\%%")
  = Some (true, false).
Proof. reflexivity. Qed.

Example like_lone_escape : parse_like false "abc\" = None.
Proof. reflexivity. Qed.

Example add_rating_updates_in_place :
  let '(res, db') := add_rating (mkTimestamp 2024 0) 7 1 (5 # 1) sample_db in
  option_map (fun r => (rr_action r, rr_rating_id r)) (result_of res)
  = Some (updated, 1)
  /\ map r_rating_id (ratings db') = [1; 2; 3]
  /\ rating_id_seq db' = 4.
Proof. vm_compute. repeat split. Qed.

Example add_rating_inserts :
  let '(res, db') := add_rating (mkTimestamp 2024 0) 8 3 (2 # 1) sample_db in
  option_map (fun r => (rr_action r, rr_rating_id r)) (result_of res)
  = Some (created, 4)
  /\ map r_rating_id (ratings db') = [1; 2; 3; 4]
  /\ rating_id_seq db' = 5.
Proof. vm_compute. repeat split. Qed.

Example browse_rating_floor_overstates :
  option_map (fun r => (map bm_movie_id (res_movies r), res_total_count r))
    (result_of (fst (browse_movies (Some 1) None None (Some (4 # 1)%Q) 20 0
                       sample_db)))
  = Some ([1], 2).
Proof. vm_compute. reflexivity. Qed.

Example browse_negative_offset :
  fst (browse_movies None None None None (-1) (-1) sample_db)
  = Raise NegativeOffset.
Proof. vm_compute. reflexivity. Qed.

Example analytics_on_sample :
  option_map (map fst) (result_of (fst (get_analytics_data sample_db)))
  = Some ["top_movies"; "genre_distribution"; "ratings_by_year";
          "avg_rating_by_genre"; "movies_by_decade"]%string.
Proof. vm_compute. reflexivity. Qed.

Example decades_on_sample :
  option_map (dict_get "movies_by_decade")
             (result_of (fst (get_analytics_data sample_db)))
  = Some (Some (MoviesByDecade
                  [mkDecadeCount "1970s" 1; mkDecadeCount "1980s" 1;
                   mkDecadeCount "1990s" 1])).
Proof. vm_compute. reflexivity. Qed.

Example semantic_order_on_sample :
  option_map (map (fun m => (sm_movie_id m, sm_similarity m)))
    (result_of
       (fst (search_movies_semantic
               (fun _ _ => [0%Q])
               (fun v _ => Num (match v with x :: _ => x | [] => 0%Q end))
               "heist" 10
               (mkDB [mkMovie 1 "Heat" None None (Some [(1 # 4)%Q]);
                      mkMovie 2 "Alien" None None (Some [(1 # 8)%Q]);
                      mkMovie 3 "Clue" None None None]
                     [] [] [] [] [] 1))))
  = Some [(2, Num (875 # 1000)); (1, Num (750 # 1000))].
Proof. vm_compute. reflexivity. Qed.

(* ================================================================== *)
(** * More on the write path *)
(* ================================================================== *)

Lemma filter_nil_none {A} (f : A -> bool) l x :
  filter f l = [] -> In x l -> f x = false.
Proof.
  intros E Hin. destruct (f x) eqn:Hx; [|reflexivity].
  assert (H : In x (filter f l)) by (apply filter_In; auto).
  rewrite E in H. destruct H.
Qed.




Lemma pair_set_clause now u m q r :
  rating_pair (set_clause now u m q r) = rating_pair r.
Proof. unfold set_clause. destruct (rating_of u m r); reflexivity. Qed.

Lemma id_set_clause now u m q r :
  r_rating_id (set_clause now u m q r) = r_rating_id r.
Proof. unfold set_clause. destruct (rating_of u m r); reflexivity. Qed.



Lemma NoDup_snoc {A} (l : list A) x :
  NoDup l -> ~ In x l -> NoDup (l ++ [x]).
Proof.
  intros Hl Hx. apply (Permutation_NoDup (l := x :: l)).
  - apply Permutation_cons_append.
  - now constructor.
Qed.

(** Sound keys stay sound: an update keeps the identifiers, an insert
    takes the next value of the sequence, which no row has. *)
Theorem add_rating_keeps_keys_in_order now user_id movie_id rating db :
  keys_in_order db ->
  keys_in_order (snd (add_rating now user_id movie_id rating db)).
Proof.
  intros [Hnd Hlt]. rewrite add_rating_unfold. unfold keys_in_order.
  destruct (filter (rating_of user_id movie_id) (ratings db))
    as [|prior rest]; simpl.
  - rewrite map_app. simpl. split.
    + apply NoDup_snoc; [assumption|]. intros Hin.
      apply in_map_iff in Hin. destruct Hin as (r & Hid & Hr).
      rewrite Forall_forall in Hlt. specialize (Hlt r Hr). lia.
    + apply Forall_app. split.
      * eapply Forall_impl; [|exact Hlt]. simpl. intros; lia.
      * repeat constructor. simpl. lia.
  - rewrite map_map. split.
    + erewrite map_ext; [exact Hnd|]. intros. apply id_set_clause.
    + apply Forall_forall. intros r Hr. apply in_map_iff in Hr.
      destruct Hr as (r0 & <- & Hr0). rewrite id_set_clause.
      rewrite Forall_forall in Hlt. now apply Hlt.
Qed.

Lemma add_rating_keeps_keys_in_order_witness :
  keys_in_order sample_db
  /\ keys_in_order (snd (add_rating (mkTimestamp 2024 0) 8 3 (2 # 1) sample_db)).
Proof.
  assert (H : keys_in_order sample_db).
  { split.
    - simpl. repeat constructor; simpl; intuition discriminate.
    - simpl. repeat constructor; simpl; lia. }
  split; [exact H|].
  apply (@add_rating_keeps_keys_in_order (mkTimestamp 2024 0) 8 3 (2 # 1)
           sample_db H).
Defined.

(** If nobody has two ratings for one movie, that is still so after
    [add_rating]: it inserts only when the lookup found nothing. *)
Theorem add_rating_keeps_one_rating_per_pair now user_id movie_id rating db :
  one_rating_per_pair db ->
  one_rating_per_pair (snd (add_rating now user_id movie_id rating db)).
Proof.
  unfold one_rating_per_pair. intros Hnd. rewrite add_rating_unfold.
  destruct (filter (rating_of user_id movie_id) (ratings db))
    as [|prior rest] eqn:E; simpl.
  - rewrite map_app. simpl. apply NoDup_snoc; [assumption|].
    intros Hin. apply in_map_iff in Hin. destruct Hin as (r & Hp & Hr).
    pose proof (filter_nil_none _ _ r E Hr) as Hno.
    unfold rating_pair, inserted_row in Hp. simpl in Hp. inversion Hp.
    unfold rating_of in Hno. rewrite H0, H1, !Z.eqb_refl in Hno. discriminate.
  - rewrite map_map. erewrite map_ext; [exact Hnd|].
    intros. apply pair_set_clause.
Qed.

Lemma add_rating_keeps_one_rating_per_pair_witness :
  one_rating_per_pair sample_db
  /\ one_rating_per_pair
       (snd (add_rating (mkTimestamp 2024 0) 8 3 (2 # 1) sample_db)).
Proof.
  assert (H : one_rating_per_pair sample_db).
  { unfold one_rating_per_pair. simpl.
    repeat constructor; simpl; intuition discriminate. }
  split; [exact H|].
  apply (@add_rating_keeps_one_rating_per_pair (mkTimestamp 2024 0) 8 3
           (2 # 1) sample_db H).
Defined.



(* ================================================================== *)
(** * More on the read functions *)
(* ================================================================== *)

Lemma left_join_covers {A B} (on : A -> B -> bool) l r a :
  In a l -> exists ob, In (a, ob) (left_join on l r).
Proof.
  intros Ha. destruct (filter (on a) r) as [|b bs] eqn:E.
  - exists None. apply in_left_join_null. auto.
  - exists (Some b). apply in_left_join_right.
    assert (Hb : In b (filter (on a) r)) by (rewrite E; now left).
    apply filter_In in Hb. tauto.
Qed.

Lemma insert_sorted_perm {A} (leb : A -> A -> bool) x l :
  Permutation (insert_sorted leb x l) (x :: l).
Proof.
  induction l as [|y l IH]; simpl; [reflexivity|].
  destruct (leb x y); [reflexivity|].
  rewrite IH. apply perm_swap.
Qed.

(** Sorting loses and invents no row. *)
Lemma order_by_perm {A} (leb : A -> A -> bool) l :
  Permutation (order_by leb l) l.
Proof.
  induction l as [|x l IH]; simpl; [reflexivity|].
  rewrite insert_sorted_perm. now constructor.
Qed.

Lemma distinct_from_nonempty {K} (eqb : K -> K -> bool) k l :
  distinct eqb (k :: l) <> [].
Proof. unfold distinct. simpl. discriminate. Qed.

Lemma ascii_compare_lt_trans x y z :
  Ascii.compare x y = Lt -> Ascii.compare y z = Lt -> Ascii.compare x z = Lt.
Proof.
  unfold Ascii.compare. rewrite !N.compare_lt_iff. apply N.lt_trans.
Qed.

Lemma string_compare_not_gt_trans a b c :
  String.compare a b <> Gt -> String.compare b c <> Gt ->
  String.compare a c <> Gt.
Proof.
  revert b c. induction a as [|x a IH]; intros [|y b] [|z c]; simpl;
    try congruence.
  destruct (Ascii.compare x y) eqn:Exy; try congruence.
  - apply Ascii.compare_eq_iff in Exy. subst y.
    destruct (Ascii.compare x z) eqn:Exz; try congruence. apply IH.
  - destruct (Ascii.compare y z) eqn:Eyz; try congruence.
    + apply Ascii.compare_eq_iff in Eyz. subst z. rewrite Exy. congruence.
    + rewrite (ascii_compare_lt_trans _ _ _ Exy Eyz). congruence.
Qed.

Lemma string_leb_trans a b c :
  String.leb a b = true -> String.leb b c = true -> String.leb a c = true.
Proof.
  unfold String.leb. intros Hab Hbc.
  pose proof (@string_compare_not_gt_trans a b c) as H.
  destruct (String.compare a b); destruct (String.compare b c);
    destruct (String.compare a c); try reflexivity; try discriminate;
    exfalso; apply H; congruence.
Qed.

(** [get_genres] always returns, and its list is the genres table put in
    the order of the names: the same rows, each as often as the table has
    it, every earlier name no later than every later one. *)
Theorem get_genres_sorted_permutation (db : DB) :
  exists gs,
    fst (get_genres db) = OK gs
    /\ Permutation gs (genres db)
    /\ StronglySorted
         (fun a b => String.leb (g_genre_name a) (g_genre_name b) = true) gs.
Proof.
  exists (order_by genre_leb (genres db)). split; [|split].
  - unfold get_genres, with_db_connection, bind, execute_select, ret. simpl.
    f_equal. rewrite <- (map_id (order_by genre_leb (genres db))) at 2.
    apply map_ext. intros [i n]. reflexivity.
  - apply order_by_perm.
  - apply order_by_StronglySorted.
    + intros x y. apply String.leb_total.
    + auto.
    + intros x y z. apply string_leb_trans.
Qed.

(** The rows of the details statement stem from movies with the
    identifier asked for. *)
Lemma details_sql_rows id db :
  exists rows,
    details_sql id db = OK rows
    /\ (rows = [] -> forall m, In m (movies db) -> m_movie_id m <> id)
    /\ Forall (fun row =>
                 md_movie_id row = id
                 /\ md_imdb_url row = None /\ md_tmdb_url row = None
                 /\ exists m, In m (movies db) /\ m_movie_id m = id
                              /\ md_title row = m_title m
                              /\ md_year row = m_year m
                              /\ md_summary row = m_summary m) rows.
Proof.
  unfold details_sql. eexists. split; [reflexivity|]. split.
  - intros Hnil m Hm Hid.
    apply map_eq_nil in Hnil. unfold group_by in Hnil.
    apply map_eq_nil in Hnil.
    destruct (left_join_covers on_movie_genre (movies db) (movie_genres db)
                m Hm) as (omg & H1).
    destruct (left_join_covers on_genre _ (genres db) _ H1) as (og & H2).
    destruct (left_join_covers
                (fun row r => on_rating_of (m_movie_id (fst (fst row))) r)
                _ (ratings db) _ H2) as (orr & H3).
    destruct (left_join_covers
                (fun row l => m_movie_id (fst (fst (fst row))) =? l_movie_id l)
                _ (links db) _ H3) as (ol & H4).
    match type of Hnil with distinct _ (map ?k (filter ?f ?l)) = [] =>
      assert (Hin : In (m, omg, og, orr, ol) (filter f l))
    end.
    { apply filter_In. split; [exact H4|]. simpl. now apply Z.eqb_eq. }
    match type of Hnil with distinct _ (map ?k ?l) = [] =>
      destruct l as [|r0 rs]; [destruct Hin|]
    end.
    simpl map in Hnil. revert Hnil. apply distinct_from_nonempty.
  - apply Forall_forall. intros row Hrow. apply in_map_iff in Hrow.
    destruct Hrow as ([k grp] & <- & Hg). apply in_group_by in Hg.
    destruct Hg as ((r & Hr & Hk) & _). apply filter_In in Hr.
    destruct Hr as [Hin Hid]. destruct r as [[[[m omg] og] orr] ol].
    do 4 apply in_left_join_left in Hin. simpl in *. subst k.
    apply Z.eqb_eq in Hid. unfold movie_key. simpl.
    repeat split; try assumption. exists m. auto.
Qed.

(** For an identifier that fits a 32-bit integer, [get_movie_details]
    does not raise; it returns [None] exactly when no movie has the
    identifier, and otherwise the identifier, title, year and summary of a
    movie that has it.  A link is built only from an external identifier
    that is there and not empty. *)
Theorem get_movie_details_found_iff_present (movie_id : Z) (db : DB) :
  fits_int4 movie_id ->
  match fst (get_movie_details movie_id db) with
  | OK (Some d) =>
      md_movie_id d = movie_id
      /\ (exists m, In m (movies db) /\ m_movie_id m = movie_id
                    /\ md_title d = m_title m /\ md_year d = m_year m
                    /\ md_summary d = m_summary m)
      /\ md_imdb_url d
         = (if truthy_opt truthy_string (md_imdb_id d)
            then option_map
                   (fun i => ("https://www.imdb.com/title/" ++ i ++ "/")%string)
                   (md_imdb_id d)
            else None)
      /\ md_tmdb_url d
         = (if truthy_opt truthy_string (md_tmdb_id d)
            then option_map
                   (fun i => ("https://www.themoviedb.org/movie/" ++ i)%string)
                   (md_tmdb_id d)
            else None)
  | OK None => forall m, In m (movies db) -> m_movie_id m <> movie_id
  | Raise _ => False
  end.
Proof.
  intros _.
  destruct (details_sql_rows movie_id db) as (rows & E & Hnil & Hall).
  unfold get_movie_details, with_db_connection, bind, execute_select.
  cbv beta iota. cbn [working]. rewrite E. cbv beta iota.
  destruct rows as [|row rows]; cbn [fetchone hd_error ret fst].
  - now apply Hnil.
  - inversion Hall as [|? ? (Hid & _ & _ & Hm) _]; subst.
    cbn. repeat split; assumption.
Qed.

Lemma get_movie_details_found_iff_present_witness :
  fits_int4 2
  /\ exists d, fst (get_movie_details 2 sample_db) = OK (Some d)
               /\ md_movie_id d = 2.
Proof.
  assert (F : fits_int4 2) by (unfold fits_int4; lia).
  split; [exact F|].
  pose proof (@get_movie_details_found_iff_present 2 sample_db F) as H.
  destruct (fst (get_movie_details 2 sample_db)) as [[d|]|e] eqn:E.
  - exists d. split; [reflexivity|]. apply H.
  - vm_compute in E. discriminate.
  - destruct H.
Defined.

(* ================================================================== *)
(** * Limits, errors and order of the list functions *)
(* ================================================================== *)

Lemma limit_offset_cases {A} lim off (l : list A) :
  match limit_offset lim off l with
  | OK l' =>
      0 <= lim /\ 0 <= off
      /\ l' = firstn (Z.to_nat lim) (skipn (Z.to_nat off) l)
      /\ (List.length l' <= Z.to_nat lim)%nat
  | Raise e =>
      (off < 0 /\ e = NegativeOffset)
      \/ (0 <= off /\ lim < 0 /\ e = NegativeLimit)
  end.
Proof.
  unfold limit_offset.
  destruct (Z.ltb_spec off 0); [left; auto|].
  destruct (Z.ltb_spec lim 0); [right; auto|].
  repeat split; try assumption. apply firstn_le_length.
Qed.

Lemma limit_cases {A} lim (l : list A) :
  match limit lim l with
  | OK l' => 0 <= lim /\ l' = firstn (Z.to_nat lim) l
             /\ (List.length l' <= Z.to_nat lim)%nat
  | Raise e => e = NegativeLimit /\ lim < 0
  end.
Proof.
  unfold limit. pose proof (limit_offset_cases lim 0 l) as H.
  destruct (limit_offset lim 0 l).
  - destruct H as (H1 & _ & H2 & H3). auto.
  - destruct H as [[H _]|(_ & H1 & H2)]; [lia | auto].
Qed.

(** For a query without NUL and a limit that fits a 32-bit integer: no
    query text makes the pattern invalid, [search_movies_keyword] raises
    only for a negative limit, and otherwise returns at most [limit]
    movies. *)
Theorem search_movies_keyword_limit (query : string) (lim : Z) (db : DB) :
  no_nul query = true -> fits_int4 lim ->
  match fst (search_movies_keyword query lim db) with
  | OK ms => 0 <= lim /\ (List.length ms <= Z.to_nat lim)%nat
  | Raise e => e = NegativeLimit /\ lim < 0
  end.
Proof.
  intros _ _.
  destruct (keyword_pattern_parses query) as (ts & Hts).
  unfold search_movies_keyword, with_db_connection, bind, execute_select.
  cbv beta iota zeta. cbn [working]. unfold keyword_sql. rewrite Hts.
  match goal with |- context [limit lim ?l] =>
    pose proof (limit_cases lim l) as H; destruct (limit lim l)
  end; cbn.
  - destruct H as (H1 & _ & H2). rewrite length_map. auto.
  - exact H.
Qed.

Lemma search_movies_keyword_limit_witness :
  exists ms, fst (search_movies_keyword "a" 1 sample_db) = OK ms
             /\ (List.length ms <= 1)%nat.
Proof.
  assert (F : fits_int4 1) by (unfold fits_int4; lia).
  pose proof (@search_movies_keyword_limit "a" 1 sample_db eq_refl F) as H.
  destruct (fst (search_movies_keyword "a" 1 sample_db)) as [ms|e].
  - exists ms. split; [reflexivity | apply H].
  - exfalso. destruct H as [_ H]. lia.
Defined.

(** For a query without NUL that the embedding function accepts (it is
    taken as total here) and a limit that fits a 32-bit integer,
    [search_movies_semantic] raises only for a negative limit, and
    otherwise returns at most [limit] movies. *)
Theorem search_movies_semantic_limit
        (emb : string -> string -> Vector) (cd : Vector -> Vector -> Number)
        (query : string) (lim : Z) (db : DB) :
  no_nul query = true -> fits_int4 lim ->
  match fst (search_movies_semantic emb cd query lim db) with
  | OK ms => 0 <= lim /\ (List.length ms <= Z.to_nat lim)%nat
  | Raise e => e = NegativeLimit /\ lim < 0
  end.
Proof.
  intros _ _.
  unfold search_movies_semantic, with_db_connection, bind, execute_select.
  cbv beta iota zeta. cbn [working]. unfold semantic_sql.
  match goal with |- context [limit lim ?l] =>
    pose proof (limit_cases lim l) as H; destruct (limit lim l)
  end; cbn.
  - destruct H as (H1 & _ & H2). rewrite length_map. auto.
  - exact H.
Qed.

Lemma search_movies_semantic_limit_witness :
  exists ms,
    fst (search_movies_semantic unit_embedding nan_on_zero_distance
           "heist" 1 zero_vector_db) = OK ms
    /\ (List.length ms <= 1)%nat.
Proof.
  assert (F : fits_int4 1) by (unfold fits_int4; lia).
  pose proof (@search_movies_semantic_limit unit_embedding
                nan_on_zero_distance "heist" 1 zero_vector_db eq_refl F) as H.
  destruct (fst (search_movies_semantic unit_embedding nan_on_zero_distance
                   "heist" 1 zero_vector_db)) as [ms|e].
  - exists ms. split; [reflexivity | apply H].
  - exfalso. destruct H as [_ H]. lia.
Defined.

(** For a genre, years, limit and offset that fit 32-bit integers,
    [browse_movies] raises exactly for a negative offset or, the offset
    being fine, a negative limit; otherwise it returns at most [limit]
    movies. *)
Theorem browse_movies_limit
        (genre_id year_min year_max : option Z) (rating_min : option Q)
        (lim off : Z) (db : DB) :
  opt_fits_int4 genre_id -> opt_fits_int4 year_min -> opt_fits_int4 year_max ->
  fits_int4 lim -> fits_int4 off ->
  match fst (browse_movies genre_id year_min year_max rating_min lim off db)
  with
  | OK res =>
      0 <= lim /\ 0 <= off
      /\ (List.length (res_movies res) <= Z.to_nat lim)%nat
  | Raise e =>
      (off < 0 /\ e = NegativeOffset)
      \/ (0 <= off /\ lim < 0 /\ e = NegativeLimit)
  end.
Proof.
  intros _ _ _ _ _.
  rewrite browse_movies_unfold. cbv zeta.
  match goal with |- context [limit_offset lim off ?l] =>
    pose proof (limit_offset_cases lim off l) as H;
    destruct (limit_offset lim off l)
  end; cbn.
  - destruct H as (H1 & H2 & _ & H3). rewrite length_map. auto.
  - exact H.
Qed.

Lemma browse_movies_limit_witness :
  fst (browse_movies (Some 1) (Some 1980) (Some 2000) None 20 (-1) sample_db)
  = Raise NegativeOffset
  /\ exists res,
       fst (browse_movies (Some 1) (Some 1980) (Some 2000) None 1 0 sample_db)
       = OK res
       /\ (List.length (res_movies res) <= 1)%nat.
Proof.
  assert (F : forall z, - 100 <= z <= 3000 -> fits_int4 z)
    by (unfold fits_int4; lia).
  split.
  - pose proof (@browse_movies_limit (Some 1) (Some 1980) (Some 2000) None
                  20 (-1) sample_db
                  (F 1 ltac:(lia)) (F 1980 ltac:(lia)) (F 2000 ltac:(lia))
                  (F 20 ltac:(lia)) (F (-1) ltac:(lia))) as H.
    destruct (fst (browse_movies (Some 1) (Some 1980) (Some 2000) None
                     20 (-1) sample_db)) as [res|e].
    + exfalso. lia.
    + destruct H as [[_ ->]|(H & _)]; [reflexivity | lia].
  - pose proof (@browse_movies_limit (Some 1) (Some 1980) (Some 2000) None
                  1 0 sample_db
                  (F 1 ltac:(lia)) (F 1980 ltac:(lia)) (F 2000 ltac:(lia))
                  (F 1 ltac:(lia)) (F 0 ltac:(lia))) as H.
    destruct (fst (browse_movies (Some 1) (Some 1980) (Some 2000) None
                     1 0 sample_db)) as [res|e].
    + exists res. split; [reflexivity | apply H].
    + exfalso. destruct H as [[H _]|(_ & H & _)]; lia.
Defined.

Lemma firstn_add {A} (a b : nat) (l : list A) :
  firstn (a + b) l = firstn a l ++ firstn b (skipn a l).
Proof.
  revert l. induction a as [|a IH]; intros l; [reflexivity|].
  destruct l as [|x l]; simpl.
  - now rewrite firstn_nil.
  - now rewrite IH.
Qed.

(** Pages fit together.  For filters, sizes and an offset that fit 32-bit
    integers, none negative: the page of [n1] movies at [off] and the page
    of [n2] at [off + n1] have together as many movies as the page of
    [n1 + n2] at [off], and all three calls report the same total.  When
    no two rows that the statement selects tie in average and count, so
    that the order is fixed, the first two pages one after the other are
    the third. *)
Theorem browse_pages_concatenate
        (genre_id year_min year_max : option Z) (rating_min : option Q)
        (n1 n2 off : Z) (db : DB) :
  opt_fits_int4 genre_id -> opt_fits_int4 year_min -> opt_fits_int4 year_max ->
  fits_int4 (n1 + n2) -> fits_int4 (off + n1) ->
  0 <= n1 -> 0 <= n2 -> 0 <= off ->
  exists p1 p2 p12,
    fst (browse_movies genre_id year_min year_max rating_min n1 off db)
    = OK p1
    /\ fst (browse_movies genre_id year_min year_max rating_min n2 (off + n1)
              db) = OK p2
    /\ fst (browse_movies genre_id year_min year_max rating_min (n1 + n2) off
              db) = OK p12
    /\ List.length (res_movies p12)
       = (List.length (res_movies p1) + List.length (res_movies p2))%nat
    /\ res_total_count p1 = res_total_count p12
    /\ res_total_count p2 = res_total_count p12
    /\ (no_ties (browse_rows genre_id year_min year_max rating_min db) = true
        -> res_movies p12 = res_movies p1 ++ res_movies p2).
Proof.
  intros _ _ _ _ _ H1 H2 Ho. rewrite !browse_movies_unfold. cbv zeta.
  rewrite !limit_offset_total by lia. cbn [rbind].
  do 3 eexists. split; [reflexivity|]. split; [reflexivity|].
  split; [reflexivity|]. cbn [res_movies res_total_count].
  assert (E : forall A (l : list A),
             firstn (Z.to_nat (n1 + n2)) (skipn (Z.to_nat off) l)
             = firstn (Z.to_nat n1) (skipn (Z.to_nat off) l)
               ++ firstn (Z.to_nat n2) (skipn (Z.to_nat (off + n1)) l)).
  { intros A l. rewrite (Z2Nat.inj_add n1 n2) by lia. rewrite firstn_add.
    f_equal. rewrite skipn_skipn. rewrite (Z2Nat.inj_add off n1) by lia.
    rewrite (Nat.add_comm (Z.to_nat off)). reflexivity. }
  split; [|split; [reflexivity|split; [reflexivity|]]].
  - rewrite E, map_app, length_app. reflexivity.
  - intros _. rewrite E, map_app. reflexivity.
Qed.

Lemma browse_pages_concatenate_witness :
  no_ties (browse_rows None None None None sample_db) = true
  /\ exists p1 p2 p12,
       fst (browse_movies None None None None 1 0 sample_db) = OK p1
       /\ fst (browse_movies None None None None 2 (0 + 1) sample_db) = OK p2
       /\ fst (browse_movies None None None None (1 + 2) 0 sample_db) = OK p12
       /\ res_movies p12 = res_movies p1 ++ res_movies p2.
Proof.
  assert (T : no_ties (browse_rows None None None None sample_db) = true)
    by (vm_compute; reflexivity).
  split; [exact T|].
  destruct (@browse_pages_concatenate None None None None 1 2 0 sample_db
              I I I ltac:(unfold fits_int4; lia) ltac:(unfold fits_int4; lia)
              ltac:(lia) ltac:(lia) ltac:(lia))
    as (p1 & p2 & p12 & E1 & E2 & E12 & _ & _ & _ & Hcat).
  exists p1, p2, p12. auto.
Defined.

(* ================================================================== *)
(** * Browse: the order of a page and the rating floor *)
(* ================================================================== *)

Local Open Scope Q_scope.

Lemma py_round_numerator d x :
  exists n, py_round d x = n # scale10 d
            /\ (Qfloor (x * inject_Z (Zpos (scale10 d))) <= n
                <= Qfloor (x * inject_Z (Zpos (scale10 d))) + 1)%Z.
Proof.
  unfold py_round. cbv zeta.
  destruct (Qcompare _ _); [destruct (Z.even _)| |];
    eexists; (split; [reflexivity | lia]).
Qed.

(** Python's rounding keeps the order. *)
Lemma py_round_mono (d : nat) (x y : Q) :
  x <= y -> py_round d x <= py_round d y.
Proof.
  intros Hxy.
  assert (Hs : 0 <= inject_Z (Zpos (scale10 d))) by (unfold Qle; simpl; lia).
  assert (HXY : x * inject_Z (Zpos (scale10 d))
                <= y * inject_Z (Zpos (scale10 d)))
    by (apply Qmult_le_compat_r; assumption).
  pose proof (Qfloor_resp_le _ _ HXY) as Hf.
  destruct (Z.eq_dec (Qfloor (x * inject_Z (Zpos (scale10 d))))
                     (Qfloor (y * inject_Z (Zpos (scale10 d))))) as [E|N].
  - unfold py_round. cbv zeta. rewrite <- E.
    set (X := x * inject_Z (Zpos (scale10 d))) in *.
    set (Y := y * inject_Z (Zpos (scale10 d))) in *.
    set (f := Qfloor X) in *. clearbody f. clearbody X Y.
    destruct (Qcompare (X - inject_Z f) (1 # 2)) eqn:Cx;
      destruct (Qcompare (Y - inject_Z f) (1 # 2)) eqn:Cy;
      repeat match goal with
        | H : (_ ?= _) = Eq |- _ => apply Qeq_alt in H
        | H : (_ ?= _) = Lt |- _ => apply Qlt_alt in H
        | H : (_ ?= _) = Gt |- _ => apply Qgt_alt in H
        end;
      try (exfalso; lra);
      try (destruct (Z.even f)); apply Qmake_le_same; lia.
  - destruct (py_round_numerator d x) as (nx & -> & Hx).
    destruct (py_round_numerator d y) as (ny & -> & Hy).
    apply Qmake_le_same. lia.
Qed.

Lemma py_round_zero d : py_round d 0 == 0.
Proof.
  unfold py_round. cbv zeta.
  change (0 * inject_Z (Z.pos (scale10 d))) with (0 # 1).
  reflexivity.
Qed.

(** What [browse_movies] shows for an average is its rounding, also when
    the average is zero and the rounding is skipped. *)
Lemma shown_avg_rounds (a : Q) :
  (if truthy_Q a then py_round 2 a else 0) == py_round 2 a.
Proof.
  unfold truthy_Q. destruct (Qeq_bool a 0) eqn:E; simpl; [|reflexivity].
  apply Qeq_bool_iff in E. apply Qle_antisym.
  - rewrite <- (py_round_zero 2). apply py_round_mono. rewrite E. apply Qle_refl.
  - rewrite <- (py_round_zero 2). apply py_round_mono. rewrite E. apply Qle_refl.
Qed.

Lemma browse_order_total a b :
  browse_order a b = true \/ browse_order b a = true.
Proof.
  unfold browse_order.
  destruct (Qle_bool (bm_avg_rating a) (bm_avg_rating b)) eqn:Eab;
    [|now left].
  destruct (Qle_bool (bm_avg_rating b) (bm_avg_rating a)) eqn:Eba;
    [|now right].
  apply Qle_bool_iff in Eab, Eba.
  assert (E : bm_avg_rating a == bm_avg_rating b) by now apply Qle_antisym.
  assert (E1 : Qeq_bool (bm_avg_rating a) (bm_avg_rating b) = true)
    by now apply Qeq_bool_iff.
  assert (E2 : Qeq_bool (bm_avg_rating b) (bm_avg_rating a) = true)
    by (apply Qeq_bool_iff; now symmetry).
  rewrite E1, E2. simpl.
  destruct (Z.leb_spec (bm_rating_count b) (bm_rating_count a)); [now left|].
  right. apply Z.leb_le. lia.
Qed.

Lemma browse_order_avg a b :
  browse_order a b = true -> bm_avg_rating b <= bm_avg_rating a.
Proof.
  unfold browse_order. intros H. apply orb_true_iff in H.
  destruct H as [H|H].
  - apply negb_true_iff in H. apply Qlt_le_weak. apply Qnot_le_lt.
    intros Hle. apply Qle_bool_iff in Hle. congruence.
  - apply andb_true_iff in H. destruct H as [H _].
    apply Qeq_bool_iff in H. rewrite H. apply Qle_refl.
Qed.

(** A page of [browse_movies] lists the movies in non-increasing order of
    the average rating it shows. *)
Theorem browse_movies_sorted_by_average
        (genre_id year_min year_max : option Z) (rating_min : option Q)
        (lim off : Z) (db : DB) :
  match fst (browse_movies genre_id year_min year_max rating_min lim off db)
  with
  | OK res =>
      StronglySorted (fun a b => bm_avg_rating b <= bm_avg_rating a)
                     (res_movies res)
  | Raise _ => (lim < 0 \/ off < 0)%Z
  end.
Proof.
  rewrite browse_movies_unfold. cbv zeta.
  match goal with |- context [limit_offset lim off ?l] =>
    destruct (limit_offset lim off l) as [rows|e] eqn:E
  end; cbn.
  2:{ eapply limit_offset_Raise; eassumption. }
  apply limit_offset_OK in E. destruct E as (_ & _ & ->).
  apply StronglySorted_map_on
    with (P := fun a b => bm_avg_rating b <= bm_avg_rating a)
         (G := fun _ => True).
  - intros a b _ _ H. unfold browse_dict. cbn [bm_avg_rating].
    rewrite !shown_avg_rounds. now apply py_round_mono.
  - apply Forall_forall. auto.
  - apply StronglySorted_firstn, StronglySorted_skipn.
    apply order_by_StronglySorted.
    + apply browse_order_total.
    + apply browse_order_avg.
    + intros x y z Hxy Hyz. eapply Qle_trans; eassumption.
Qed.

Local Close Scope Q_scope.

(* ================================================================== *)
(** * More on the analytics *)
(* ================================================================== *)

Lemma mapM_Forall2 {A B} (f : A -> Result B) l l' :
  mapM f l = OK l' -> Forall2 (fun a b => f a = OK b) l l'.
Proof.
  revert l'. induction l as [|a l IH]; intros l' H; simpl in H.
  - inversion H. constructor.
  - destruct (f a) as [b|e] eqn:Ea; simpl in H; [|discriminate].
    destruct (mapM f l) as [bs|e]; simpl in H; [|discriminate].
    inversion H; subst. constructor; auto.
Qed.

Lemma Forall2_map_eq {A B C} (F : A -> B -> Prop) (g : B -> C) (h : A -> C)
      l l' :
  (forall a b, F a b -> g b = h a) ->
  Forall2 F l l' -> map g l' = map h l.
Proof.
  intros H. induction 1; simpl; [reflexivity|]. f_equal; auto.
Qed.

Lemma StronglySorted_Forall2 {A B} (P : A -> A -> Prop) (S : B -> B -> Prop)
      (F : A -> B -> Prop) l l' :
  (forall a b a' b', P a b -> F a a' -> F b b' -> S a' b') ->
  Forall2 F l l' -> StronglySorted P l -> StronglySorted S l'.
Proof.
  intros H HF. induction HF as [|a a' l l' Ha HF IH]; intros Hs;
    constructor; inversion Hs as [|? ? Hs' Hall]; subst.
  - now apply IH.
  - clear IH Hs Hs'. induction HF as [|b b' l l' Hb HF IH]; constructor.
    + inversion Hall; subst. eapply H; eassumption.
    + apply IH. now inversion Hall.
Qed.

Lemma Forall2_length_eq {A B} (F : A -> B -> Prop) l l' :
  Forall2 F l l' -> List.length l' = List.length l.
Proof. induction 1; simpl; congruence. Qed.

(** [get_analytics_data], statement by statement. *)
Lemma get_analytics_data_parts db :
  exists r1 top dist r3 by_year r4 by_genre decades,
    top_movies_sql db = OK r1 /\ mapM top_movie_dict r1 = OK top
    /\ genre_dist_sql db = OK dist
    /\ ratings_time_sql db = OK r3 /\ mapM year_stat_dict r3 = OK by_year
    /\ genre_ratings_sql db = OK r4 /\ mapM genre_rating_dict r4 = OK by_genre
    /\ decade_sql db = OK decades
    /\ fst (get_analytics_data db)
       = OK [("top_movies", TopMovies top);
             ("genre_distribution",
              GenreDistribution
                (map (fun row => mkGenreCount (gc_genre row) (gc_count row))
                     dist));
             ("ratings_by_year", RatingsByYear by_year);
             ("avg_rating_by_genre", AvgRatingByGenre by_genre);
             ("movies_by_decade", MoviesByDecade (map decade_dict decades))
            ]%string.
Proof.
  destruct (top_movies_sql_rows db) as (r1 & E1 & F1).
  destruct (ratings_time_sql_rows db) as (r3 & E3 & F3).
  destruct (genre_ratings_sql_rows db) as (r4 & E4 & F4).
  destruct (@mapM_total _ _ top_movie_dict
              (fun row => (exists a, tr_avg_rating row = Some a)
                          /\ 50 <= tr_rating_count row) r1)
    as (top & Etop & _);
    [intros a ((q & Hq) & _); unfold top_movie_dict; rewrite Hq;
     eexists; reflexivity | exact F1 |].
  destruct (@mapM_total _ _ year_stat_dict
              (fun row => exists a, yr_avg_rating row = Some a) r3)
    as (by_year & Eyear & _);
    [intros a (q & Hq); unfold year_stat_dict; rewrite Hq;
     eexists; reflexivity | exact F3 |].
  destruct (@mapM_total _ _ genre_rating_dict
              (fun row => exists a, grr_avg_rating row = Some a) r4)
    as (by_genre & Egenre & _);
    [intros a (q & Hq); unfold genre_rating_dict; rewrite Hq;
     eexists; reflexivity | exact F4 |].
  exists r1, top. eexists. exists r3, by_year, r4, by_genre. eexists.
  split; [exact E1|]. split; [exact Etop|]. split; [reflexivity|].
  split; [exact E3|]. split; [exact Eyear|]. split; [exact E4|].
  split; [exact Egenre|]. split; [reflexivity|].
  unfold get_analytics_data, with_db_connection, bind, execute_select, lift.
  cbv beta iota. cbn [working]. rewrite E1. cbv beta iota.
  change (mapM _ r1) with (mapM top_movie_dict r1). rewrite Etop.
  cbv beta iota. cbn [working]. unfold genre_dist_sql at 1.
  cbv beta iota zeta. cbn [working]. rewrite E3. cbv beta iota.
  change (mapM _ r3) with (mapM year_stat_dict r3). rewrite Eyear.
  cbv beta iota. cbn [working]. rewrite E4. cbv beta iota.
  change (mapM _ r4) with (mapM genre_rating_dict r4). rewrite Egenre.
  cbv beta iota. cbn [working]. unfold decade_sql at 1. reflexivity.
Qed.

(** ** DISTINCT and GROUP BY under a test that decides equality *)

Section DistinctFacts.
Variable K : Type.
Variable eqb : K -> K -> bool.
Hypothesis eqb_eq : decides_eq eqb.

Lemma memb_In k l : memb eqb k l = true <-> In k l.
Proof.
  unfold memb. rewrite existsb_exists. split.
  - intros (x & Hx & E). apply eqb_eq in E. now subst.
  - intros H. exists k. split; [assumption|]. now apply eqb_eq.
Qed.

Lemma distinct_from_In seen l k :
  In k (distinct_from eqb seen l) <-> In k l /\ ~ In k seen.
Proof.
  revert seen. induction l as [|x l IH]; intros seen; simpl; [tauto|].
  destruct (memb eqb x seen) eqn:E.
  - apply memb_In in E. rewrite IH. split.
    + intros [H1 H2]. auto.
    + intros [[->|H1] H2]; [contradiction | auto].
  - assert (Hx : ~ In x seen).
    { intros H. apply memb_In in H. congruence. }
    simpl. rewrite IH. simpl. split.
    + intros [->|[H1 H2]]; [auto|]. split; [auto|]. intros H. apply H2. auto.
    + intros [[->|H1] H2]; [auto|].
      destruct (eqb x k) eqn:Exk.
      * apply eqb_eq in Exk. auto.
      * right. split; [assumption|]. intros [->|H]; [|contradiction].
        assert (eqb k k = true) by now apply eqb_eq. congruence.
Qed.

Lemma distinct_from_NoDup seen l : NoDup (distinct_from eqb seen l).
Proof.
  revert seen. induction l as [|x l IH]; intros seen; simpl; [constructor|].
  destruct (memb eqb x seen); [apply IH|].
  constructor; [|apply IH]. rewrite distinct_from_In. intros [_ H].
  apply H. now left.
Qed.

Lemma distinct_In l k : In k (distinct eqb l) <-> In k l.
Proof. unfold distinct. rewrite distinct_from_In. simpl. tauto. Qed.

Lemma distinct_NoDup l : NoDup (distinct eqb l).
Proof. apply distinct_from_NoDup. Qed.

Lemma indicator_sum k ks :
  NoDup ks -> In k ks ->
  list_sum (map (fun k' => if eqb k k' then 1 else 0)%nat ks) = 1%nat.
Proof.
  induction 1 as [|x ks Hx Hnd IH]; intros Hin; [destruct Hin|].
  simpl. destruct (eqb k x) eqn:E.
  - apply eqb_eq in E. subst x. f_equal.
    clear IH Hin. induction ks as [|y ks IHk]; [reflexivity|]. simpl.
    destruct (eqb k y) eqn:Ey.
    + apply eqb_eq in Ey. subst y. exfalso. apply Hx. now left.
    + apply IHk.
      * intros H. apply Hx. now right.
      * now inversion Hnd.
  - destruct Hin as [->|Hin].
    + assert (eqb k k = true) by now apply eqb_eq. congruence.
    + simpl. now apply IH.
Qed.

Variable A : Type.
Variable key : A -> K.

(** The groups split the rows: their sizes add up to the number of rows. *)
Lemma group_sizes_add_up l ks :
  NoDup ks -> (forall a, In a l -> In (key a) ks) ->
  list_sum (map (fun k => List.length (filter (fun a => eqb (key a) k) l)) ks)
  = List.length l.
Proof.
  intros Hnd. induction l as [|a l IH]; intros Hin.
  - clear. induction ks as [|k ks IHk]; simpl; auto.
  - assert (Hsplit :
      list_sum (map (fun k => List.length
                                (filter (fun a0 => eqb (key a0) k) (a :: l)))
                    ks)
      = (list_sum (map (fun k => if eqb (key a) k then 1 else 0)%nat ks)
         + list_sum (map (fun k => List.length
                                     (filter (fun a0 => eqb (key a0) k) l))
                         ks))%nat).
    { clear. unfold list_sum. induction ks as [|k ks IHk]; [reflexivity|].
      cbn [map fold_right]. rewrite IHk. cbn [filter].
      destruct (eqb (key a) k); simpl; lia. }
    etransitivity; [exact Hsplit|].
    rewrite IH by (intros; apply Hin; now right).
    rewrite (@indicator_sum (key a) ks Hnd) by (apply Hin; now left).
    reflexivity.
Qed.

Lemma group_by_sizes l :
  list_sum (map (fun g => List.length (snd g)) (group_by eqb key l))
  = List.length l.
Proof.
  unfold group_by. rewrite map_map. simpl.
  apply group_sizes_add_up; [apply distinct_NoDup|].
  intros a Ha. apply distinct_In. now apply in_map.
Qed.

Lemma group_by_keys_NoDup l : NoDup (map fst (group_by eqb key l)).
Proof.
  unfold group_by. rewrite map_map. simpl. rewrite map_id.
  apply distinct_NoDup.
Qed.
End DistinctFacts.

Lemma Z_eqb_decides : decides_eq Z.eqb.
Proof. intros a b. apply Z.eqb_eq. Qed.

Lemma zsum_of_nat (ns : list nat) :
  zsum (map Z.of_nat ns) = Z.of_nat (list_sum ns).
Proof.
  induction ns as [|n ns IH]; [reflexivity|]. simpl. rewrite IH. lia.
Qed.

Lemma zsum_perm l l' : Permutation l l' -> zsum l = zsum l'.
Proof. induction 1; simpl; lia. Qed.

Lemma sorted_distinct_strict {A} (f : A -> Z) l :
  StronglySorted (fun a b => f a <= f b) l -> NoDup (map f l) ->
  StronglySorted (fun a b => f a < f b) l.
Proof.
  induction 1 as [|a l Hs IH Hall]; intros Hnd; constructor.
  - apply IH. now inversion Hnd.
  - inversion Hnd as [|? ? Hnot _]; subst. rewrite Forall_forall in *.
    intros b Hb. specialize (Hall b Hb).
    assert (f a <> f b) by (intros E; apply Hnot; rewrite E; now apply in_map).
    lia.
Qed.

Lemma flat_map_some_length {A B C} (f : A -> option B) (g : A -> B -> C) l :
  List.length (flat_map (fun a => match f a with
                                  | Some b => [g a b]
                                  | None => []
                                  end) l)
  = List.length (filter (fun a => match f a with
                                  | Some _ => true
                                  | None => false
                                  end) l).
Proof.
  induction l as [|a l IH]; [reflexivity|]. simpl.
  destruct (f a); simpl; congruence.
Qed.

(** ** The five result sets *)

Local Open Scope Q_scope.

Lemma opt_Q_geb_total a b : opt_Q_geb a b = true \/ opt_Q_geb b a = true.
Proof. unfold opt_Q_geb. apply opt_Q_leb_total. Qed.

Lemma opt_Q_geb_trans a b c :
  opt_Q_geb a b = true -> opt_Q_geb b c = true -> opt_Q_geb a c = true.
Proof. unfold opt_Q_geb. intros H1 H2. eapply opt_Q_leb_trans; eassumption. Qed.

Lemma top_movies_sql_order db rows :
  top_movies_sql db = OK rows ->
  (List.length rows <= 10)%nat
  /\ StronglySorted (fun a b => opt_Q_geb (tr_order a) (tr_order b) = true)
                    rows
  /\ Forall (fun row => exists a, tr_order row = Some a
                        /\ tr_avg_rating row = Some (round_numeric 2 a)) rows.
Proof.
  unfold top_movies_sql. intros H.
  match type of H with limit 10 ?l = _ =>
    pose proof (limit_cases 10 l) as Hl; rewrite H in Hl
  end.
  destruct Hl as (_ & -> & Hlen). split; [exact Hlen|]. split.
  - apply StronglySorted_firstn. apply order_by_StronglySorted.
    + intros x y. apply opt_Q_geb_total.
    + auto.
    + intros x y z. apply opt_Q_geb_trans.
  - apply Forall_forall. intros row Hrow.
    apply (in_firstn_skipn (Z.to_nat 10) 0) in Hrow.
    apply in_order_by in Hrow. apply in_map_iff in Hrow.
    destruct Hrow as ([k grp] & <- & Hg). apply filter_In in Hg.
    destruct Hg as [Hg _].
    apply group_by_nonempty in Hg; [|apply key3_eqb_refl].
    destruct k as [[i t] y]. simpl.
    destruct (avg_nonempty (l := map (fun row => r_rating (snd row)) grp))
      as (a & Ea); [destruct grp; [congruence | discriminate]|].
    exists a. unfold round_avg. rewrite Ea. auto.
Qed.

(** The top list has at most ten movies, in non-increasing order of the
    average it shows. *)
Theorem analytics_top_movies_ranked (db : DB) :
  exists analytics top,
    fst (get_analytics_data db) = OK analytics
    /\ dict_get "top_movies" analytics = Some (TopMovies top)
    /\ (List.length top <= 10)%nat
    /\ StronglySorted (fun a b => tm_avg_rating b <= tm_avg_rating a) top.
Proof.
  destruct (get_analytics_data_parts db)
    as (r1 & top & dist & r3 & by_year & r4 & by_genre & decades
        & E1 & Etop & _ & _ & _ & _ & _ & _ & E).
  eexists. exists top. split; [exact E|]. split; [reflexivity|].
  clear E.
  apply top_movies_sql_order in E1. destruct E1 as (Hlen & Hs & Hall).
  apply mapM_Forall2 in Etop. split.
  - now rewrite (Forall2_length_eq Etop).
  - assert (HF : Forall2 (fun row m =>
                   exists a, tr_order row = Some a
                             /\ tm_avg_rating m = round_numeric 2 a) r1 top).
    { clear Hs Hlen. induction Etop as [|row m r1 top Hm Hrest IH];
        constructor.
      - inversion Hall as [|? ? (a & Ho & Ha) _]; subst.
        unfold top_movie_dict in Hm. rewrite Ha in Hm. simpl in Hm.
        inversion Hm; subst. exists a. auto.
      - apply IH. now inversion Hall. }
    eapply StronglySorted_Forall2; [|exact HF|exact Hs].
    intros a b a' b' Hab (qa & Ha & ->) (qb & Hb & ->).
    apply round_numeric_mono. unfold opt_Q_geb in Hab.
    rewrite Ha, Hb in Hab. simpl in Hab. now apply Qle_bool_iff.
Qed.

Lemma genre_ratings_sql_order db rows :
  genre_ratings_sql db = OK rows ->
  StronglySorted (fun a b => opt_Q_geb (grr_avg_rating a) (grr_avg_rating b)
                             = true) rows
  /\ Forall (fun row => (1 <= grr_rating_count row)%Z) rows.
Proof.
  unfold genre_ratings_sql. intros H. inversion H; subst; clear H. split.
  - apply order_by_StronglySorted.
    + intros x y. apply opt_Q_geb_total.
    + auto.
    + intros x y z. apply opt_Q_geb_trans.
  - apply Forall_forall. intros row Hrow.
    apply in_order_by in Hrow. apply in_map_iff in Hrow.
    destruct Hrow as ([k grp] & <- & Hg).
    apply group_by_nonempty in Hg; [|apply genre_key_eqb_refl].
    simpl. unfold count. rewrite length_map.
    destruct grp; [congruence | simpl; lia].
Qed.

Lemma zsum_positive l :
  l <> [] -> Forall (fun n => (1 <= n)%Z) l -> (0 < zsum l)%Z.
Proof.
  intros Hne H. destruct H as [|n l Hn Hl]; [congruence|]. simpl.
  assert (0 <= zsum l)%Z; [|lia].
  clear Hne Hn. induction Hl; simpl; lia.
Qed.

(** The per-genre averages come in non-increasing order, every genre
    listed has at least one rating behind it, and so the reference line of
    the Analytics page, drawn when the list is not empty, never divides
    by zero. *)
Theorem analytics_genre_ratings_ranked (db : DB) :
  exists analytics by_genre,
    fst (get_analytics_data db) = OK analytics
    /\ dict_get "avg_rating_by_genre" analytics
       = Some (AvgRatingByGenre by_genre)
    /\ StronglySorted (fun a b => gr_avg_rating b <= gr_avg_rating a) by_genre
    /\ Forall (fun g => (1 <= gr_rating_count g)%Z) by_genre
    /\ (by_genre = [] \/ exists v, overall_avg by_genre = Some v).
Proof.
  destruct (get_analytics_data_parts db)
    as (r1 & top & dist & r3 & by_year & r4 & by_genre & decades
        & _ & _ & _ & _ & _ & E4 & Egenre & _ & E).
  eexists. exists by_genre. split; [exact E|]. split; [reflexivity|].
  clear E.
  apply genre_ratings_sql_order in E4. destruct E4 as (Hs & Hall).
  apply mapM_Forall2 in Egenre.
  assert (HF : Forall2 (fun row g =>
                 grr_avg_rating row = Some (gr_avg_rating g)
                 /\ gr_rating_count g = grr_rating_count row) r4 by_genre).
  { eapply Forall2_impl; [|exact Egenre]. intros row g Hg.
    unfold genre_rating_dict in Hg.
    destruct (grr_avg_rating row); simpl in Hg; [|discriminate].
    inversion Hg; subst. auto. }
  assert (Hcount : Forall (fun g => (1 <= gr_rating_count g)%Z) by_genre).
  { clear Hs Egenre. induction HF as [|row g r4 l [_ Hc] _ IH]; constructor.
    - inversion Hall; subst. lia.
    - apply IH. now inversion Hall. }
  split; [|split; [exact Hcount|]].
  - eapply StronglySorted_Forall2; [|exact HF|exact Hs].
    intros a b a' b' Hab [Ha _] [Hb _]. unfold opt_Q_geb in Hab.
    rewrite Ha, Hb in Hab. simpl in Hab. now apply Qle_bool_iff.
  - destruct by_genre as [|g l] eqn:El; [now left|right].
    unfold overall_avg.
    assert (Hpos : (0 < zsum (map gr_rating_count (g :: l)))%Z).
    { apply zsum_positive; [discriminate|].
      apply Forall_forall. intros n Hn. apply in_map_iff in Hn.
      destruct Hn as (x & <- & Hx). rewrite Forall_forall in Hcount.
      now apply Hcount. }
    unfold zsum in Hpos.
    destruct (Z.eqb_spec (fold_right Z.add 0%Z (map gr_rating_count (g :: l)))
                         0) as [E0|_]; [lia|].
    eexists. reflexivity.
Qed.

Local Close Scope Q_scope.

Lemma count_groups_sum {A} (key : A -> Z) (l : list A) :
  zsum (map (fun g => count (snd g)) (group_by Z.eqb key l)) = count l.
Proof.
  unfold count.
  rewrite <- (group_by_sizes Z_eqb_decides key l).
  rewrite <- zsum_of_nat, map_map. reflexivity.
Qed.

Lemma ratings_time_sql_facts db rows :
  ratings_time_sql db = OK rows ->
  StronglySorted (fun a b => yr_year a < yr_year b) rows
  /\ zsum (map yr_rating_count rows) = count (dated_ratings db)
  /\ Forall (fun row => 1 <= yr_rating_count row) rows.
Proof.
  unfold ratings_time_sql. intros H. inversion H; subst; clear H.
  match goal with |- context [group_by Z.eqb fst ?l] => set (dated := l) end.
  set (rows := map _ (group_by Z.eqb fst dated)).
  assert (Hperm : Permutation
                    (order_by (fun a b => yr_year a <=? yr_year b) rows) rows)
    by apply order_by_perm.
  split; [|split].
  - apply sorted_distinct_strict.
    + apply order_by_StronglySorted.
      * intros x y. destruct (Z.leb_spec (yr_year x) (yr_year y));
          [now left | right; apply Z.leb_le; lia].
      * intros x y Hxy. now apply Z.leb_le.
      * intros x y z. apply Z.le_trans.
    + apply (Permutation_NoDup (l := map yr_year rows)).
      * apply Permutation_map. now symmetry.
      * unfold rows. rewrite map_map. simpl.
        apply (group_by_keys_NoDup Z_eqb_decides).
  - rewrite (zsum_perm (Permutation_map yr_rating_count Hperm)).
    unfold rows. rewrite map_map. simpl. rewrite count_groups_sum.
    unfold count, dated, dated_ratings. f_equal.
    apply (flat_map_some_length r_rated_at (fun r t => (ts_year t, r))).
  - apply Forall_forall. intros row Hrow.
    apply in_order_by in Hrow. apply in_map_iff in Hrow.
    destruct Hrow as ([k grp] & <- & Hg).
    apply group_by_nonempty in Hg; [|apply Z.eqb_refl].
    simpl. unfold count. destruct grp; [congruence | simpl; lia].
Qed.

(** The yearly figures list each year once, in increasing order; every
    year listed has at least one rating, and the counts add up to the
    number of ratings that carry a date. *)
Theorem analytics_ratings_by_year_partition (db : DB) :
  exists analytics by_year,
    fst (get_analytics_data db) = OK analytics
    /\ dict_get "ratings_by_year" analytics = Some (RatingsByYear by_year)
    /\ StronglySorted (fun a b => ys_year a < ys_year b) by_year
    /\ zsum (map ys_count by_year) = count (dated_ratings db)
    /\ Forall (fun y => 1 <= ys_count y) by_year.
Proof.
  destruct (get_analytics_data_parts db)
    as (r1 & top & dist & r3 & by_year & r4 & by_genre & decades
        & _ & _ & _ & E3 & Eyear & _ & _ & _ & E).
  eexists. exists by_year. split; [exact E|]. split; [reflexivity|].
  clear E.
  apply ratings_time_sql_facts in E3. destruct E3 as (Hs & Hsum & Hall).
  apply mapM_Forall2 in Eyear.
  assert (HF : Forall2 (fun row y =>
                 ys_year y = yr_year row
                 /\ ys_count y = yr_rating_count row) r3 by_year).
  { eapply Forall2_impl; [|exact Eyear]. intros row y Hy.
    unfold year_stat_dict in Hy.
    destruct (yr_avg_rating row); simpl in Hy; [|discriminate].
    inversion Hy; subst. auto. }
  split; [|split].
  - eapply StronglySorted_Forall2; [|exact HF|exact Hs].
    intros a b a' b' Hab [Ha _] [Hb _]. cbv beta in *. lia.
  - rewrite <- Hsum. f_equal.
    eapply Forall2_map_eq; [|exact HF]. intros a b [_ H]. exact H.
  - clear Hs Hsum Eyear. induction HF as [|row y r3 l [_ Hc] _ IH];
      constructor.
    + inversion Hall; subst. lia.
    + apply IH. now inversion Hall.
Qed.

Lemma non_null_years_length db :
  List.length (non_null (map m_year (movies db)))
  = List.length (dated_movies db).
Proof.
  unfold non_null, dated_movies.
  induction (movies db) as [|m ms IH]; [reflexivity|]. simpl.
  destruct (m_year m); simpl; congruence.
Qed.

Lemma in_non_null {A} (l : list (option A)) x :
  In x (non_null l) <-> In (Some x) l.
Proof.
  unfold non_null. rewrite in_flat_map. split.
  - intros ([y|] & Hy & Hin); [|destruct Hin].
    destruct Hin as [->|[]]. exact Hy.
  - intros H. exists (Some x). split; [exact H | now left].
Qed.

(** The decades come in increasing order, each once; every decade listed
    is the decade of the year of some movie, and the counts add up to the
    number of movies that have a year. *)
Theorem analytics_movies_by_decade_partition (db : DB) :
  exists analytics decades,
    fst (get_analytics_data db) = OK analytics
    /\ dict_get "movies_by_decade" analytics
       = Some (MoviesByDecade (map decade_dict decades))
    /\ StronglySorted (fun a b => fst a < fst b) decades
    /\ zsum (map dc_count (map decade_dict decades)) = count (dated_movies db)
    /\ Forall (fun row =>
                 exists m y, In m (movies db) /\ m_year m = Some y
                             /\ fst row = Z.quot y 10 * 10
                             /\ 1 <= snd row) decades.
Proof.
  destruct (get_analytics_data_parts db)
    as (r1 & top & dist & r3 & by_year & r4 & by_genre & decades
        & _ & _ & _ & _ & _ & _ & _ & Ed & E).
  eexists. exists decades. split; [exact E|]. split; [reflexivity|].
  unfold decade_sql in Ed. inversion Ed; subst; clear Ed E.
  set (years := non_null (map m_year (movies db))).
  set (rows := map (fun g : Z * list Z => (fst g, count (snd g)))
                   (group_by Z.eqb decade_of years)).
  assert (Hperm : Permutation (order_by (fun a b => fst a <=? fst b) rows) rows)
    by apply order_by_perm.
  split; [|split].
  - apply sorted_distinct_strict.
    + apply order_by_StronglySorted.
      * intros x y. destruct (Z.leb_spec (fst x) (fst y));
          [now left | right; apply Z.leb_le; lia].
      * intros x y Hxy. now apply Z.leb_le.
      * intros x y z. apply Z.le_trans.
    + apply (Permutation_NoDup (l := map fst rows)).
      * apply Permutation_map. now symmetry.
      * unfold rows. rewrite map_map. simpl.
        apply (group_by_keys_NoDup Z_eqb_decides).
  - rewrite map_map.
    rewrite (map_ext (fun x => dc_count (decade_dict x)) snd)
      by reflexivity.
    rewrite (zsum_perm (Permutation_map snd Hperm)).
    unfold rows. rewrite map_map. simpl. rewrite count_groups_sum.
    unfold count, years. f_equal. apply non_null_years_length.
  - apply Forall_forall. intros row Hrow.
    apply in_order_by in Hrow. apply in_map_iff in Hrow.
    destruct Hrow as ([k grp] & <- & Hg).
    pose proof Hg as Hne.
    apply group_by_nonempty in Hne; [|apply Z.eqb_refl].
    apply in_group_by in Hg. destruct Hg as ((y & Hy & Hk) & _).
    apply in_non_null in Hy. apply in_map_iff in Hy.
    destruct Hy as (m & Hm & Hin). exists m, y. simpl.
    repeat split; auto.
    unfold count. destruct grp; [congruence | simpl; lia].
Qed.

Lemma genre_dist_sql_facts db rows :
  genre_dist_sql db = OK rows ->
  StronglySorted (fun a b => gc_count b <= gc_count a) rows
  /\ Forall (fun row =>
               1 <= gc_count row
               /\ exists g, In g (genres db)
                            /\ g_genre_name g = gc_genre row
                            /\ existsb (fun mg => mg_genre_id mg
                                                  =? g_genre_id g)
                                       (movie_genres db) = true) rows.
Proof.
  unfold genre_dist_sql. intros H. inversion H; subst; clear H. split.
  - apply order_by_StronglySorted.
    + intros x y. destruct (Z.leb_spec (gc_count y) (gc_count x));
        [now left | right; apply Z.leb_le; lia].
    + intros x y Hxy. now apply Z.leb_le.
    + intros x y z H1 H2. lia.
  - apply Forall_forall. intros row Hrow.
    apply in_order_by in Hrow. apply in_map_iff in Hrow.
    destruct Hrow as ([k grp] & <- & Hg).
    pose proof Hg as Hne.
    apply group_by_nonempty in Hne; [|apply genre_key_eqb_refl].
    apply in_group_by in Hg. destruct Hg as (([g mg] & Hin & Hk) & _).
    apply in_inner_join in Hin. destruct Hin as (Hg & Hmg & Hon).
    simpl in *. split.
    + unfold count. destruct grp as [|r grp]; [congruence|].
      simpl map. unfold distinct. simpl. lia.
    + exists g. subst k. simpl. repeat split; auto.
      apply existsb_exists. exists mg. split; [assumption|].
      now rewrite Z.eqb_sym.
Qed.

(** The genre distribution lists the genres in non-increasing order of
    their movie count, and lists a genre only if some movie carries it:
    every count is at least 1. *)
Theorem analytics_genre_distribution_ranked (db : DB) :
  exists analytics dist,
    fst (get_analytics_data db) = OK analytics
    /\ dict_get "genre_distribution" analytics = Some (GenreDistribution dist)
    /\ StronglySorted (fun a b => gc_count b <= gc_count a) dist
    /\ Forall (fun row =>
                 1 <= gc_count row
                 /\ exists g, In g (genres db)
                              /\ g_genre_name g = gc_genre row
                              /\ existsb (fun mg => mg_genre_id mg
                                                    =? g_genre_id g)
                                         (movie_genres db) = true) dist.
Proof.
  destruct (get_analytics_data_parts db)
    as (r1 & top & dist & r3 & by_year & r4 & by_genre & decades
        & _ & _ & Edist & _ & _ & _ & _ & _ & E).
  assert (Hid : map (fun row => mkGenreCount (gc_genre row) (gc_count row)) dist
                = dist).
  { rewrite <- (map_id dist) at 2. apply map_ext. intros [n c]. reflexivity. }
  rewrite Hid in E.
  eexists. exists dist. split; [exact E|]. split; [reflexivity|].
  now apply genre_dist_sql_facts.
Qed.

(* ================================================================== *)
(** * Keyword search with an empty query *)
(* ================================================================== *)

Lemma option_eqb_decides {A} (eqb : A -> A -> bool) :
  decides_eq eqb -> decides_eq (option_eqb eqb).
Proof.
  intros H [a|] [b|]; simpl; split; try congruence.
  - intros E. apply H in E. now subst.
  - intros E. inversion E. now apply H.
Qed.

Lemma string_eqb_decides : decides_eq String.eqb.
Proof. intros a b. apply String.eqb_eq. Qed.

Lemma movie_key_eqb_decides : decides_eq movie_key_eqb.
Proof.
  intros [[[i1 t1] y1] s1] [[[i2 t2] y2] s2]. unfold movie_key_eqb.
  rewrite !andb_true_iff, Z.eqb_eq, String.eqb_eq.
  rewrite (option_eqb_decides Z_eqb_decides y1 y2).
  rewrite (option_eqb_decides string_eqb_decides s1 s2).
  split.
  - intros [[[-> ->] ->] ->]. reflexivity.
  - intros E. inversion E. auto.
Qed.

Lemma match_any_any s : match_toks lower_ascii [TAny; TAny] s = true.
Proof. rewrite match_any_unfold, match_any_alone. reflexivity. Qed.

(** An empty query is not special: the pattern is two percent signs and
    matches every title, so with a limit no smaller than the table every
    movie is listed. *)
Theorem keyword_empty_query_lists_every_movie
        (lim : Z) (db : DB) (ms : list KeywordMovie) :
  fst (search_movies_keyword "" lim db) = OK ms ->
  (List.length (movies db) <= Z.to_nat lim)%nat ->
  forall m, In m (movies db) ->
    exists hit, In hit ms
                /\ km_movie_id hit = m_movie_id m
                /\ km_title hit = m_title m
                /\ km_year hit = m_year m
                /\ km_summary hit = m_summary m.
Proof.
  intros H Hlen m Hm. apply search_movies_keyword_rows in H.
  destruct H as (rows & Hrows & ->).
  unfold keyword_sql in Hrows.
  change (parse_like false (keyword_pattern "")) with (Some [TAny; TAny])
    in Hrows.
  cbv iota zeta in Hrows.
  unfold limit in Hrows. apply limit_offset_OK in Hrows.
  destruct Hrows as (_ & _ & ->). simpl skipn.
  match goal with |- context [group_by movie_key_eqb ?k ?l] =>
    set (kept := l); set (groups := group_by movie_key_eqb k kept)
  end.
  assert (Hkey : forall row, In row kept -> In (fst (fst row)) (movies db)).
  { intros [[m' omg] og] Hrow. apply filter_In in Hrow.
    destruct Hrow as [Hrow _]. unfold movies_with_genres in Hrow.
    do 2 apply in_left_join_left in Hrow. exact Hrow. }
  assert (Hgroups : (List.length groups <= List.length (movies db))%nat).
  { unfold groups, group_by. rewrite length_map.
    rewrite <- (length_map movie_key (movies db)).
    apply NoDup_incl_length.
    - apply (distinct_NoDup movie_key_eqb_decides).
    - intros k Hk.
      apply (proj1 (distinct_In movie_key_eqb_decides _ k)) in Hk.
      apply in_map_iff in Hk. destruct Hk as (row & <- & Hrow).
      apply in_map. now apply Hkey. }
  rewrite firstn_all2
    by (rewrite order_by_length, length_map; lia).
  destruct (left_join_covers on_movie_genre (movies db) (movie_genres db)
              m Hm) as (omg & H1).
  destruct (left_join_covers on_genre _ (genres db) _ H1) as (og & H2).
  assert (Hkept : In (m, omg, og) kept).
  { apply filter_In. split; [exact H2|]. unfold keyword_where. simpl.
    now rewrite match_any_any. }
  assert (Hg : In (movie_key m,
                   filter (fun a => movie_key_eqb (movie_key (fst (fst a)))
                                                  (movie_key m)) kept)
                  groups).
  { unfold groups, group_by. apply in_map_iff. exists (movie_key m).
    split; [reflexivity|].
    apply (proj2 (distinct_In movie_key_eqb_decides _ (movie_key m))).
    apply in_map_iff. exists (m, omg, og). auto. }
  eexists. split.
  - apply in_map. apply in_order_by. apply in_map. exact Hg.
  - repeat split.
Qed.

Lemma keyword_empty_query_lists_every_movie_witness :
  exists ms hit,
    fst (search_movies_keyword "" 20 sample_db) = OK ms
    /\ In hit ms
    /\ km_title hit = "Clue"%string.
Proof.
  pose (ms := match fst (search_movies_keyword "" 20 sample_db) with
              | OK ms => ms
              | Raise _ => []
              end).
  assert (E : fst (search_movies_keyword "" 20 sample_db) = OK ms)
    by (vm_compute; reflexivity).
  assert (L : (List.length (movies sample_db) <= Z.to_nat 20)%nat)
    by (vm_compute; lia).
  assert (I : In (mkMovie 3 "Clue"%string (Some 1985) None None)
                 (movies sample_db))
    by (simpl; auto).
  destruct (@keyword_empty_query_lists_every_movie 20 sample_db ms E L _ I)
    as (hit & Hin & _ & Ht & _).
  exists ms, hit. auto.
Defined.

(* ================================================================== *)
(** * Configuration status, the connection singletons, the pages *)
(* ================================================================== *)

Lemma string_length_append (a b : string) :
  String.length (a ++ b) = (String.length a + String.length b)%nat.
Proof. induction a; simpl; auto. Qed.

Lemma py_prefix_length (n : nat) (s : string) :
  (n <= String.length s)%nat -> String.length (py_prefix n s) = n.
Proof.
  unfold py_prefix. revert s. induction n; intros s H.
  - destruct s; reflexivity.
  - destruct s; simpl in *; [lia|]. f_equal. apply IHn. lia.
Qed.

Lemma truthy_string_empty (s : string) :
  truthy_string s = false <-> s = ""%string.
Proof. destruct s; simpl; split; congruence. Qed.

(** [get_config_status] never shows more of a long [DB_USER] than its
    first twenty characters: the entry is at most 23 characters long; a
    user of one to twenty characters is shown whole; a longer one is cut
    to its first twenty characters followed by three dots. *)
Theorem get_config_status_masks_user (env : Environ) :
  exists shown,
    dict_get "db_user" (get_config_status env) = Some (CStr shown)
    /\ (String.length shown <= 23)%nat
    /\ ((String.length (DB_USER env) <= 20)%nat ->
        DB_USER env <> ""%string -> shown = DB_USER env)
    /\ ((20 < String.length (DB_USER env))%nat ->
        shown = (py_prefix 20 (DB_USER env) ++ "...")%string
        /\ String.length shown = 23%nat).
Proof.
  exists (masked_user (DB_USER env)). split; [reflexivity|].
  set (u := DB_USER env). unfold masked_user.
  destruct (truthy_string u) eqn:T; cbn [andb].
  - destruct (Nat.ltb 20 (String.length u)) eqn:L.
    + apply Nat.ltb_lt in L.
      assert (Hlen : String.length (py_prefix 20 u ++ "...") = 23%nat).
      { rewrite string_length_append, py_prefix_length by lia. reflexivity. }
      split; [lia|]. split; [intros; lia|]. intros _.
      split; [reflexivity|exact Hlen].
    + apply Nat.ltb_ge in L.
      split; [lia|]. split; [reflexivity|]. intros; lia.
  - apply truthy_string_empty in T. rewrite T.
    split; [cbn; lia|]. split; [congruence|]. cbn. intros; lia.
Qed.

Lemma in_missing_configuration k config :
  In k (missing_configuration config)
  <-> exists v, In (k, v) config /\ is_not_set v = true.
Proof.
  unfold missing_configuration. rewrite in_map_iff. split.
  - intros ([k' v] & <- & H). apply filter_In in H. exists v. tauto.
  - intros (v & H1 & H2). exists (k, v). split; [reflexivity|].
    apply filter_In. auto.
Qed.

Lemma masked_user_empty : masked_user "" = "(not set)"%string.
Proof. reflexivity. Qed.

(** On an unconfigured Home page the "Missing Configuration" list is never
    empty: it names [project_id] or [db_user]; an empty [PROJECT_ID] or
    [DB_USER] is always named, and [is_configured] itself never is. *)
Theorem home_missing_configuration_names_unset (env : Environ) :
  is_configured env = false ->
  (In "project_id"%string (missing_configuration (get_config_status env))
   \/ In "db_user"%string (missing_configuration (get_config_status env)))
  /\ (PROJECT_ID env = ""%string ->
      In "project_id"%string (missing_configuration (get_config_status env)))
  /\ (DB_USER env = ""%string ->
      In "db_user"%string (missing_configuration (get_config_status env)))
  /\ ~ In "is_configured"%string
          (missing_configuration (get_config_status env)).
Proof.
  intros H.
  assert (Hp : PROJECT_ID env = ""%string ->
               In "project_id"%string
                  (missing_configuration (get_config_status env))).
  { intros E. apply in_missing_configuration.
    exists (CStr "(not set)"). split; [|reflexivity].
    unfold get_config_status. rewrite E. simpl. auto. }
  assert (Hu : DB_USER env = ""%string ->
               In "db_user"%string
                  (missing_configuration (get_config_status env))).
  { intros E. apply in_missing_configuration.
    exists (CStr "(not set)"). split; [|reflexivity].
    unfold get_config_status. rewrite E, masked_user_empty. simpl. tauto. }
  split; [|split; [exact Hp|split; [exact Hu|]]].
  - unfold is_configured in H. simpl in H. rewrite andb_true_r in H.
    apply andb_false_iff in H. destruct H as [H|H];
      apply truthy_string_empty in H; auto.
  - intros Hin. apply in_missing_configuration in Hin.
    destruct Hin as (v & Hin & Hv). unfold get_config_status in Hin.
    simpl in Hin.
    repeat (destruct Hin as [Hin|Hin];
            [inversion Hin; subst; try discriminate|]); try contradiction.
Qed.

Lemma home_missing_configuration_names_unset_witness :
  In "project_id"%string (missing_configuration (get_config_status []))
  /\ In "db_user"%string (missing_configuration (get_config_status [])).
Proof.
  destruct (@home_missing_configuration_names_unset [] eq_refl)
    as (_ & Hp & Hu & _).
  split; [apply Hp | apply Hu]; reflexivity.
Defined.

(** The connector and the engine are made once: a second [get_connector]
    or [get_engine] hands back the same object and changes nothing.
    [cleanup] leaves neither, disposes of and closes no object but those
    that were live, and repeating it changes nothing. *)
Theorem connector_and_engine_are_singletons (rt : Runtime) :
  get_connector (snd (get_connector rt))
  = (fst (get_connector rt), snd (get_connector rt))
  /\ get_engine (snd (get_engine rt))
     = (fst (get_engine rt), snd (get_engine rt))
  /\ connector (cleanup rt) = None
  /\ engine (cleanup rt) = None
  /\ cleanup (cleanup rt) = cleanup rt
  /\ (forall e, In e (disposed_engines (cleanup rt)) ->
                engine rt = Some e \/ In e (disposed_engines rt))
  /\ (forall c, In c (closed_connectors (cleanup rt)) ->
                connector rt = Some c \/ In c (closed_connectors rt)).
Proof.
  destruct rt as [c e n cc de].
  unfold get_connector, get_engine, cleanup.
  destruct c as [c|], e as [e|]; simpl; repeat split; auto;
    intros x [<-|H]; auto.
Qed.

Lemma total_pages_bounds (total rpp : Z) :
  0 < rpp ->
  (total_pages total rpp - 1) * rpp < total <= total_pages total rpp * rpp.
Proof.
  intros H. unfold total_pages.
  pose proof (Z.div_mod (total + rpp - 1) rpp ltac:(lia)) as E.
  pose proof (Z.mod_pos_bound (total + rpp - 1) rpp H) as B.
  nia.
Qed.

(** Browse pagination, for a positive page size: the pages counted are
    just enough to hold the total; a page index is one of them exactly
    when its offset is below the total; the Next button is offered exactly
    when the page has movies and movies are left beyond it, the Previous
    button exactly when the page has movies and is not the first; and the
    "Showing a-b" line runs forward exactly when the offset is below the
    total. *)
Theorem browse_pagination_arithmetic
        {A} (movies : list A) (total rpp page : Z) :
  0 < rpp ->
  (total_pages total rpp - 1) * rpp < total <= total_pages total rpp * rpp
  /\ (page < total_pages total rpp <-> page_offset page rpp < total)
  /\ (shows_next movies page total rpp = true
      <-> movies <> [] /\ page_offset (page + 1) rpp < total)
  /\ (shows_previous movies page = true <-> movies <> [] /\ 0 < page)
  /\ (fst (showing (page_offset page rpp) rpp total)
      <= snd (showing (page_offset page rpp) rpp total)
      <-> page_offset page rpp < total).
Proof.
  intros H. pose proof (total_pages_bounds total H) as B.
  set (tp := total_pages total rpp) in *.
  assert (P : forall p, p < tp <-> page_offset p rpp < total).
  { intros p. unfold page_offset. split; intros Hp; nia. }
  split; [exact B|]. split; [apply P|]. split; [|split].
  - unfold shows_next. fold tp. destruct movies as [|m movies].
    + split; [discriminate | intros [Hne _]; congruence].
    + rewrite Z.ltb_lt, <- P. split.
      * intros Hp. split; [discriminate | lia].
      * intros [_ Hp]. lia.
  - unfold shows_previous. destruct movies as [|m movies].
    + split; [discriminate | intros [Hne _]; congruence].
    + rewrite Z.ltb_lt. split; [intros Hp; split; [discriminate|lia] | tauto].
  - unfold showing, page_offset. simpl. lia.
Qed.

Lemma browse_pagination_arithmetic_witness :
  total_pages 45 20 = 3
  /\ (shows_next [tt] 1 45 20 = true
      <-> [tt] <> [] /\ page_offset 2 20 < 45)
  /\ (shows_next (@nil unit) 0 45 20 = true
      <-> @nil unit <> [] /\ page_offset 1 20 < 45).
Proof.
  split; [reflexivity|]. split.
  - apply (@browse_pagination_arithmetic unit [tt] 45 20 1). lia.
  - apply (@browse_pagination_arithmetic unit [] 45 20 0). lia.
Defined.

Lemma dict_get_set {V} k k' (v : V) d :
  dict_get k (dict_set k' v d)
  = if String.eqb k k' then Some v else dict_get k d.
Proof.
  induction d as [|[k0 v0] d IH]; simpl.
  - reflexivity.
  - destruct (String.eqb k' k0) eqn:E0; simpl.
    + apply String.eqb_eq in E0. subst k0.
      destruct (String.eqb k k'); reflexivity.
    + destruct (String.eqb k k0) eqn:E1.
      * apply String.eqb_eq in E1. subst k0.
        destruct (String.eqb k k') eqn:E2; [apply String.eqb_eq in E2; subst; rewrite String.eqb_refl in E0; discriminate|reflexivity].
      * exact IH.
Qed.

(* ================================================================== *)
(** * What the Browse and Discover pages make of the data *)
(* ================================================================== *)

Lemma genre_options_from d gs name id :
  dict_get name
    (fold_left (fun d g => dict_set (g_genre_name g) (Some (g_genre_id g)) d)
               gs d) = Some (Some id) ->
  (exists g, In g gs /\ g_genre_name g = name /\ g_genre_id g = id)
  \/ dict_get name d = Some (Some id).
Proof.
  revert d. induction gs as [|g gs IH]; intros d H; simpl in H.
  - now right.
  - apply IH in H. destruct H as [(g' & Hin & Hn & Hi)|H].
    + left. exists g'. simpl. auto.
    + rewrite dict_get_set in H.
      destruct (String.eqb name (g_genre_name g)) eqn:E.
      * apply String.eqb_eq in E. inversion H. left. exists g. simpl. auto.
      * now right.
Qed.

Lemma genre_options_keeps d gs name :
  (exists id, dict_get name d = Some (Some id)) ->
  exists id,
    dict_get name
      (fold_left (fun d g => dict_set (g_genre_name g) (Some (g_genre_id g)) d)
                 gs d) = Some (Some id).
Proof.
  revert d. induction gs as [|g gs IH]; intros d H; simpl.
  - exact H.
  - apply IH. rewrite dict_get_set.
    destruct (String.eqb name (g_genre_name g)); [eauto|exact H].
Qed.

Lemma genre_options_has d gs name :
  (exists g, In g gs /\ g_genre_name g = name) ->
  exists id,
    dict_get name
      (fold_left (fun d g => dict_set (g_genre_name g) (Some (g_genre_id g)) d)
                 gs d) = Some (Some id).
Proof.
  revert d. induction gs as [|g gs IH]; intros d (g' & Hin & Hn); simpl.
  - contradiction.
  - destruct Hin as [->|Hin].
    + apply genre_options_keeps. rewrite dict_get_set, <- Hn.
      rewrite String.eqb_refl. eauto.
    + apply IH. eauto.
Qed.

Lemma get_genres_rows db :
  exists gs, get_genres db = (OK gs, db)
             /\ forall g, In g gs <-> In g (genres db).
Proof.
  exists (map (fun row => mkGenre (g_genre_id row) (g_genre_name row))
              (order_by genre_leb (genres db))).
  split.
  - unfold get_genres, with_db_connection, bind, execute_select, ret.
    destruct db. reflexivity.
  - intros g.
    rewrite (map_ext (fun row => mkGenre (g_genre_id row) (g_genre_name row))
                     (fun row => row)) by (intros []; reflexivity).
    rewrite map_id. split; intros H.
    + now apply in_order_by in H.
    + eapply Permutation_in; [|exact H]. apply Permutation_sym.
      apply order_by_perm.
Qed.

(** A configured Browse page asks for the genres and then, unless "Clear
    Filters" was clicked, calls [browse_movies] once, with the slider's
    years, the page size and the page's offset; the genre it passes is
    none or the identifier of a genre of the table with the selected name,
    and is one whenever the table has a genre of that name; a slider at
    zero becomes no rating floor, any other value is passed on as it is.
    A run in which "Clear Filters" was clicked ends after the genres. *)
Theorem page_browse_passes_the_selection
        (env : Environ) (name : string) (y1 y2 : Z) (slider : Q)
        (rpp page : Z) (db : DB) :
  is_configured env = true ->
  fst (page_browse env true name (y1, y2) slider rpp page db)
  = [call_get_genres]
  /\ exists g r,
       fst (page_browse env false name (y1, y2) slider rpp page db)
       = [call_get_genres;
          call_browse_movies g (Some y1) (Some y2) r rpp
            (page_offset page rpp)]
       /\ selects_genre db name g
       /\ (forall genre, In genre (genres db) -> g_genre_name genre = name ->
                         g <> None)
       /\ (r = None <-> (slider == 0)%Q)
       /\ (forall q, r = Some q -> q = slider).
Proof.
  intros Hc. unfold page_browse.
  destruct (get_genres_rows db) as (gs & -> & Hgs).
  rewrite Hc. cbn [negb result_of]. split; [reflexivity|].
  set (g := coalesce (dict_get name (genre_options gs)) None).
  set (r := if Qeq_bool slider 0 then None else Some slider).
  exists g, r.
  destruct (browse_movies g (Some y1) (Some y2) r rpp (page * rpp) db)
    as [res db'].
  split; [reflexivity|]. split; [|split; [|split]].
  - unfold selects_genre, g.
    destruct (dict_get name (genre_options gs)) as [[id|]|] eqn:E;
      simpl; auto.
    right. unfold genre_options in E. apply genre_options_from in E.
    destruct E as [(genre & Hin & Hn & Hi)|E]; [|simpl in E].
    + exists genre. rewrite <- Hgs. subst id. auto.
    + destruct (String.eqb name "All Genres"); discriminate.
  - intros genre Hin Hn. unfold g.
    destruct (@genre_options_has [("All Genres"%string, None)] gs name)
      as (id & E).
    { exists genre. rewrite Hgs. auto. }
    unfold genre_options. rewrite E. discriminate.
  - unfold r. destruct (Qeq_bool slider 0) eqn:E.
    + apply Qeq_bool_iff in E. tauto.
    + split; [discriminate|]. intros H. apply Qeq_bool_iff in H. congruence.
  - unfold r. intros q H. destruct (Qeq_bool slider 0); congruence.
Qed.

Lemma page_browse_passes_the_selection_witness :
  fst (page_browse
         [("PROJECT_ID", "cymbal"); ("DB_USER", "ada@example.com")]%string
         true "Horror" (1980, 2018) (7 # 2) 20 0 sample_db)
  = [call_get_genres]
  /\ exists g r,
       fst (page_browse
              [("PROJECT_ID", "cymbal"); ("DB_USER", "ada@example.com")]%string
              false "Horror" (1980, 2018) (7 # 2) 20 0 sample_db)
       = [call_get_genres;
          call_browse_movies g (Some 1980) (Some 2018) r 20
            (page_offset 0 20)]
       /\ selects_genre sample_db "Horror" g.
Proof.
  destruct (@page_browse_passes_the_selection
              [("PROJECT_ID", "cymbal"); ("DB_USER", "ada@example.com")]%string
              "Horror" 1980 2018 (7 # 2) 20 0 sample_db eq_refl)
    as (Hclear & g & r & H1 & H2 & _).
  split; [exact Hclear|]. exists g, r. split; assumption.
Defined.


Section DiscoverFacts.
Variable embedding : string -> string -> Vector.
Variable cosine_distance : Vector -> Vector -> Number.

End DiscoverFacts.

(* ================================================================== *)
(** * Browse: the rating floor *)
(* ================================================================== *)

Local Open Scope Q_scope.

(** ** The rating floor *)

Lemma qsum_app (a b : list Q) : qsum (a ++ b) == qsum a + qsum b.
Proof.
  induction a as [|x a IH]; simpl.
  - now rewrite Qplus_0_l.
  - rewrite IH. now rewrite Qplus_assoc.
Qed.

(** A list taken once for every element that passes a test: its sum and
    its length. *)
Lemma repeated_sum {A} (p : A -> bool) (L : list Q) (X : list A) :
  qsum (flat_map (fun x => if p x then L else []) X)
  == inject_Z (Z.of_nat (List.length (filter p X))) * qsum L
  /\ List.length (flat_map (fun x => if p x then L else []) X)
     = (List.length (filter p X) * List.length L)%nat.
Proof.
  induction X as [|x X [IHs IHl]]; cbn [flat_map filter].
  - split; [cbn; now rewrite Qmult_0_l | reflexivity].
  - destruct (p x); [|split; assumption]. split.
    + rewrite qsum_app, IHs. cbn [List.length].
      rewrite Nat2Z.inj_succ. unfold Z.succ. rewrite inject_Z_plus.
      change (inject_Z 1) with 1. ring.
    + rewrite length_app, IHl. cbn [List.length]. lia.
Qed.

(** Taking every value the same number of times, once at least, leaves
    the average as it is. *)
Lemma avg_repeated {A} (p : A -> bool) (L : list Q) (X : list A) :
  existsb p X = true ->
  coalesce (avg (flat_map (fun x => if p x then L else []) X)) 0
  == coalesce (avg L) 0.
Proof.
  intros Hex.
  destruct (repeated_sum p L X) as [Hs Hl].
  assert (Hc : (0 < List.length (filter p X))%nat).
  { apply existsb_exists in Hex. destruct Hex as (x & Hx & Hp).
    assert (Hin : In x (filter p X)) by (apply filter_In; auto).
    destruct (filter p X); [destruct Hin | simpl; lia]. }
  set (c := List.length (filter p X)) in *.
  destruct L as [|v L].
  - assert (E : flat_map (fun x => if p x then @nil Q else []) X = []).
    { apply length_zero_iff_nil. rewrite Hl. simpl. lia. }
    rewrite E. reflexivity.
  - destruct (flat_map (fun x => if p x then v :: L else []) X)
      as [|w rest] eqn:Erep.
    { simpl in Hl. lia. }
    unfold avg, coalesce, count. rewrite Hs, Hl.
    set (n := List.length (v :: L)).
    assert (Hn : (0 < n)%nat) by (unfold n; simpl; lia).
    rewrite Nat2Z.inj_mul, inject_Z_mult.
    assert (Hc' : ~ inject_Z (Z.of_nat c) == 0).
    { intros H. unfold Qeq in H. simpl in H. lia. }
    assert (Hn' : ~ inject_Z (Z.of_nat n) == 0).
    { intros H. unfold Qeq in H. simpl in H. lia. }
    field. split; assumption.
Qed.

Lemma filter_and {A} (f g : A -> bool) l :
  filter f (filter g l) = filter (fun x => g x && f x) l.
Proof.
  induction l as [|x l IH]; simpl; [reflexivity|].
  destruct (g x); simpl; [destruct (f x)|]; congruence.
Qed.

Lemma non_null_app {A} (a b : list (option A)) :
  non_null (a ++ b) = non_null a ++ non_null b.
Proof. unfold non_null. apply flat_map_app. Qed.

Lemma left_join_block_sides {A B} (on : A -> B -> bool) (p : A -> bool) x rs :
  non_null (map snd (filter (fun row : A * option B => p (fst row))
                       (match filter (on x) rs with
                        | [] => [(x, None)]
                        | bs => map (fun b => (x, Some b)) bs
                        end)))
  = if p x then filter (on x) rs else [].
Proof.
  destruct (filter (on x) rs) as [|b bs].
  - cbn. destruct (p x); reflexivity.
  - generalize (b :: bs). intros l.
    induction l as [|c l IH]; cbn [map filter fst].
    + destruct (p x); reflexivity.
    + destruct (p x) eqn:Ep.
      * cbn [map snd]. change (non_null (Some c :: ?l)) with (c :: non_null l).
        cbn [non_null flat_map app]. f_equal. exact IH.
      * exact IH.
Qed.

Lemma left_join_right_sides {A B} (on : A -> B -> bool) (p : A -> bool) X rs :
  non_null (map snd (filter (fun row => p (fst row)) (left_join on X rs)))
  = flat_map (fun x => if p x then filter (on x) rs else []) X.
Proof.
  unfold left_join.
  induction X as [|x X IH]; cbn [flat_map]; [reflexivity|].
  rewrite filter_app, map_app, non_null_app, IH. f_equal.
  apply left_join_block_sides.
Qed.

Lemma flat_map_if_ext {A B} (p : A -> bool) (F G : A -> list B) X :
  (forall x, p x = true -> F x = G x) ->
  flat_map (fun x => if p x then F x else []) X
  = flat_map (fun x => if p x then G x else []) X.
Proof.
  intros H. induction X as [|x X IH]; simpl; [reflexivity|].
  rewrite IH. destruct (p x) eqn:E; [now rewrite H | reflexivity].
Qed.

Lemma map_flat_map_if {A B C} (g : B -> C) (p : A -> bool) (L : list B) X :
  map g (flat_map (fun x => if p x then L else []) X)
  = flat_map (fun x => if p x then map g L else []) X.
Proof.
  induction X as [|x X IH]; simpl; [reflexivity|].
  rewrite map_app, IH. destruct (p x); reflexivity.
Qed.

(** The average the statement computes over a group of the join is the
    average of the movie's ratings: the join repeats every rating the same
    number of times. *)
Lemma cte_group_average bs db k grp :
  In (k, grp)
     (group_by movie_key_eqb
        (fun row : Movie * option MovieGenre * option Rating =>
           movie_key (fst (fst row)))
        (filter (fun row => where_ok bs (fst (fst row)) (snd (fst row)))
           (left_join (fun row r => on_rating_of (m_movie_id (fst row)) r)
              (left_join on_movie_genre (movies db) (movie_genres db))
              (ratings db)))) ->
  exists mv, In mv (movies db) /\ movie_key mv = k
             /\ group_avg (map snd grp) == movie_avg db mv.
Proof.
  intros Hg. apply in_group_by in Hg.
  destruct Hg as (([[mv omg] orr] & Hin & Hk) & ->).
  apply filter_In in Hin. destruct Hin as [Hin Hw]. cbn [fst snd] in *.
  apply in_left_join_left in Hin. pose proof Hin as Hmv.
  apply in_left_join_left in Hmv.
  exists mv. split; [exact Hmv|]. split; [exact Hk|].
  unfold group_avg, movie_avg. rewrite filter_and.
  set (p := fun x : Movie * option MovieGenre =>
              where_ok bs (fst x) (snd x)
              && movie_key_eqb (movie_key (fst x)) k).
  rewrite (filter_ext
             (fun x : Movie * option MovieGenre * option Rating =>
                where_ok bs (fst (fst x)) (snd (fst x))
                && movie_key_eqb (movie_key (fst (fst x))) k)
             (fun row => p (fst row))) by reflexivity.
  rewrite left_join_right_sides.
  set (L := filter (fun r => r_movie_id r =? m_movie_id mv) (ratings db)).
  rewrite (@flat_map_if_ext _ _ p
             (fun x => filter (fun r => on_rating_of (m_movie_id (fst x)) r)
                              (ratings db))
             (fun _ => L)).
  2:{ intros x Hx. unfold p in Hx. apply andb_true_iff in Hx.
      destruct Hx as [_ Hx]. apply movie_key_eqb_decides in Hx.
      rewrite <- Hk in Hx. unfold movie_key in Hx. inversion Hx as [Hid].
      unfold L. apply filter_ext. intros r. unfold on_rating_of.
      rewrite Hid. apply Z.eqb_sym. }
  rewrite map_flat_map_if. apply avg_repeated.
  apply existsb_exists. exists (mv, omg). split; [exact Hin|].
  unfold p. cbn [fst snd]. rewrite Hw. cbn [andb].
  apply movie_key_eqb_decides. exact Hk.
Qed.

Lemma cte_rows_average bs q db mr :
  In mr (movie_ratings_cte bs q db) ->
  exists mv, In mv (movies db) /\ m_movie_id mv = mr_movie_id mr
             /\ q <= movie_avg db mv.
Proof.
  unfold movie_ratings_cte. intros H. apply in_map_iff in H.
  destruct H as ([k grp] & <- & Hg). apply filter_In in Hg.
  destruct Hg as [Hg Hhave]. cbn [fst snd] in Hhave.
  destruct (cte_group_average _ _ _ _ Hg) as (mv & Hmv & Hk & Havg).
  exists mv. split; [exact Hmv|]. split.
  - rewrite <- Hk. reflexivity.
  - apply Qle_bool_iff in Hhave. now rewrite <- Havg.
Qed.

(** With a rating floor set (not zero), every movie on the page is a
    movie of the table whose average rating, taken exactly over its rows
    of ratings, is at least the floor. *)
Theorem browse_movies_respects_rating_floor
        (genre_id year_min year_max : option Z) (floor : Q)
        (lim off : Z) (db : DB) (res : BrowseResult) :
  truthy_Q floor = true ->
  fst (browse_movies genre_id year_min year_max (Some floor) lim off db)
  = OK res ->
  Forall (fun m => exists mv, In mv (movies db)
                              /\ m_movie_id mv = bm_movie_id m
                              /\ floor <= movie_avg db mv)
         (res_movies res).
Proof.
  intros Hq. rewrite browse_movies_unfold. cbv zeta.
  cbn [truthy_opt coalesce]. rewrite Hq.
  match goal with |- context [limit_offset lim off ?l] =>
    destruct (limit_offset lim off l) as [rows|e] eqn:E
  end; cbn; [|discriminate].
  intros H. inversion H; subst; clear H. cbn [res_movies].
  apply limit_offset_OK in E. destruct E as (_ & _ & ->).
  apply Forall_forall. intros m Hm. apply in_map_iff in Hm.
  destruct Hm as (row & <- & Hrow). apply in_firstn_skipn in Hrow.
  apply in_order_by in Hrow.
  change (bm_movie_id (browse_dict row)) with (bm_movie_id row).
  unfold browse_rated_rows in Hrow. apply in_map_iff in Hrow.
  destruct Hrow as ([k grp] & <- & Hg). apply in_group_by in Hg.
  destruct Hg as ((r & Hr & Hk) & _). destruct r as [[mr omg] og].
  apply in_left_join_left in Hr. apply in_left_join_left in Hr.
  cbn [fst snd] in *. subst k. cbn [bm_movie_id].
  now apply cte_rows_average in Hr.
Qed.

Lemma browse_movies_respects_rating_floor_witness :
  exists res,
    fst (browse_movies None None None (Some (4 # 1)) 20 0 sample_db) = OK res
    /\ map bm_movie_id (res_movies res) = [2; 1]%Z
    /\ Forall (fun m => exists mv, In mv (movies sample_db)
                                   /\ m_movie_id mv = bm_movie_id m
                                   /\ (4 # 1) <= movie_avg sample_db mv)
              (res_movies res).
Proof.
  eexists. split; [vm_compute; reflexivity|]. split; [reflexivity|].
  apply (@browse_movies_respects_rating_floor None None None (4 # 1) 20 0
           sample_db); [reflexivity | vm_compute; reflexivity].
Defined.

Local Close Scope Q_scope.

(* ================================================================== *)
(** * Filtered browse: years and genres of the movies returned *)
(* ================================================================== *)

Lemma opt_string_leb_total a b :
  opt_string_leb a b = true \/ opt_string_leb b a = true.
Proof.
  destruct a as [x|], b as [y|]; simpl; auto. apply String.leb_total.
Qed.

Lemma opt_string_leb_trans a b c :
  opt_string_leb a b = true -> opt_string_leb b c = true ->
  opt_string_leb a c = true.
Proof.
  destruct a as [x|], b as [y|], c as [z|]; simpl; try congruence.
  apply string_leb_trans.
Qed.

(** What the loop body keeps of the aggregated names: when the group has
    a genre and no genre of the group has an empty name, the list as it
    is, with that genre's name in it. *)
Lemma py_genres_keeps (gs : list (option Genre)) (g0 : Genre) :
  In (Some g0) gs ->
  (forall g, In (Some g) gs -> g_genre_name g <> ""%string) ->
  In (Some (g_genre_name g0)) (py_genres (genre_names gs)).
Proof.
  intros Hin Hnames.
  pose proof (option_eqb_decides string_eqb_decides) as Hdec.
  assert (H1 : In (Some (g_genre_name g0)) (genre_names gs)).
  { unfold genre_names. apply in_order_by.
    apply (proj2 (distinct_In Hdec _ _)).
    apply in_map_iff. exists (Some g0). auto. }
  assert (H2 : StronglySorted (fun a b => opt_string_leb a b = true)
                 (genre_names gs)).
  { unfold genre_names. apply order_by_StronglySorted.
    - apply opt_string_leb_total.
    - auto.
    - apply opt_string_leb_trans. }
  assert (H3 : forall s, In (Some s) (genre_names gs) -> s <> ""%string).
  { intros s Hs. unfold genre_names in Hs. apply in_order_by in Hs.
    apply in_distinct in Hs. apply in_map_iff in Hs.
    destruct Hs as ([g|] & E & Hg); [|discriminate].
    inversion E. subst s. now apply Hnames. }
  destruct (genre_names gs) as [|[s|] tl]; [destruct H1| |].
  - unfold py_genres. assert (Hs : s <> ""%string) by (apply H3; now left).
    destruct s; [congruence|]. exact H1.
  - exfalso. inversion H2 as [|? ? _ Hall]; subst.
    destruct H1 as [H1|H1]; [discriminate|].
    rewrite Forall_forall in Hall. specialize (Hall _ H1). discriminate.
Qed.

Lemma where_ok_In bs m omg b :
  where_ok bs m omg = true -> In b bs -> eval_bound m omg b = Some true.
Proof.
  unfold where_ok, eval_where. induction bs as [|c bs IH]; intros H Hin.
  - destruct Hin.
  - simpl in H.
    destruct (eval_bound m omg c) as [[|]|] eqn:Ec;
      destruct (fold_right (fun b0 acc => and3 (eval_bound m omg b0) acc)
                  (Some true) bs) as [[|]|] eqn:Ef;
      simpl in H; try discriminate.
    destruct Hin as [->|Hin]; [exact Ec|]. now apply IH.
Qed.

Lemma where_ok_genre bs m omg gid :
  where_ok bs m omg = true -> In (BGenreEq (inject_Z gid)) bs ->
  exists mg, omg = Some mg /\ mg_genre_id mg = gid.
Proof.
  intros H Hin. pose proof (where_ok_In _ _ _ _ H Hin) as E.
  simpl in E. destruct omg as [mg|]; [|discriminate].
  exists mg. split; [reflexivity|]. simpl in E. inversion E as [E'].
  rewrite Qeq_bool_inject in E'. now apply Z.eqb_eq.
Qed.

Lemma browse_bounds_genre gid y1 y2 :
  gid <> 0 -> In (BGenreEq (inject_Z gid)) (browse_bounds (Some gid) y1 y2).
Proof.
  intros H. unfold browse_bounds. cbn [truthy_opt coalesce].
  unfold truthy_Z. apply Z.eqb_neq in H. rewrite H. cbn. auto.
Qed.

Lemma movie_key_eqb_refl k : movie_key_eqb k k = true.
Proof. now apply movie_key_eqb_decides. Qed.

(** The genres of a row of the statement without a rating floor. *)
Lemma plain_rows_genres bs db row gid genre :
  In row (browse_plain_rows bs db) ->
  In (BGenreEq (inject_Z gid)) bs ->
  In genre (genres db) -> g_genre_id genre = gid ->
  Forall (fun g => g_genre_name g <> ""%string) (genres db) ->
  In (Some (g_genre_name genre)) (py_genres (bm_genres row)).
Proof.
  intros Hrow Hb Hgenre Hid Hnames. unfold browse_plain_rows in Hrow.
  apply in_map_iff in Hrow. destruct Hrow as ([k grp] & <- & Hg).
  apply in_group_by in Hg. destruct Hg as ((a & Ha & Hk) & ->).
  destruct k as [[[i t] y] s]. cbn [fst snd bm_genres].
  apply filter_In in Ha. destruct Ha as [Ha Hw].
  destruct a as [[[m0 omg0] og0] orr0]. cbn [fst snd] in *.
  destruct (where_ok_genre _ _ _ _ Hw Hb) as (mg0 & -> & Hmg).
  apply in_left_join_left in Ha. unfold movies_with_genres in Ha.
  apply in_left_join_left in Ha.
  assert (H1 : In (m0, Some mg0, Some genre) (movies_with_genres db)).
  { unfold movies_with_genres. apply in_left_join_right.
    split; [exact Ha|]. split; [exact Hgenre|].
    unfold on_genre. cbn. apply Z.eqb_eq. congruence. }
  destruct (left_join_covers
              (fun row r => on_rating_of (m_movie_id (fst (fst row))) r)
              _ (ratings db) _ H1) as (orr & H2).
  apply py_genres_keeps.
  - apply in_map_iff. exists (m0, Some mg0, Some genre, orr).
    split; [reflexivity|]. apply filter_In. split.
    + apply filter_In. split; [exact H2 | exact Hw].
    + cbn [fst]. rewrite Hk. apply movie_key_eqb_refl.
  - intros g Hg. apply in_map_iff in Hg.
    destruct Hg as ([[[m1 omg1] og1] orr1] & E & Hin). cbn in E. subst og1.
    apply filter_In in Hin. destruct Hin as [Hin _].
    apply filter_In in Hin. destruct Hin as [Hin _].
    apply in_left_join_left in Hin. unfold movies_with_genres in Hin.
    apply in_left_join_right in Hin. destruct Hin as (_ & Hin & _).
    rewrite Forall_forall in Hnames. now apply Hnames.
Qed.

Lemma movie_rating_eqb_refl mr : movie_rating_eqb mr mr = true.
Proof.
  unfold movie_rating_eqb. rewrite movie_key_eqb_refl, Z.eqb_refl.
  rewrite andb_true_r. cbn. apply Qeq_bool_iff. reflexivity.
Qed.

(** The genres of a row of the statement with a rating floor. *)
Lemma rated_rows_genres bs q db row gid genre :
  In row (browse_rated_rows bs q db) ->
  In (BGenreEq (inject_Z gid)) bs ->
  In genre (genres db) -> g_genre_id genre = gid ->
  Forall (fun g => g_genre_name g <> ""%string) (genres db) ->
  In (Some (g_genre_name genre)) (py_genres (bm_genres row)).
Proof.
  intros Hrow Hb Hgenre Hid Hnames. unfold browse_rated_rows in Hrow.
  apply in_map_iff in Hrow. destruct Hrow as ([k grp] & <- & Hg).
  apply in_group_by in Hg. destruct Hg as ((a & Ha & Hk) & ->).
  cbn [fst snd bm_genres].
  destruct a as [[mr omg] og]. cbn [fst snd] in *. subst k.
  apply in_left_join_left in Ha. apply in_left_join_left in Ha.
  destruct (cte_rows_origin _ _ _ _ Ha) as (m0 & omg0 & Hin & Hw & Hmid & _).
  destruct (where_ok_genre _ _ _ _ Hw Hb) as (mg0 & -> & Hmg).
  apply in_left_join_right in Hin. destruct Hin as (_ & Hmg0 & Hon).
  unfold on_movie_genre in Hon.
  assert (H1 : In (mr, Some mg0)
                 (left_join (fun mr mg => mr_movie_id mr =? mg_movie_id mg)
                    (movie_ratings_cte bs q db) (movie_genres db))).
  { apply in_left_join_right. split; [exact Ha|]. split; [exact Hmg0|].
    now rewrite Hmid. }
  apply py_genres_keeps.
  - apply in_map_iff. exists (mr, Some mg0, Some genre).
    split; [reflexivity|]. apply filter_In. split.
    + apply in_left_join_right. split; [exact H1|]. split; [exact Hgenre|].
      unfold on_genre. cbn. apply Z.eqb_eq. congruence.
    + cbn [fst]. apply movie_rating_eqb_refl.
  - intros g Hg. apply in_map_iff in Hg.
    destruct Hg as ([[mr1 omg1] og1] & E & Hin). cbn in E. subst og1.
    apply filter_In in Hin. destruct Hin as [Hin _].
    apply in_left_join_right in Hin. destruct Hin as (_ & Hin & _).
    rewrite Forall_forall in Hnames. now apply Hnames.
Qed.
(** Every movie [browse_movies] returns carries the name of the genre
    asked for, when that genre is in the table and no genre has an empty
    name. *)
Lemma browse_movies_rows_genres g y1 y2 r lim off db res genre :
  fst (browse_movies (Some g) y1 y2 r lim off db) = OK res ->
  g <> 0 -> In genre (genres db) -> g_genre_id genre = g ->
  Forall (fun x => g_genre_name x <> ""%string) (genres db) ->
  Forall (fun m => In (Some (g_genre_name genre)) (bm_genres m))
         (res_movies res).
Proof.
  rewrite browse_movies_unfold. cbv zeta.
  match goal with |- context [limit_offset lim off ?l] =>
    destruct (limit_offset lim off l) as [rows|e] eqn:E
  end; simpl; [|discriminate].
  intros H Hg Hgenre Hid Hnames. inversion H; subst res; clear H. simpl.
  apply limit_offset_OK in E. destruct E as (_ & _ & ->).
  apply Forall_forall. intros m Hm. apply in_map_iff in Hm.
  destruct Hm as (row & <- & Hrow). apply in_firstn_skipn in Hrow.
  apply in_order_by in Hrow.
  change (bm_genres (browse_dict row)) with (py_genres (bm_genres row)).
  pose proof (browse_bounds_genre y1 y2 Hg) as Hb.
  destruct (truthy_opt truthy_Q r).
  - eapply rated_rows_genres; eassumption.
  - eapply plain_rows_genres; eassumption.
Qed.

(** C4 as stated fails, in three ways.  With both year bounds set to 0
    the year clauses are left out, and a film of 1995 comes back for the
    range 0 to 0.  With the genre set to 0, the identifier of a genre of
    the table, the genre clause is left out, and a film without that genre
    comes back.  And for a genre whose name is the empty text the film
    tagged with it comes back with an empty list of genres. *)
Lemma browse_filters_not_applied_as_stated :
  (exists m,
      fst (browse_movies None (Some 0) (Some 0) None 20 0 unrated_db)
      = OK (mkBrowseResult [m] 1)
      /\ bm_year m = Some 1995
      /\ ~ (0 <= 1995 <= 0))
  /\ (exists m1 m2,
         fst (browse_movies (Some 0) None None None 20 0 genre_zero_db)
         = OK (mkBrowseResult [m1; m2] 2)
         /\ In (mkGenre 0 "Misc") (genres genre_zero_db)
         /\ bm_movie_id m2 = 2
         /\ tagged genre_zero_db 2 0 = false
         /\ ~ In (Some "Misc"%string) (bm_genres m2))
  /\ (exists m,
         fst (browse_movies (Some 5) None None None 20 0 unnamed_genre_db)
         = OK (mkBrowseResult [m] 1)
         /\ In (mkGenre 5 "") (genres unnamed_genre_db)
         /\ tagged unnamed_genre_db (bm_movie_id m) 5 = true
         /\ bm_genres m = []).
Proof.
  split; [|split].
  - eexists. split; [vm_compute; reflexivity|]. split; [reflexivity | lia].
  - do 2 eexists. split; [vm_compute; reflexivity|].
    split; [simpl; auto|]. split; [reflexivity|]. split; [reflexivity|].
    simpl. tauto.
  - eexists. split; [vm_compute; reflexivity|].
    split; [simpl; auto|]. split; reflexivity.
Qed.

(** C4, amended.  Whenever [browse_movies] returns: a year bound that is
    set to a value other than 0 holds of the year of every movie returned,
    so with both bounds set so the year lies inside the inclusive range;
    and when [genre_id] is set to a value other than 0, every movie
    returned is tagged with that genre in [movie_genres], and its genres
    include the name of the genre of that identifier, provided no genre of
    the table has an empty name. *)
Theorem browse_movies_within_filters
        (genre_id year_min year_max : option Z) (rating_min : option Q)
        (lim off : Z) (db : DB) (res : BrowseResult) :
  fst (browse_movies genre_id year_min year_max rating_min lim off db)
  = OK res ->
  Forall (fun m =>
            (forall lo, year_min = Some lo -> lo <> 0 ->
                        exists y, bm_year m = Some y /\ lo <= y)
            /\ (forall hi, year_max = Some hi -> hi <> 0 ->
                           exists y, bm_year m = Some y /\ y <= hi)
            /\ (forall lo hi, year_min = Some lo -> year_max = Some hi ->
                              lo <> 0 -> hi <> 0 ->
                              exists y, bm_year m = Some y /\ lo <= y <= hi)
            /\ (forall g, genre_id = Some g -> g <> 0 ->
                          tagged db (bm_movie_id m) g = true
                          /\ (Forall (fun x => g_genre_name x <> ""%string)
                                     (genres db) ->
                              forall genre,
                                In genre (genres db) ->
                                g_genre_id genre = g ->
                                In (Some (g_genre_name genre))
                                   (bm_genres m))))
         (res_movies res).
Proof.
  intros H. pose proof (browse_movies_rows_pass _ _ _ _ _ _ _ H) as Hpass.
  apply Forall_forall. intros m Hm.
  rewrite Forall_forall in Hpass. destruct (Hpass m Hm) as (Hg & H1 & H2).
  assert (Hlo : forall lo, year_min = Some lo -> lo <> 0 ->
                           exists y, bm_year m = Some y /\ lo <= y).
  { intros lo -> Hne. unfold year_min_ok, truthy_Z in H1.
    apply Z.eqb_neq in Hne. rewrite Hne in H1. simpl in H1.
    destruct (bm_year m) as [y|]; [|discriminate]. exists y.
    apply Z.leb_le in H1. auto. }
  assert (Hhi : forall hi, year_max = Some hi -> hi <> 0 ->
                           exists y, bm_year m = Some y /\ y <= hi).
  { intros hi -> Hne. unfold year_max_ok, truthy_Z in H2.
    apply Z.eqb_neq in Hne. rewrite Hne in H2. simpl in H2.
    destruct (bm_year m) as [y|]; [|discriminate]. exists y.
    apply Z.leb_le in H2. auto. }
  split; [exact Hlo|]. split; [exact Hhi|]. split.
  - intros lo hi E1 E2 N1 N2.
    destruct (Hlo lo E1 N1) as (y & Ey & Hy).
    destruct (Hhi hi E2 N2) as (y' & Ey' & Hy').
    exists y. split; [exact Ey|]. rewrite Ey in Ey'. inversion Ey'. lia.
  - intros g -> Hne. split.
    + unfold genre_ok, truthy_Z in Hg.
      apply Z.eqb_neq in Hne. now rewrite Hne in Hg.
    + intros Hnames genre Hgenre Hid.
      pose proof (@browse_movies_rows_genres _ _ _ _ _ _ _ _ _ H Hne Hgenre
                    Hid Hnames) as Hall.
      rewrite Forall_forall in Hall. now apply Hall.
Qed.

(** The amended C4 at work: Crime films between 1980 and 2000. *)
Lemma browse_movies_within_filters_witness :
  exists res,
    fst (browse_movies (Some 1) (Some 1980) (Some 2000) None 20 0 sample_db)
    = OK res
    /\ map bm_movie_id (res_movies res) = [1; 3]
    /\ Forall (fun m =>
                 (exists y, bm_year m = Some y /\ 1980 <= y <= 2000)
                 /\ tagged sample_db (bm_movie_id m) 1 = true
                 /\ In (Some "Crime"%string) (bm_genres m))
              (res_movies res).
Proof.
  eexists. split; [vm_compute; reflexivity|]. split; [reflexivity|].
  eapply Forall_impl;
    [|apply (@browse_movies_within_filters (Some 1) (Some 1980) (Some 2000)
               None 20 0 sample_db); vm_compute; reflexivity].
  intros m (_ & _ & Hy & Hg).
  destruct (Hg 1 eq_refl ltac:(lia)) as [Ht Hn].
  split; [apply (Hy 1980 2000); (reflexivity || lia)|].
  split; [exact Ht|].
  apply (Hn ltac:(repeat constructor; discriminate) (mkGenre 1 "Crime"));
    [simpl; auto | reflexivity].
Defined.

(* ================================================================== *)
(** * Analytics: the five result sets against the tables *)
(* ================================================================== *)

(** ** Joins and groups in general *)

Lemma flat_map_flat_map {A B C} (F : B -> list C) (G : A -> list B) l :
  flat_map F (flat_map G l) = flat_map (fun a => flat_map F (G a)) l.
Proof.
  induction l as [|a l IH]; simpl; [reflexivity|].
  now rewrite flat_map_app, IH.
Qed.

Lemma flat_map_map_filter {A B C} (F : A * B -> list C) (on : B -> bool)
      (a : A) r :
  flat_map F (map (pair a) (filter on r))
  = flat_map (fun b => if on b then F (a, b) else []) r.
Proof.
  induction r as [|b r IH]; simpl; [reflexivity|].
  destruct (on b); simpl; now rewrite IH.
Qed.

(** A comprehension over an inner join, as two nested loops. *)
Lemma flat_map_inner_join {A B C} (F : A * B -> list C) on (l : list A)
      (r : list B) :
  flat_map F (inner_join on l r)
  = flat_map (fun a => flat_map (fun b => if on a b then F (a, b) else []) r)
             l.
Proof.
  unfold inner_join. rewrite flat_map_flat_map.
  apply flat_map_ext. intros a. apply flat_map_map_filter.
Qed.

(** The right sides of the rows of an inner join whose left side passes
    a test. *)
Lemma inner_join_right_sides {A B} (on : A -> B -> bool) (p : A -> bool) l r :
  map snd (filter (fun row => p (fst row)) (inner_join on l r))
  = flat_map (fun a => if p a then filter (on a) r else []) l.
Proof.
  unfold inner_join.
  induction l as [|a l IH]; cbn [flat_map]; [reflexivity|].
  rewrite filter_app, map_app, IH. f_equal.
  generalize (filter (on a) r). intros bs.
  destruct (p a) eqn:Ep;
    induction bs as [|b bs IHb]; cbn [map filter fst]; try reflexivity;
    rewrite Ep; cbn [map snd]; [f_equal|]; exact IHb.
Qed.

Section GroupFacts.
Variables (A K : Type) (eqb : K -> K -> bool).
Hypothesis eqb_eq : decides_eq eqb.
Variable key : A -> K.

(** Every row has its group. *)
Lemma group_by_has_group l a :
  In a l -> In (key a, filter (fun x => eqb (key x) (key a)) l)
               (group_by eqb key l).
Proof.
  intros H. unfold group_by. apply in_map_iff. exists (key a).
  split; [reflexivity|]. apply (proj2 (distinct_In eqb_eq _ _)).
  now apply in_map.
Qed.
End GroupFacts.

Lemma key3_eqb_decides : decides_eq key3_eqb.
Proof.
  intros [[i1 t1] y1] [[i2 t2] y2]. unfold key3_eqb.
  rewrite !andb_true_iff, Z.eqb_eq, String.eqb_eq.
  rewrite (option_eqb_decides Z_eqb_decides y1 y2).
  split.
  - intros [[-> ->] ->]. reflexivity.
  - intros E. inversion E. auto.
Qed.

Lemma genre_key_eqb_decides : decides_eq genre_key_eqb.
Proof.
  intros [i1 n1] [i2 n2]. unfold genre_key_eqb. simpl.
  rewrite andb_true_iff, Z.eqb_eq, String.eqb_eq. split.
  - intros [-> ->]. reflexivity.
  - intros E. inversion E. auto.
Qed.

Lemma Forall2_In_l {A B} (R : A -> B -> Prop) l l' a :
  Forall2 R l l' -> In a l -> exists b, In b l' /\ R a b.
Proof.
  induction 1 as [|x y l l' Hxy _ IH]; intros Hin; [destruct Hin|].
  destruct Hin as [->|Hin].
  - exists y. split; [now left | assumption].
  - destruct (IH Hin) as (b & Hb & Hr). exists b. split; [now right|assumption].
Qed.

Lemma Forall2_In_r {A B} (R : A -> B -> Prop) l l' b :
  Forall2 R l l' -> In b l' -> exists a, In a l /\ R a b.
Proof.
  induction 1 as [|x y l l' Hxy _ IH]; intros Hin; [destruct Hin|].
  destruct Hin as [->|Hin].
  - exists x. split; [now left | assumption].
  - destruct (IH Hin) as (a & Ha & Hr). exists a. split; [now right|assumption].
Qed.

(** In a sorted list every row of the first [n] comes no later than every
    row after them. *)
Lemma StronglySorted_firstn_skipn {A} (P : A -> A -> Prop) n l x y :
  StronglySorted P l -> In x (firstn n l) -> In y (skipn n l) -> P x y.
Proof.
  revert n. induction l as [|a l IH]; intros n Hs Hx Hy.
  - rewrite firstn_nil in Hx. destruct Hx.
  - destruct n as [|n]; [destruct Hx|]. simpl in Hx, Hy.
    inversion Hs as [|? ? Hs' Hall]; subst.
    destruct Hx as [->|Hx].
    + rewrite Forall_forall in Hall. apply Hall.
      rewrite <- (firstn_skipn n l). apply in_or_app. now right.
    + eapply IH; eassumption.
Qed.

Lemma mean_avg (l : list Q) : l <> [] -> avg l = Some (mean l).
Proof. destruct l; [congruence|]. intros _. reflexivity. Qed.

Local Open Scope Q_scope.

(** ** The top list *)

Lemma top_group_fields db k :
  let grp :=
    filter (fun row : Movie * Rating => key3_eqb (key3_of (fst row)) k)
      (inner_join (fun m r => (m_movie_id m =? r_movie_id r)%Z)
         (movies db) (ratings db)) in
  count (map (fun row => r_rating_id (snd row)) grp)
  = count (ratings_joined db k)
  /\ map (fun row => r_rating (snd row)) grp
     = map r_rating (ratings_joined db k).
Proof.
  intros grp.
  assert (E : map snd grp = ratings_joined db k).
  { unfold grp, ratings_joined.
    apply (inner_join_right_sides
             (fun m r => (m_movie_id m =? r_movie_id r)%Z)
             (fun m => key3_eqb (key3_of m) k)). }
  rewrite <- E. unfold count. rewrite !length_map, map_map. auto.
Qed.

Lemma count_nonempty {A} (l : list A) : (1 <= count l)%Z -> l <> [].
Proof. intros H E. subst l. unfold count in H. simpl in H. lia. Qed.

Lemma top_movies_sql_spec db rows :
  top_movies_sql db = OK rows ->
  Forall (fun row => (50 <= tr_rating_count row)%Z
                     /\ exists m, In m (movies db) /\ top_row_of db m row)
         rows
  /\ (forall m, In m (movies db) ->
        (50 <= count (ratings_joined db (key3_of m)))%Z ->
        (exists row, In row rows /\ top_row_of db m row)
        \/ (List.length rows = 10%nat
            /\ Forall (fun row =>
                         exists a, tr_order row = Some a
                                   /\ mean (map r_rating
                                              (ratings_joined db (key3_of m)))
                                      <= a) rows)).
Proof.
  intros H. pose proof (top_movies_sql_order H) as (Hlen & Hsorted & Hord).
  unfold top_movies_sql in H.
  match type of H with limit 10 ?l = _ =>
    pose proof (limit_cases 10 l) as Hl; rewrite H in Hl; set (sorted := l) in *
  end.
  destruct Hl as (_ & Erows & _).
  set (joined := inner_join (fun m r => (m_movie_id m =? r_movie_id r)%Z)
                   (movies db) (ratings db)) in *.
  assert (Hrow : forall m grp,
             In m (movies db) ->
             grp = filter (fun row : Movie * Rating =>
                             key3_eqb (key3_of (fst row)) (key3_of m)) joined ->
             (1 <= count (map (fun row => r_rating_id (snd row)) grp))%Z ->
             top_row_of db m
               (mkTopRow (m_title m) (m_year m)
                  (round_avg (map (fun row => r_rating (snd row)) grp))
                  (count (map (fun row => r_rating_id (snd row)) grp))
                  (avg (map (fun row => r_rating (snd row)) grp)))).
  { intros m grp Hm -> Hc.
    destruct (top_group_fields db (key3_of m)) as [Ec Er].
    fold joined in Ec, Er. unfold top_row_of.
    cbn [tr_title tr_year tr_rating_count tr_avg_rating tr_order].
    rewrite Ec in *. rewrite Er.
    assert (Hne : map r_rating (ratings_joined db (key3_of m)) <> []).
    { apply count_nonempty in Hc. intros E. apply map_eq_nil in E.
      congruence. }
    unfold round_avg. rewrite (mean_avg Hne). auto. }
  split.
  - apply Forall_forall. intros row Hin. rewrite Erows in Hin.
    apply (in_firstn_skipn (Z.to_nat 10) 0) in Hin.
    apply in_order_by in Hin. apply in_map_iff in Hin.
    destruct Hin as ([k grp] & <- & Hg). apply filter_In in Hg.
    destruct Hg as [Hg Hcount]. cbn [fst snd] in Hcount.
    apply Z.leb_le in Hcount.
    apply in_group_by in Hg. destruct Hg as (([m r] & Hin & Hk) & Egrp).
    apply in_inner_join in Hin. destruct Hin as (Hm & _ & _).
    cbn [fst] in Hk. subst k. cbn [fst snd].
    split; [exact Hcount|]. exists m. split; [exact Hm|].
    apply Hrow; [exact Hm | exact Egrp | lia].
  - intros m Hm H50.
    set (grp := filter (fun row : Movie * Rating =>
                          key3_eqb (key3_of (fst row)) (key3_of m)) joined).
    destruct (top_group_fields db (key3_of m)) as [Ec Er].
    fold joined in Ec, Er. fold grp in Ec, Er.
    assert (Hgrp : In (key3_of m, grp)
                      (group_by key3_eqb
                         (fun row : Movie * Rating => key3_of (fst row))
                         joined)).
    { assert (Hne : ratings_joined db (key3_of m) <> [])
        by (apply count_nonempty; lia).
      destruct (ratings_joined db (key3_of m)) as [|r rs] eqn:E;
        [congruence|].
      assert (Hr : In r (ratings_joined db (key3_of m)))
        by (rewrite E; now left).
      unfold ratings_joined in Hr. apply in_flat_map in Hr.
      destruct Hr as (m' & Hm' & Hr).
      destruct (key3_eqb (key3_of m') (key3_of m)) eqn:Ek; [|destruct Hr].
      apply key3_eqb_decides in Ek. apply filter_In in Hr.
      assert (Hin : In (m', r) joined)
        by (apply in_inner_join; tauto).
      pose proof (group_by_has_group key3_eqb_decides
                    (fun row : Movie * Rating => key3_of (fst row))
                    joined (m', r) Hin) as Hg.
      cbn [fst] in Hg. rewrite Ek in Hg. exact Hg. }
    set (row := mkTopRow (m_title m) (m_year m)
                  (round_avg (map (fun row => r_rating (snd row)) grp))
                  (count (map (fun row => r_rating_id (snd row)) grp))
                  (avg (map (fun row => r_rating (snd row)) grp))).
    assert (Hof : top_row_of db m row).
    { apply Hrow; [exact Hm | reflexivity | rewrite Ec; lia]. }
    assert (Hin : In row sorted).
    { unfold sorted. apply in_order_by. apply in_map_iff.
      exists (key3_of m, grp). split; [reflexivity|].
      apply filter_In. split; [exact Hgrp|].
      cbn [fst snd]. apply Z.leb_le. rewrite Ec. exact H50. }
    rewrite <- (firstn_skipn (Z.to_nat 10) sorted) in Hin.
    apply in_app_or in Hin. rewrite <- Erows in Hin.
    destruct Hin as [Hin|Hin]; [left; exists row; auto|right].
    split.
    + rewrite Erows. apply firstn_length_le.
      destruct (Nat.le_gt_cases (Z.to_nat 10) (List.length sorted))
        as [Hle|Hgt]; [exact Hle|].
      rewrite skipn_all2 in Hin by lia. destruct Hin.
    + apply Forall_forall. intros row' Hrow'.
      rewrite Forall_forall in Hord. destruct (Hord row' Hrow') as (a & Ea & _).
      exists a. split; [exact Ea|].
      assert (Hge : opt_Q_geb (tr_order row') (tr_order row) = true).
      { rewrite Erows in Hrow'.
        eapply (@StronglySorted_firstn_skipn _
                  (fun a b => opt_Q_geb (tr_order a) (tr_order b) = true)
                  (Z.to_nat 10) sorted); [|exact Hrow'|exact Hin].
        unfold sorted. apply order_by_StronglySorted.
        - intros x y. apply opt_Q_geb_total.
        - auto.
        - intros x y z. apply opt_Q_geb_trans. }
      destruct Hof as (_ & _ & _ & _ & Eo). rewrite Ea, Eo in Hge.
      unfold opt_Q_geb in Hge. simpl in Hge. now apply Qle_bool_iff.
Qed.

(** ** The genre distribution *)

Lemma distinct_same_count {K} (eqb : K -> K -> bool) l1 l2 :
  decides_eq eqb -> (forall x, In x l1 <-> In x l2) ->
  count (distinct eqb l1) = count (distinct eqb l2).
Proof.
  intros Hd H. unfold count. f_equal. apply Permutation_length.
  apply NoDup_Permutation; try apply (distinct_NoDup Hd).
  intros x. rewrite !(distinct_In Hd). apply H.
Qed.

Lemma genre_group_movies db g :
  In g (genres db) ->
  count (distinct Z.eqb
           (map (fun row : Genre * MovieGenre => mg_movie_id (snd row))
              (filter (fun row => genre_key_eqb (genre_key (fst row))
                                                (genre_key g))
                      (genres_with_movies db))))
  = count (movies_of_genre db (g_genre_id g)).
Proof.
  intros Hg. unfold movies_of_genre. apply distinct_same_count.
  { apply Z_eqb_decides. }
  intros x. rewrite !in_map_iff. split.
  - intros ([g' mg] & <- & Hin). apply filter_In in Hin.
    destruct Hin as [Hin Hk]. cbn [fst snd] in *.
    apply genre_key_eqb_decides in Hk.
    unfold genres_with_movies in Hin. apply in_inner_join in Hin.
    destruct Hin as (_ & Hmg & Hon). exists mg. split; [reflexivity|].
    apply filter_In. split; [exact Hmg|].
    unfold genre_key in Hk. inversion Hk as [[Hid Hn]].
    apply Z.eqb_eq. apply Z.eqb_eq in Hon. congruence.
  - intros (mg & <- & Hin). apply filter_In in Hin. destruct Hin as [Hmg Hid].
    exists (g, mg). split; [reflexivity|]. apply filter_In. split.
    + unfold genres_with_movies. apply in_inner_join.
      split; [exact Hg|]. split; [exact Hmg|].
      apply Z.eqb_eq. apply Z.eqb_eq in Hid. congruence.
    + cbn [fst]. apply genre_key_eqb_decides. reflexivity.
Qed.

Lemma genre_dist_sql_spec db rows :
  genre_dist_sql db = OK rows ->
  Forall (fun e => exists g, In g (genres db) /\ genre_count_of db g e) rows
  /\ (forall g, In g (genres db) ->
                movies_of_genre db (g_genre_id g) <> [] ->
                exists e, In e rows /\ genre_count_of db g e).
Proof.
  unfold genre_dist_sql. intros H. inversion H; subst; clear H. split.
  - apply Forall_forall. intros row Hrow.
    apply in_order_by in Hrow. apply in_map_iff in Hrow.
    destruct Hrow as ([k grp] & <- & Hg).
    apply in_group_by in Hg. destruct Hg as (([g mg] & Hin & Hk) & ->).
    unfold genres_with_movies in Hin. apply in_inner_join in Hin.
    destruct Hin as (Hg & _ & _). cbn [fst snd] in *. subst k.
    exists g. split; [exact Hg|]. unfold genre_count_of.
    cbn [gc_genre gc_count fst snd genre_key].
    split; [reflexivity|]. now apply genre_group_movies.
  - intros g Hg Hne.
    destruct (movies_of_genre db (g_genre_id g)) as [|x xs] eqn:E;
      [congruence|].
    assert (Hx : In x (movies_of_genre db (g_genre_id g)))
      by (rewrite E; now left).
    unfold movies_of_genre in Hx. apply in_distinct in Hx.
    apply in_map_iff in Hx. destruct Hx as (mg & _ & Hmg).
    apply filter_In in Hmg. destruct Hmg as [Hmg Hid].
    assert (Hin : In (g, mg) (genres_with_movies db)).
    { unfold genres_with_movies. apply in_inner_join.
      split; [exact Hg|]. split; [exact Hmg|].
      apply Z.eqb_eq. apply Z.eqb_eq in Hid. congruence. }
    pose proof (group_by_has_group genre_key_eqb_decides
                  (fun row : Genre * MovieGenre => genre_key (fst row))
                  (genres_with_movies db) (g, mg) Hin) as Hgrp.
    cbn [fst] in Hgrp.
    eexists. split.
    + apply in_order_by. apply in_map_iff. eexists. split; [reflexivity|].
      exact Hgrp.
    + unfold genre_count_of. cbn [gc_genre gc_count fst snd genre_key].
      split; [reflexivity|]. now apply genre_group_movies.
Qed.

(** ** The yearly figures *)

Lemma year_group_ratings db y :
  map snd
    (filter (fun p : Z * Rating => (fst p =? y)%Z)
       (flat_map (fun r => match r_rated_at r with
                           | Some t => [(ts_year t, r)]
                           | None => []
                           end) (ratings db)))
  = ratings_in_year db y.
Proof.
  unfold ratings_in_year. induction (ratings db) as [|r rs IH]; [reflexivity|].
  cbn [flat_map filter]. rewrite filter_app, map_app, IH.
  destruct (r_rated_at r) as [t|]; cbn [filter fst app map]; [|reflexivity].
  destruct (ts_year t =? y)%Z; reflexivity.
Qed.

Lemma ratings_time_sql_spec db rows :
  ratings_time_sql db = OK rows ->
  Forall (year_row_of db) rows
  /\ (forall r t, In r (ratings db) -> r_rated_at r = Some t ->
                  exists row, In row rows /\ yr_year row = ts_year t).
Proof.
  unfold ratings_time_sql. intros H. inversion H; subst; clear H.
  match goal with |- context [group_by Z.eqb fst ?l] => set (dated := l) end.
  split.
  - apply Forall_forall. intros row Hrow.
    apply in_order_by in Hrow. apply in_map_iff in Hrow.
    destruct Hrow as ([k grp] & <- & Hg). pose proof Hg as Hne.
    apply group_by_nonempty in Hne; [|apply Z.eqb_refl].
    apply in_group_by in Hg. destruct Hg as (_ & Egrp).
    pose proof (year_group_ratings db k) as E. fold dated in E.
    cbn [fst snd] in *. rewrite <- Egrp in E.
    unfold year_row_of. cbn [yr_year yr_rating_count yr_avg_rating].
    rewrite <- E. split.
    + unfold count. now rewrite length_map.
    + rewrite map_map. unfold round_avg. rewrite mean_avg; [reflexivity|].
      intros En. apply map_eq_nil in En. congruence.
  - intros r t Hr Ht.
    assert (Hin : In (ts_year t, r) dated).
    { unfold dated. apply in_flat_map. exists r. split; [exact Hr|].
      rewrite Ht. now left. }
    pose proof (group_by_has_group Z_eqb_decides fst dated _ Hin) as Hgrp.
    cbn [fst] in Hgrp. eexists. split.
    + apply in_order_by. apply in_map_iff. eexists. split; [reflexivity|].
      exact Hgrp.
    + reflexivity.
Qed.

(** ** The average rating by genre *)

Lemma genre_group_ratings db k :
  map snd
    (filter (fun row : Genre * MovieGenre * Rating =>
               genre_key_eqb (genre_key (fst (fst row))) k)
       (inner_join (fun row r => (mg_movie_id (snd row) =? r_movie_id r)%Z)
          (genres_with_movies db) (ratings db)))
  = genre_ratings_joined db k.
Proof.
  rewrite (inner_join_right_sides
             (fun (row : Genre * MovieGenre) r =>
                (mg_movie_id (snd row) =? r_movie_id r)%Z)
             (fun row => genre_key_eqb (genre_key (fst row)) k)).
  unfold genres_with_movies.
  rewrite (flat_map_inner_join
             (fun row : Genre * MovieGenre =>
                if genre_key_eqb (genre_key (fst row)) k
                then filter (fun r => (mg_movie_id (snd row) =? r_movie_id r)%Z)
                            (ratings db)
                else [])).
  unfold genre_ratings_joined. apply flat_map_ext. intros g. cbn [fst snd].
  destruct (genre_key_eqb (genre_key g) k); [reflexivity|].
  induction (movie_genres db) as [|mg l IH]; [reflexivity|].
  cbn [flat_map]. rewrite IH.
  destruct (g_genre_id g =? mg_genre_id mg)%Z; reflexivity.
Qed.

Lemma genre_ratings_sql_spec db rows :
  genre_ratings_sql db = OK rows ->
  Forall (fun row => exists g, In g (genres db) /\ genre_row_of db g row) rows
  /\ (forall g, In g (genres db) ->
                genre_ratings_joined db (genre_key g) <> [] ->
                exists row, In row rows /\ genre_row_of db g row).
Proof.
  unfold genre_ratings_sql. intros H. inversion H; subst; clear H.
  match goal with |- context [group_by genre_key_eqb _ ?l] =>
    set (joined := l) end.
  assert (Hrow : forall g grp,
             grp = filter (fun row : Genre * MovieGenre * Rating =>
                             genre_key_eqb (genre_key (fst (fst row)))
                                           (genre_key g)) joined ->
             grp <> [] ->
             genre_row_of db g
               (mkGenreRatingRow (snd (genre_key g))
                  (round_avg (map (fun row => r_rating (snd row)) grp))
                  (count (map (fun row => r_rating_id (snd row)) grp)))).
  { intros g grp Egrp Hne.
    pose proof (genre_group_ratings db (genre_key g)) as E.
    fold joined in E. rewrite <- Egrp in E.
    unfold genre_row_of.
    cbn [grr_genre_name grr_rating_count grr_avg_rating genre_key snd].
    rewrite <- E. split; [reflexivity|]. split.
    - unfold count. now rewrite !length_map.
    - rewrite map_map. unfold round_avg. rewrite mean_avg; [reflexivity|].
      intros En. apply map_eq_nil in En. congruence. }
  split.
  - apply Forall_forall. intros row Hin.
    apply in_order_by in Hin. apply in_map_iff in Hin.
    destruct Hin as ([k grp] & <- & Hg). pose proof Hg as Hne.
    apply group_by_nonempty in Hne; [|apply genre_key_eqb_refl].
    apply in_group_by in Hg. destruct Hg as (([[g mg] r] & Hin & Hk) & Egrp).
    unfold joined in Hin. apply in_inner_join in Hin.
    destruct Hin as (Hgm & _ & _). unfold genres_with_movies in Hgm.
    apply in_inner_join in Hgm. destruct Hgm as (Hg & _ & _).
    cbn [fst snd] in *. subst k. exists g. split; [exact Hg|].
    now apply Hrow.
  - intros g Hg Hne.
    set (grp := filter (fun row : Genre * MovieGenre * Rating =>
                          genre_key_eqb (genre_key (fst (fst row)))
                                        (genre_key g)) joined).
    pose proof (genre_group_ratings db (genre_key g)) as E.
    fold joined in E. fold grp in E.
    assert (Hgne : grp <> []).
    { intros En. rewrite En in E. simpl in E. congruence. }
    destruct grp as [|a grp'] eqn:Egrp; [congruence|].
    assert (Ha : In a (a :: grp')) by now left.
    rewrite <- Egrp in Ha. unfold grp in Ha. apply filter_In in Ha.
    destruct Ha as [Ha Hk]. apply genre_key_eqb_decides in Hk.
    pose proof (group_by_has_group genre_key_eqb_decides
                  (fun row : Genre * MovieGenre * Rating =>
                     genre_key (fst (fst row)))
                  joined a Ha) as Hgrp.
    cbn beta in Hgrp. rewrite Hk in Hgrp. fold grp in Hgrp.
    eexists. split.
    + apply in_order_by. apply in_map_iff. eexists. split; [reflexivity|].
      exact Hgrp.
    + cbn [fst snd]. apply Hrow; [reflexivity|]. rewrite Egrp. discriminate.
Qed.

(** ** The movies by decade *)

Lemma decade_group_movies db d :
  List.length (filter (fun y => (decade_of y =? d)%Z)
                      (non_null (map m_year (movies db))))
  = List.length (movies_in_decade db d).
Proof.
  unfold movies_in_decade, decade_of.
  induction (movies db) as [|m ms IH]; [reflexivity|].
  cbn [map non_null flat_map filter].
  change (flat_map (fun o : option Z => match o with
                                        | Some a => [a]
                                        | None => []
                                        end) (map m_year ms))
    with (non_null (map m_year ms)).
  rewrite filter_app, length_app, IH.
  destruct (m_year m) as [y|]; cbn [filter]; [|reflexivity].
  destruct (Z.quot y 10 * 10 =? d)%Z; reflexivity.
Qed.

Lemma decade_sql_spec db rows :
  decade_sql db = OK rows ->
  StronglySorted (fun a b => (fst a < fst b)%Z) rows
  /\ Forall (fun row => snd row = count (movies_in_decade db (fst row))) rows
  /\ (forall m y, In m (movies db) -> m_year m = Some y ->
                  exists row, In row rows
                              /\ fst row = (Z.quot y 10 * 10)%Z).
Proof.
  unfold decade_sql. intros H. inversion H; subst; clear H.
  set (years := non_null (map m_year (movies db))).
  set (rows := map (fun g : Z * list Z => (fst g, count (snd g)))
                   (group_by Z.eqb decade_of years)).
  split; [|split].
  - apply sorted_distinct_strict.
    + apply order_by_StronglySorted.
      * intros x y. destruct (Z.leb_spec (fst x) (fst y));
          [now left | right; apply Z.leb_le; lia].
      * intros x y Hxy. now apply Z.leb_le.
      * intros x y z. apply Z.le_trans.
    + apply (Permutation_NoDup (l := map fst rows)).
      * apply Permutation_map. symmetry. apply order_by_perm.
      * unfold rows. rewrite map_map. simpl.
        apply (group_by_keys_NoDup Z_eqb_decides).
  - apply Forall_forall. intros row Hrow.
    apply in_order_by in Hrow. apply in_map_iff in Hrow.
    destruct Hrow as ([k grp] & <- & Hg).
    apply in_group_by in Hg. destruct Hg as (_ & ->). cbn [fst snd].
    unfold count. f_equal. apply decade_group_movies.
  - intros m y Hm Hy.
    assert (Hin : In y years).
    { unfold years. apply in_non_null. rewrite <- Hy. now apply in_map. }
    pose proof (group_by_has_group Z_eqb_decides decade_of years y Hin)
      as Hgrp.
    eexists. split.
    + apply in_order_by. apply in_map_iff. eexists. split; [reflexivity|].
      exact Hgrp.
    + reflexivity.
Qed.

(** ** The five result sets of [get_analytics_data] *)

Lemma Forall2_with_In {A B} (R : A -> B -> Prop) l l' :
  Forall2 R l l' -> Forall2 (fun a b => In a l /\ R a b) l l'.
Proof.
  induction 1 as [|a b l l' Hab _ IH]; constructor.
  - split; [now left | exact Hab].
  - eapply Forall2_impl; [|exact IH].
    intros x y (Hx & Hr). split; [now right | exact Hr].
Qed.

Lemma top_movies_spec_holds db r1 top :
  top_movies_sql db = OK r1 -> mapM top_movie_dict r1 = OK top ->
  top_movies_spec db top.
Proof.
  intros E1 Etop.
  pose proof (top_movies_sql_order E1) as (Hlen & Hs & Hord).
  pose proof (top_movies_sql_spec E1) as (Hsound & Hcomplete).
  apply mapM_Forall2 in Etop.
  rewrite Forall_forall in Hord, Hsound.
  assert (HF : Forall2 (fun row t =>
                 In row r1
                 /\ tm_title t = tr_title row /\ tm_year t = tr_year row
                 /\ tm_rating_count t = tr_rating_count row
                 /\ tr_avg_rating row = Some (tm_avg_rating t)) r1 top).
  { eapply Forall2_impl; [|apply Forall2_with_In; exact Etop].
    intros row t (Hin & Ht). split; [exact Hin|].
    unfold top_movie_dict in Ht.
    destruct (tr_avg_rating row); simpl in Ht; [|discriminate].
    inversion Ht; subst. cbn. auto. }
  assert (Hentry : forall m row t,
             top_row_of db m row ->
             tm_title t = tr_title row /\ tm_year t = tr_year row
             /\ tm_rating_count t = tr_rating_count row
             /\ tr_avg_rating row = Some (tm_avg_rating t) ->
             top_entry_of db m t).
  { intros m row t (R1 & R2 & R3 & R4 & _) (T1 & T2 & T3 & T4).
    unfold top_entry_of. rewrite T1, T2, T3.
    rewrite R4 in T4. inversion T4 as [T4']. auto. }
  assert (Havg : forall row t,
             In row r1 -> tr_avg_rating row = Some (tm_avg_rating t) ->
             exists q, tr_order row = Some q
                       /\ tm_avg_rating t = round_numeric 2 q).
  { intros row t Hrow Ht. destruct (Hord row Hrow) as (q & Hq & Hr).
    exists q. split; [exact Hq|]. congruence. }
  unfold top_movies_spec. split; [|split; [|split]].
  - apply Forall_forall. intros t Ht.
    destruct (Forall2_In_r _ HF Ht) as (row & Hrow & _ & Hrt).
    destruct (Hsound row Hrow) as (H50 & m & Hm & Hof).
    split.
    + destruct Hrt as (_ & _ & -> & _). exact H50.
    + exists m. split; [exact Hm|]. eapply Hentry; eassumption.
  - now rewrite (Forall2_length_eq Etop).
  - eapply StronglySorted_Forall2; [|exact HF|exact Hs].
    intros a b a' b' Hab (Ia & _ & _ & _ & Ha) (Ib & _ & _ & _ & Hb).
    destruct (Havg _ _ Ia Ha) as (qa & Ea & ->).
    destruct (Havg _ _ Ib Hb) as (qb & Eb & ->).
    apply round_numeric_mono. unfold opt_Q_geb in Hab.
    rewrite Ea, Eb in Hab. simpl in Hab. now apply Qle_bool_iff.
  - intros m Hm H50. destruct (Hcomplete m Hm H50) as [(row & Hrow & Hof)|[Hl Hall]].
    + left. destruct (Forall2_In_l _ HF Hrow) as (t & Ht & _ & Hrt).
      exists t. split; [exact Ht|]. eapply Hentry; eassumption.
    + right. split; [now rewrite (Forall2_length_eq Etop)|].
      apply Forall_forall. intros t Ht.
      destruct (Forall2_In_r _ HF Ht) as (row & Hrow & _ & _ & _ & _ & Hrt).
      rewrite Forall_forall in Hall.
      destruct (Hall row Hrow) as (a & Ea & Hle).
      destruct (Havg _ _ Hrow Hrt) as (q & Eq & ->).
      rewrite Ea in Eq. inversion Eq; subst q.
      now apply round_numeric_mono.
Qed.

Lemma genre_distribution_spec_holds db dist :
  genre_dist_sql db = OK dist ->
  genre_distribution_spec db
    (map (fun row => mkGenreCount (gc_genre row) (gc_count row)) dist).
Proof.
  intros E.
  rewrite (map_ext (fun row => mkGenreCount (gc_genre row) (gc_count row))
                   (fun row => row)) by (intros []; reflexivity).
  rewrite map_id.
  pose proof (genre_dist_sql_spec E) as (Hsound & Hcomplete).
  pose proof (genre_dist_sql_facts E) as (Hs & _).
  unfold genre_distribution_spec. auto.
Qed.

Lemma ratings_by_year_spec_holds db r3 by_year :
  ratings_time_sql db = OK r3 -> mapM year_stat_dict r3 = OK by_year ->
  ratings_by_year_spec db by_year.
Proof.
  intros E3 Eyear.
  pose proof (ratings_time_sql_spec E3) as (Hsound & Hcomplete).
  pose proof (ratings_time_sql_facts E3) as (Hs & _ & _).
  apply mapM_Forall2 in Eyear.
  assert (HF : Forall2 (fun row e =>
                 ys_year e = yr_year row
                 /\ ys_count e = yr_rating_count row
                 /\ yr_avg_rating row = Some (ys_avg_rating e)) r3 by_year).
  { eapply Forall2_impl; [|exact Eyear]. intros row e He.
    unfold year_stat_dict in He.
    destruct (yr_avg_rating row); simpl in He; [|discriminate].
    inversion He; subst. cbn. auto. }
  unfold ratings_by_year_spec. split; [|split].
  - apply Forall_forall. intros e He.
    destruct (Forall2_In_r _ HF He) as (row & Hrow & Hy & Hc & Ha).
    rewrite Forall_forall in Hsound. destruct (Hsound row Hrow) as [Rc Ra].
    unfold year_entry. rewrite Hy, Hc. split; [exact Rc|].
    rewrite Ra in Ha. now inversion Ha.
  - intros r t Hr Ht. destruct (Hcomplete r t Hr Ht) as (row & Hrow & Hy).
    destruct (Forall2_In_l _ HF Hrow) as (e & He & Hy' & _).
    exists e. split; [exact He|]. congruence.
  - eapply StronglySorted_Forall2; [|exact HF|exact Hs].
    intros a b a' b' Hab (-> & _) (-> & _). exact Hab.
Qed.

Lemma avg_rating_by_genre_spec_holds db r4 by_genre :
  genre_ratings_sql db = OK r4 -> mapM genre_rating_dict r4 = OK by_genre ->
  avg_rating_by_genre_spec db by_genre.
Proof.
  intros E4 Egenre.
  pose proof (genre_ratings_sql_spec E4) as (Hsound & Hcomplete).
  pose proof (genre_ratings_sql_order E4) as (Hs & _).
  apply mapM_Forall2 in Egenre.
  assert (HF : Forall2 (fun row e =>
                 gr_genre e = grr_genre_name row
                 /\ gr_rating_count e = grr_rating_count row
                 /\ grr_avg_rating row = Some (gr_avg_rating e)) r4 by_genre).
  { eapply Forall2_impl; [|exact Egenre]. intros row e He.
    unfold genre_rating_dict in He.
    destruct (grr_avg_rating row); simpl in He; [|discriminate].
    inversion He; subst. cbn. auto. }
  assert (Hentry : forall g row e,
             genre_row_of db g row ->
             gr_genre e = grr_genre_name row
             /\ gr_rating_count e = grr_rating_count row
             /\ grr_avg_rating row = Some (gr_avg_rating e) ->
             genre_rating_of db g e).
  { intros g row e (R1 & R2 & R3) (T1 & T2 & T3).
    unfold genre_rating_of. rewrite T1, T2.
    rewrite R3 in T3. inversion T3. auto. }
  unfold avg_rating_by_genre_spec. split; [|split].
  - apply Forall_forall. intros e He.
    destruct (Forall2_In_r _ HF He) as (row & Hrow & Hrt).
    rewrite Forall_forall in Hsound.
    destruct (Hsound row Hrow) as (g & Hg & Hof).
    exists g. split; [exact Hg|]. eapply Hentry; eassumption.
  - intros g Hg Hne. destruct (Hcomplete g Hg Hne) as (row & Hrow & Hof).
    destruct (Forall2_In_l _ HF Hrow) as (e & He & Hrt).
    exists e. split; [exact He|]. eapply Hentry; eassumption.
  - eapply StronglySorted_Forall2; [|exact HF|exact Hs].
    intros a b a' b' Hab (_ & _ & Ha) (_ & _ & Hb). unfold opt_Q_geb in Hab.
    rewrite Ha, Hb in Hab. simpl in Hab. now apply Qle_bool_iff.
Qed.

Lemma movies_by_decade_spec_holds db decades :
  decade_sql db = OK decades ->
  movies_by_decade_spec db (map decade_dict decades).
Proof.
  intros E. pose proof (decade_sql_spec E) as (Hs & Hsound & Hcomplete).
  exists decades. split; [reflexivity|]. auto.
Qed.

(** C9.  [get_analytics_data] always returns a dict with exactly the five
    keys top_movies, genre_distribution, ratings_by_year,
    avg_rating_by_genre and movies_by_decade, in this order, and each
    value is the aggregation it is named for, computed from the tables:
    the top list holds movies with at least 50 ratings only (at most ten,
    the best by average); the genre distribution counts the movies of
    every genre that has one; the yearly figures count and average the
    ratings of every year that has one; the averages by genre do so for
    every genre with a rated movie; and the decades count the movies of
    every decade that has one. *)
Theorem get_analytics_data_five_sets_and_floor (db : DB) :
  exists top dist by_year by_genre by_decade,
    fst (get_analytics_data db)
    = OK [("top_movies", TopMovies top);
          ("genre_distribution", GenreDistribution dist);
          ("ratings_by_year", RatingsByYear by_year);
          ("avg_rating_by_genre", AvgRatingByGenre by_genre);
          ("movies_by_decade", MoviesByDecade by_decade)]%string
    /\ Forall (fun m => (50 <= tm_rating_count m)%Z) top
    /\ top_movies_spec db top
    /\ genre_distribution_spec db dist
    /\ ratings_by_year_spec db by_year
    /\ avg_rating_by_genre_spec db by_genre
    /\ movies_by_decade_spec db by_decade.
Proof.
  destruct (get_analytics_data_parts db)
    as (r1 & top & dist & r3 & by_year & r4 & by_genre & decades
        & E1 & Etop & Edist & E3 & Eyear & E4 & Egenre & Edec & E).
  exists top. eexists. exists by_year, by_genre. eexists.
  split; [exact E|].
  pose proof (top_movies_spec_holds E1 Etop) as Htop.
  split; [|split; [exact Htop|]].
  { destruct Htop as (Hall & _). eapply Forall_impl; [|exact Hall].
    intros t [H _]. exact H. }
  split; [now apply genre_distribution_spec_holds|].
  split; [eapply ratings_by_year_spec_holds; eassumption|].
  split; [eapply avg_rating_by_genre_spec_holds; eassumption|].
  now apply movies_by_decade_spec_holds.
Qed.

Local Close Scope Q_scope.
